(** * BlenderVPGEditor: the VPG codec, the text merge and the watcher's
    bookkeeping, embedded in Rocq.

    The development follows the Python sources of [vpg_editor]:

    - [import_vpg.py]: [parse_vpg_text], [generate_mesh],
      [_merge_geometry_with_existing], [mesh_to_vpg_text];
    - [text_editor.py]: [to_short_filename], [write_int_file],
      [remove_int_file], [read_int_file];
    - [mesh_watcher.py]: [_collect_active_vpg_paths],
      [_cleanup_orphan_internal_texts], [_sync_object_text];
    - [utils.py]: [read_file].

    Conventions of the embedding.

    - A Python [str] is a [string]; a character is a code point below 256
      (the Latin-1 range), which is where every character the grammar looks
      at lives (white space, [#], [n], [e], [,], digits, sign, underscore).
    - Python exceptions are values of [exn]; a computation that may raise
      has type [result A]; [try ... except ValueError] is a [match] on the
      raised exception.
    - Python's [float] is kept abstract: the class [FloatCodec] gives the
      conversions [float(token)] and [f"{x}"] and nothing else is assumed
      about them unless a theorem says so.
    - Dictionaries are [gmap]s; Blender's data blocks ([bpy.data.texts],
      [bpy.data.objects], meshes, the scene's custom properties) are fields
      of one explicit state record that the functions pass along. *)

From Stdlib Require Import Ascii String ZArith NArith Lia Bool.
From Stdlib Require Import DecimalString DecimalN DecimalZ.
From stdpp Require Import base option list gmap strings.

Local Open Scope Z_scope.

(** ** Python exceptions and results *)

Inductive exn : Set :=
  | ValueError
  | IndexError
  | TypeError
  | OSError              (* [IOError] is an alias of [OSError] *)
  | UnicodeDecodeError.

Inductive result (A : Type) : Type :=
  | Ok (a : A)
  | Raise (e : exn).
Arguments Ok {A} a.
Arguments Raise {A} e.

(** [KeyError] beside the exceptions of [exn], for the functions of the
    editor that index a dictionary or a collection by name. *)
Inductive raised : Type :=
  | KeyError
  | Exn (e : exn).

Inductive outcome (A : Type) : Type :=
  | Returns (a : A)
  | Raises (e : raised).
Arguments Returns {A} a.
Arguments Raises {A} e.

Definition result_bind {A B} (f : A → result B) (r : result A) : result B :=
  match r with
  | Ok a => f a
  | Raise e => Raise e
  end.

#[global] Instance result_mbind : MBind result := @result_bind.
#[global] Instance result_mret : MRet result := @Ok.

(** [for x in xs: st = body(st, x)], stopping at the first exception. *)
Fixpoint for_each {S X} (body : S → X → result S) (st : S) (xs : list X)
  : result S :=
  match xs with
  | [] => Ok st
  | x :: xs' => st' ← body st x; for_each body st' xs'
  end.

(** [xs[i]] *)
Definition getitem {A} (xs : list A) (i : nat) : result A :=
  match xs !! i with
  | Some x => Ok x
  | None => Raise IndexError
  end.

(** ** Python string primitives *)

Module PyStr.

Definition code (c : ascii) : N := N_of_ascii c.

(** [c.isspace()], for a code point below 256. *)
Definition isspace (c : ascii) : bool :=
  let n := code c in
  (((9 <=? n) && (n <=? 13)) || ((28 <=? n) && (n <=? 32))
   || (n =? 133) || (n =? 160))%N.

(** The line boundaries of [str.splitlines], for a code point below 256. *)
Definition is_linebreak (c : ascii) : bool :=
  let n := code c in
  (((10 <=? n) && (n <=? 13)) || ((28 <=? n) && (n <=? 30)) || (n =? 133))%N.

Definition is_cr (c : ascii) : bool := (code c =? 13)%N.
Definition is_lf (c : ascii) : bool := (code c =? 10)%N.

(** [c.isdigit()]: the ASCII digits and the superscripts two, three, one. *)
Definition isdigit_char (c : ascii) : bool :=
  let n := code c in
  (((48 <=? n) && (n <=? 57)) || (n =? 178) || (n =? 179) || (n =? 185))%N.

(** The decimal digits [int] accepts, for a code point below 256. *)
Definition is_decimal (c : ascii) : bool :=
  let n := code c in ((48 <=? n) && (n <=? 57))%N.

(** [c.lower()] *)
Definition lower_char (c : ascii) : ascii :=
  let n := code c in
  if (((65 <=? n) && (n <=? 90))
      || ((192 <=? n) && (n <=? 222) && negb (n =? 215)))%N
  then ascii_of_N (n + 32) else c.

Fixpoint lower (s : string) : string :=
  match s with
  | EmptyString => EmptyString
  | String c s' => String (lower_char c) (lower s')
  end.

Fixpoint lstrip_by (p : ascii → bool) (s : string) : string :=
  match s with
  | EmptyString => EmptyString
  | String c s' => if p c then lstrip_by p s' else s
  end.

Fixpoint rstrip_by (p : ascii → bool) (s : string) : string :=
  match s with
  | EmptyString => EmptyString
  | String c s' =>
      match rstrip_by p s' with
      | EmptyString => if p c then EmptyString else String c EmptyString
      | r => String c r
      end
  end.

Definition strip_by (p : ascii → bool) (s : string) : string :=
  rstrip_by p (lstrip_by p s).

(** [s.strip()] *)
Definition strip (s : string) : string := strip_by isspace s.

(** [s.strip(',')] *)
Definition strip_commas (s : string) : string :=
  strip_by (λ c, Ascii.eqb c ",") s.

(** [s.startswith(p)] *)
Definition startswith (p s : string) : bool := String.prefix p s.

Definition head_is (p : ascii → bool) (s : string) : bool :=
  match s with
  | EmptyString => false
  | String c _ => p c
  end.

(** [s.split()]: the maximal runs of characters that are not white space. *)
Fixpoint split (s : string) : list string :=
  match s with
  | EmptyString => []
  | String c s' =>
      if isspace c then split s'
      else if head_is (λ d, negb (isspace d)) s' then
        match split s' with
        | w :: ws => String c w :: ws
        | [] => [String c EmptyString]
        end
      else String c EmptyString :: split s'
  end.

(** [s.splitlines()]: the line terminators are dropped, a carriage return
    followed by a line feed counts once, and there is no empty last line. *)
Fixpoint splitlines (s : string) : list string :=
  match s with
  | EmptyString => []
  | String c s' =>
      if is_linebreak c then
        EmptyString ::
          match s' with
          | String d s'' =>
              if is_cr c && is_lf d then splitlines s'' else splitlines s'
          | EmptyString => []
          end
      else
        match splitlines s' with
        | l :: ls => String c l :: ls
        | [] => [String c EmptyString]
        end
  end.

(** [sep.join(xs)] *)
Definition join (sep : string) (xs : list string) : string :=
  String.concat sep xs.

(** [s.isdigit()]: non-empty and every character a digit. *)
Fixpoint all_chars (p : ascii → bool) (s : string) : bool :=
  match s with
  | EmptyString => true
  | String c s' => p c && all_chars p s'
  end.

Definition isdigit (s : string) : bool :=
  negb (String.eqb s "") && all_chars isdigit_char s.

(** [s[1:]] *)
Definition tail (s : string) : string :=
  match s with
  | EmptyString => EmptyString
  | String _ s' => s'
  end.

(** [f"{n}"] for a non-negative [int]. *)
Definition of_nat (n : nat) : string :=
  NilEmpty.string_of_uint (N.to_uint (N.of_nat n)).

(** The digits of an [int] literal: decimal digits, with single
    underscores allowed between two digits; the underscores are dropped. *)
Fixpoint int_digits (after_digit : bool) (s : string) : option string :=
  match s with
  | EmptyString => if after_digit then Some EmptyString else None
  | String c s' =>
      if is_decimal c then String c <$> int_digits true s'
      else if Ascii.eqb c "_" && after_digit then int_digits false s'
      else None
  end.

Definition unsigned_value (s : string) : option Z :=
  ds ← int_digits false s;
  d ← NilEmpty.uint_of_string ds;
  Some (Z.of_uint d).

(** [int(s)] in base ten; [None] stands for [ValueError]. The bound
    CPython puts on the number of digits of a literal is not modelled:
    beyond it [int] raises [ValueError] too, and such an index is far out
    of range for any text. *)
Definition int_of (s : string) : option Z :=
  match strip s with
  | String "+" body => unsigned_value body
  | String "-" body => Z.opp <$> unsigned_value body
  | body => unsigned_value body
  end.

End PyStr.

(** [int(s)] as a computation that raises [ValueError]. *)
Definition py_int (s : string) : result Z :=
  match PyStr.int_of s with
  | Some z => Ok z
  | None => Raise ValueError
  end.

(** ** Floats *)

(** [py_float s] is [float(s)], with [None] for [ValueError];
    [float_str x] is the text of [x] in an f-string. *)
Class FloatCodec (float : Type) := {
  float_of : string → option float;
  float_str : float → string
}.

Definition py_float `{FloatCodec float} (s : string) : result float :=
  match float_of s with
  | Some x => Ok x
  | None => Raise ValueError
  end.

(** ** The codec: [import_vpg.py] *)

Section Codec.
Context {float : Type} `{!FloatCodec float}.

Definition position : Type := float * float * float.
Definition triangle : Type := Z * Z * Z.

(** What [parse_vpg_text] builds and returns (with [return_maps=True]). *)
Record parsed : Type := {
  vertices : list position;
  indices : list triangle;
  node_index_to_id : list string;
  node_id_to_index : gmap string nat
}.

Definition parsed_empty : parsed :=
  {| vertices := []; indices := []; node_index_to_id := [];
     node_id_to_index := ∅ |}.

(** [token.strip().strip(',').strip()] *)
Definition normalize_token (token : string) : string :=
  PyStr.strip (PyStr.strip_commas (PyStr.strip token)).

(** [0 <= i < len(vertices)] *)
Definition index_in_range (n : nat) (i : Z) : bool :=
  (0 <=? i) && (i <? Z.of_nat n).

(** The body of the [for raw in filetext.splitlines()] loop. *)
Definition parse_line (st : parsed) (raw : string) : result parsed :=
  let line := PyStr.strip raw in
  if String.eqb line "" || PyStr.startswith "#" line then Ok st else
  let parts := PyStr.split line in
  match parts with
  | [] => Ok st
  | part0 :: _ =>
    let key := PyStr.lower part0 in
    if PyStr.startswith "n" key then
      if (length parts <? 4)%nat then Ok st else
      match (p1 ← getitem parts 1; x ← py_float p1;
             p2 ← getitem parts 2; y ← py_float p2;
             p3 ← getitem parts 3; z ← py_float p3;
             Ok (x, y, z)) with
      | Raise ValueError => Ok st
      | Raise e => Raise e
      | Ok xyz =>
        let node_id := key in
        if bool_decide (is_Some (node_id_to_index st !! node_id)) then Ok st
        else
          let vert_idx := length (vertices st) in
          Ok {| vertices := vertices st ++ [xyz];
                indices := indices st;
                node_index_to_id := node_index_to_id st ++ [node_id];
                node_id_to_index :=
                  <[node_id := vert_idx]> (node_id_to_index st) |}
      end
    else if PyStr.startswith "e" key then
      let idx_tokens := drop 1 parts in
      if (length idx_tokens <? 3)%nat then Ok st else
      match (t1 ← getitem idx_tokens 0; a ← py_int (normalize_token t1);
             t2 ← getitem idx_tokens 1; b ← py_int (normalize_token t2);
             t3 ← getitem idx_tokens 2; c ← py_int (normalize_token t3);
             let tri : triangle := (a - 1, b - 1, c - 1) in
             let n := length (vertices st) in
             if index_in_range n (a - 1) && index_in_range n (b - 1)
                && index_in_range n (c - 1)
             then Ok {| vertices := vertices st;
                        indices := indices st ++ [tri];
                        node_index_to_id := node_index_to_id st;
                        node_id_to_index := node_id_to_index st |}
             else Ok st) with
      | Raise ValueError => Ok st
      | r => r
      end
    else Ok st
  end.

Definition parse_lines (st : parsed) (lines : list string) : result parsed :=
  for_each parse_line st lines.

Definition parse_vpg_text (filetext : string) : result parsed :=
  parse_lines parsed_empty (PyStr.splitlines filetext).

(** *** The host's mesh, as far as the codec reads and writes it *)

(** A vertex of a [BMesh]. [vert_node_id] is the outcome of
    [v[node_id_layer].decode('utf-8')]: [None] when decoding raises. *)
Record BMVert : Type := {
  vert_node_id : option string;
  vert_init_node_id : option string;
  vert_co : position
}.

(** [bm.verts] in index order, [bm.faces] in iteration order, each face
    as the list of [vert.index] of its corners; and whether the two
    string layers [constants.BMESH_NODE_ID] and
    [constants.BMESH_INIT_NODE_ID] exist. *)
Record BMesh : Type := {
  has_node_id_layer : bool;
  has_init_node_id_layer : bool;
  verts : list BMVert;
  faces : list (list nat)
}.

(** The index of the vertex [xs[i]] refers to, for a Python [int]
    index: negative indices count from the end. *)
Definition resolve_index {A} (xs : list A) (i : Z) : result nat :=
  if 0 <=? i then
    if i <? Z.of_nat (length xs) then Ok (Z.to_nat i) else Raise IndexError
  else if - Z.of_nat (length xs) <=? i
       then Ok (Z.to_nat (Z.of_nat (length xs) + i))
       else Raise IndexError.

(** [bm.faces.new(corners)]: bmesh raises [ValueError] when a vertex is
    used twice in the face and when a face on the same vertices exists. *)
Definition same_vertex_set (f g : list nat) : bool :=
  bool_decide (f ⊆ g) && bool_decide (g ⊆ f).

Definition faces_new (fs : list (list nat)) (corners : list nat)
  : result (list (list nat)) :=
  if bool_decide (NoDup corners) && negb (existsb (same_vertex_set corners) fs)
  then Ok (fs ++ [corners]) else Raise ValueError.

(** [generate_mesh] on a fresh [bmesh], as [import_vpg] and
    [reimport_vpg] call it. [world_inv p] stands for
    [obj.matrix_world.inverted() @ Vector(p)] as the mesh stores it. The
    three metadata writes at the end of the source function go to the
    mesh's custom properties, see [Mesh] below. *)
Definition generate_vertex (world_inv : position → position)
    (node_index_to_id : list string)
    (acc : list BMVert * gmap string position) (iv : nat * position)
  : result (list BMVert * gmap string position) :=
  let '(vs, transformed_positions) := acc in
  let '(i, xyz) := iv in
  node_id ← getitem node_index_to_id i;
  let transformed_positions :=
    match transformed_positions !! node_id with
    | Some _ => transformed_positions
    | None => <[node_id := world_inv xyz]> transformed_positions
    end in
  p ← match transformed_positions !! node_id with
      | Some p => Ok p
      | None => Raise IndexError
      end;
  Ok (vs ++ [{| vert_node_id := Some node_id;
                vert_init_node_id := Some node_id;
                vert_co := p |}],
      transformed_positions).

Definition generate_face (vs : list BMVert) (fs : list (list nat))
    (tri : triangle) : result (list (list nat)) :=
  let '(a, b, c) := tri in
  ia ← resolve_index vs a;
  ib ← resolve_index vs b;
  ic ← resolve_index vs c;
  faces_new fs [ia; ib; ic].

Definition generate_mesh (world_inv : position → position)
    (vertices : list position) (indices : list triangle)
    (node_index_to_id : list string) : result BMesh :=
  '(vs, _) ← for_each (generate_vertex world_inv node_index_to_id)
               ([], ∅) (imap (λ i p, (i, p)) vertices);
  fs ← for_each (generate_face vs) [] indices;
  Ok {| has_node_id_layer := true; has_init_node_id_layer := true;
        verts := vs; faces := fs |}.

(** *** Merging generated geometry into an existing text *)

Definition newline : string := String "010"%char EmptyString.

(** [stripped[0].lower() in {'n', 'e'}] for a line that is neither blank
    nor a comment. *)
Definition is_geometry_line (line : string) : bool :=
  let stripped := PyStr.strip line in
  if String.eqb stripped "" || PyStr.startswith "#" stripped then false
  else
    match stripped with
    | String c _ =>
        let l := PyStr.lower_char c in Ascii.eqb l "n" || Ascii.eqb l "e"
    | EmptyString => false
    end.

Fixpoint geometry_indices_from (idx : nat) (base_lines : list string)
  : list nat :=
  match base_lines with
  | [] => []
  | line :: rest =>
      (if is_geometry_line line then [idx] else [])
      ++ geometry_indices_from (S idx) rest
  end.

(** [xs and xs[-1].strip()] *)
Definition last_is_nonblank (xs : list string) : bool :=
  match last xs with
  | Some l => negb (String.eqb (PyStr.strip l) "")
  | None => false
  end.

(** [xs and xs[0].strip()] *)
Definition first_is_nonblank (xs : list string) : bool :=
  match head xs with
  | Some l => negb (String.eqb (PyStr.strip l) "")
  | None => false
  end.

Definition _merge_geometry_with_existing
    (base_text : string) (geometry_lines : list string) : string :=
  let base_lines := PyStr.splitlines base_text in
  match geometry_lines with
  | [] => base_text
  | _ =>
    let geometry_indices := geometry_indices_from 0 base_lines in
    match geometry_indices with
    | [] =>
        let result_lines := base_lines in
        let result_lines :=
          if last_is_nonblank result_lines
          then result_lines ++ [EmptyString] else result_lines in
        let result_lines := result_lines ++ geometry_lines in
        PyStr.join newline result_lines
    | first_idx :: _ =>
        let last_idx := List.last geometry_indices first_idx in
        let prefix := take first_idx base_lines in
        let suffix := drop (last_idx + 1) base_lines in
        let result_lines := prefix in
        let result_lines :=
          if last_is_nonblank result_lines
          then result_lines ++ [EmptyString] else result_lines in
        let result_lines := result_lines ++ geometry_lines in
        let result_lines :=
          match suffix with
          | [] => result_lines
          | _ =>
              (if first_is_nonblank suffix && last_is_nonblank geometry_lines
               then result_lines ++ [EmptyString] else result_lines)
              ++ suffix
          end in
        PyStr.join newline result_lines
    end
  end.

(** *** Serializing a mesh *)

(** [f"n{idx + 1}"] *)
Definition expected_id (idx : nat) : string :=
  String "n" (PyStr.of_nat (idx + 1)).

(** The stamped id the loop reads: [None] when there is no layer, when
    decoding raises, and when the decoded string is empty. *)
Definition read_node_id (has_layer : bool) (v : BMVert) : option string :=
  if has_layer then
    match vert_node_id v with
    | Some decoded =>
        if String.eqb decoded "" then None else Some (PyStr.strip decoded)
    | None => None
    end
  else None.

(** [len(node_id) < 2 or node_id[0].lower() != 'n'
     or not node_id[1:].isdigit()], negated. *)
Definition is_numeric_id (node_id : string) : bool :=
  negb ((String.length node_id <? 2)%nat
        || negb (PyStr.head_is (λ c, Ascii.eqb (PyStr.lower_char c) "n") node_id)
        || negb (PyStr.isdigit (PyStr.tail node_id))).

(** The state of the first loop of [mesh_to_vpg_text]. *)
Record id_scan : Type := {
  vertex_entries : list (BMVert * string);
  numeric_pattern : bool;
  needs_renumber : bool;
  seen_numeric : gset string
}.

Definition id_scan_init : id_scan :=
  {| vertex_entries := []; numeric_pattern := true;
     needs_renumber := false; seen_numeric := ∅ |}.

Definition scan_vertex (has_layer : bool) (st : id_scan)
    (idx : nat) (v : BMVert) : id_scan :=
  let node_id := read_node_id has_layer v in
  let '(node_id, numeric_pattern, needs_renumber) :=
    match node_id with
    | None | Some EmptyString =>
        (expected_id idx, numeric_pattern st, true)
    | Some node_id =>
        if negb (is_numeric_id node_id)
        then (node_id, false, needs_renumber st)
        else
          let normalized_id := String "n" (PyStr.tail node_id) in
          if negb (String.eqb node_id normalized_id)
          then (normalized_id, numeric_pattern st, true)
          else (node_id, numeric_pattern st, needs_renumber st)
    end in
  let needs_renumber :=
    if bool_decide (node_id ∈ seen_numeric st) then true
    else needs_renumber in
  let seen_numeric := {[ node_id ]} ∪ seen_numeric st in
  let needs_renumber :=
    if negb (String.eqb node_id (expected_id idx)) then true
    else needs_renumber in
  {| vertex_entries := vertex_entries st ++ [(v, node_id)];
     numeric_pattern := numeric_pattern;
     needs_renumber := needs_renumber;
     seen_numeric := seen_numeric |}.

Fixpoint scan_vertices (has_layer : bool) (st : id_scan) (idx : nat)
    (vs : list BMVert) : id_scan :=
  match vs with
  | [] => st
  | v :: vs' => scan_vertices has_layer (scan_vertex has_layer st idx v) (S idx) vs'
  end.

(** [vert[node_id_layer] = new_id.encode('utf-8')] and the same for the
    initial-id layer, each only when the layer exists. *)
Definition stamp (has_layer has_init_layer : bool) (new_id : string)
    (v : BMVert) : BMVert :=
  {| vert_node_id := if has_layer then Some new_id else vert_node_id v;
     vert_init_node_id :=
       if has_init_layer then Some new_id else vert_init_node_id v;
     vert_co := vert_co v |}.

(** The renumbering loop, run when [numeric_pattern and needs_renumber]. *)
Definition renumber (has_layer has_init_layer : bool)
    (entries : list (BMVert * string)) : list (BMVert * string) :=
  imap (λ idx '(vert, _),
          let new_id := expected_id idx in
          (stamp has_layer has_init_layer new_id vert, new_id)) entries.

Definition final_entries (bm : BMesh) : list (BMVert * string) :=
  let st := scan_vertices (has_node_id_layer bm) id_scan_init 0 (verts bm) in
  if numeric_pattern st && needs_renumber st
  then renumber (has_node_id_layer bm) (has_init_node_id_layer bm)
         (vertex_entries st)
  else vertex_entries st.

(** [f"{node_id} {co.x} {co.y} {co.z}"] *)
Definition vertex_line (node_id : string) (co : position) : string :=
  let '(x, y, z) := co in
  node_id +:+ " " +:+ float_str x +:+ " " +:+ float_str y
          +:+ " " +:+ float_str z.

(** [f"e{tri_counter} {a+1} {b+1} {c+1}"] *)
Definition face_line (tri_counter a b c : nat) : string :=
  "e" +:+ PyStr.of_nat tri_counter +:+ " " +:+ PyStr.of_nat (a + 1)
      +:+ " " +:+ PyStr.of_nat (b + 1) +:+ " " +:+ PyStr.of_nat (c + 1).

(** [for j in range(1, len(verts) - 1)] over the corners after the
    first: the triangles [(a, verts[j], verts[j+1])]. *)
Fixpoint fan (a : nat) (rest : list nat) : list (nat * nat * nat) :=
  match rest with
  | b :: ((c :: _) as rest') => (a, b, c) :: fan a rest'
  | _ => []
  end.

Definition face_triangles (corners : list nat) : list (nat * nat * nat) :=
  match corners with
  | [a; b; c] => [(a, b, c)]
  | a :: rest => if (3 <? length corners)%nat then fan a rest else []
  | [] => []
  end.

(** The face loop: the lines so far and [tri_counter]. *)
Definition emit_face (acc : list string * nat) (corners : list nat)
  : list string * nat :=
  foldl (λ '(lines, tri_counter) '(a, b, c),
           (lines ++ [face_line tri_counter a b c], S tri_counter))
        acc (face_triangles corners).

(** [lines] at the end of the [try] block of [mesh_to_vpg_text]. *)
Definition mesh_lines (bm : BMesh) : list string :=
  let lines := map (λ '(vert, node_id), vertex_line node_id (vert_co vert))
                   (final_entries bm) in
  fst (foldl emit_face (lines, 1%nat) (faces bm)).

(** [mesh_to_vpg_text(mesh, obj, base_text)]. [bm] is the geometry the
    function reads, [using_edit_bmesh] says whether it is the edit mesh
    (then the ids stamped by the renumbering stay in the mesh) or a copy
    made with [from_mesh] (then they are lost with the copy). The
    result is the text and the geometry of the mesh afterwards. *)
Definition mesh_to_vpg_text (bm : BMesh) (using_edit_bmesh : bool)
    (base_text : option string) : string * BMesh :=
  let lines := mesh_lines bm in
  let bm' :=
    if using_edit_bmesh
    then {| has_node_id_layer := has_node_id_layer bm;
            has_init_node_id_layer := has_init_node_id_layer bm;
            verts := map fst (final_entries bm);
            faces := faces bm |}
    else bm in
  let result := PyStr.join newline lines in
  let result :=
    match base_text with
    | Some base_text =>
        if String.eqb base_text "" then result
        else _merge_geometry_with_existing base_text lines
    | None => result
    end in
  (result, bm').

End Codec.

Arguments position float : clear implicits.
Arguments parsed float : clear implicits.
Arguments BMVert float : clear implicits.
Arguments BMesh float : clear implicits.
Arguments id_scan float : clear implicits.

(** ** The internal editor and the watcher: [text_editor.py],
    [mesh_watcher.py] *)

(** [os.path.basename] with the POSIX separator. *)
Fixpoint has_slash (p : string) : bool :=
  match p with
  | EmptyString => false
  | String c p' => Ascii.eqb c "/" || has_slash p'
  end.

Fixpoint basename (p : string) : string :=
  match p with
  | EmptyString => EmptyString
  | String c p' =>
      if Ascii.eqb c "/" || has_slash p' then basename p' else p
  end.

Definition to_short_filename (filename : string) : string := basename filename.

(** The length of a [str] in bytes of UTF-8: one byte for a code point
    below 128 and two for the others of the Latin-1 range. *)
Fixpoint utf8_length (s : string) : nat :=
  match s with
  | EmptyString => 0
  | String c s' =>
      (if (PyStr.code c <? 128)%N then 1 else 2) + utf8_length s'
  end.

(** Blender's limit on the name of an ID property: a key of 64 bytes or
    more is refused with [KeyError]. *)
Definition MAX_IDPROP_NAME : nat := 64.

Definition idprop_name_ok (name : string) : bool :=
  (utf8_length name <? MAX_IDPROP_NAME)%nat.

(** The short names [write_int_file] can file a text under: not empty
    (no text data block has an empty name) and within the limit on
    property names. *)
Definition writable_name (name : string) : bool :=
  negb (String.eqb name "") && idprop_name_ok name.

(** The name Blender gives a data block made with an empty name: for a
    text [Text], or the first of [Text.001], [Text.002], ... that no text
    has. *)
Definition numbered_text_name (n : nat) : string :=
  let digits := PyStr.of_nat n in
  "Text." +:+ match String.length digits with
              | 1%nat => "00" +:+ digits
              | 2%nat => "0" +:+ digits
              | _ => digits
              end.

Definition fresh_text_name (ts : gmap string string) : string :=
  default "Text"
    (List.find (λ name, bool_decide (ts !! name = None))
       ("Text" :: map numbered_text_name (seq 1 (size ts + 1)))).

Section Editor.
Context {float : Type} `{!FloatCodec float}.

(** A mesh data block: the custom properties under the keys
    [constants.MESH_VPG_FILE_PATH] and [constants.MESH_DATA] ([None] when
    absent or not a [str]) and the geometry. The key strings themselves
    (module [constants]) play no role: each property is a field. *)
Record Mesh : Type := {
  vpg_file_path : option string;
  mesh_data : option string;
  geometry : BMesh float
}.

(** An object: [obj.type == 'MESH'], [obj.mode == 'EDIT'], and the name
    of the mesh data block [obj.data] refers to. Objects that share a
    mesh name the same data block. *)
Record Object : Type := {
  obj_name : string;
  obj_is_mesh : bool;
  obj_mode_edit : bool;
  obj_data : option string
}.

(** The scene's custom properties under the keys
    [constants.SCENE_PREV_TEXTS] and
    [constants.SCENE_SHORT_TO_FULL_FILENAME]; [None] when the key is
    absent. The key strings themselves play no role: each property is a
    field. *)
Record Scene : Type := {
  prev_texts : option (gmap string (option string));
  short_to_full_filename : option (gmap string string)
}.

(** [bpy.data] and [bpy.context] as the functions below use them, and the
    module globals [history_stack] and [history_stack_idx] of
    [text_editor]. [text_area] is [None] without a text editor area and
    otherwise the name of the text its first space shows. *)
Record Blender : Type := {
  objects : list Object;
  meshes : gmap string Mesh;
  texts : gmap string string;
  scene : option Scene;
  text_area : option (option string);
  history_stack : list (gmap string string);
  history_stack_idx : Z
}.

Definition with_texts (t : gmap string string) (σ : Blender) : Blender :=
  {| objects := objects σ; meshes := meshes σ; texts := t;
     scene := scene σ; text_area := text_area σ;
     history_stack := history_stack σ;
     history_stack_idx := history_stack_idx σ |}.

Definition with_scene (sc : option Scene) (σ : Blender) : Blender :=
  {| objects := objects σ; meshes := meshes σ; texts := texts σ;
     scene := sc; text_area := text_area σ;
     history_stack := history_stack σ;
     history_stack_idx := history_stack_idx σ |}.

Definition with_meshes (ms : gmap string Mesh) (σ : Blender) : Blender :=
  {| objects := objects σ; meshes := ms; texts := texts σ;
     scene := scene σ; text_area := text_area σ;
     history_stack := history_stack σ;
     history_stack_idx := history_stack_idx σ |}.

Definition with_text_area (a : option (option string)) (σ : Blender)
  : Blender :=
  {| objects := objects σ; meshes := meshes σ; texts := texts σ;
     scene := scene σ; text_area := a;
     history_stack := history_stack σ;
     history_stack_idx := history_stack_idx σ |}.

(** [obj.data], when it is a mesh data block. *)
Definition obj_mesh (σ : Blender) (obj : Object) : option Mesh :=
  name ← obj_data obj; meshes σ !! name.

(** A custom property read with [mesh.get(...)] and tested for truth. *)
Definition truthy (v : option string) : option string :=
  match v with
  | Some EmptyString | None => None
  | Some s => Some s
  end.

Definition _collect_active_vpg_paths (σ : Blender) : gset string :=
  foldl (λ (active : gset string) obj,
           if negb (obj_is_mesh obj) then active else
           match obj_mesh σ obj with
           | None => active
           | Some mesh =>
               match truthy (vpg_file_path mesh) with
               | Some vpg_path => {[ vpg_path ]} ∪ active
               | None => active
               end
           end)
        ∅ (objects σ).

Definition read_int_file (filename : string) (σ : Blender) : option string :=
  texts σ !! to_short_filename filename.

Definition remove_int_file (filename : string) (σ : Blender) : Blender :=
  let short_filename := to_short_filename filename in
  let σ := with_texts (delete short_filename (texts σ)) σ in
  match scene σ with
  | None => σ
  | Some sc =>
      with_scene
        (Some {| prev_texts := delete short_filename <$> prev_texts sc;
                 short_to_full_filename :=
                   delete short_filename <$> short_to_full_filename sc |})
        σ
  end.

(** [write_int_file]: the state afterwards and the exception raised, if
    any. [constants.X not in scene] raises [TypeError] when there is no
    scene; the assignment into the path mapping raises [KeyError] for a
    short name beyond the limit on property names; and for an empty
    short name [bpy.data.texts.new] makes a text under a name of
    Blender's choice and the lookup of the empty name that follows
    raises [KeyError]. What was written before the exception stays
    written. The cursor of the text is not modelled. *)
Definition write_int_file (filename text : string) (σ : Blender)
  : Blender * option raised :=
  match scene σ with
  | None => (σ, Some (Exn TypeError))
  | Some sc =>
      let short_filename := to_short_filename filename in
      let mapping := default ∅ (short_to_full_filename sc) in
      if negb (idprop_name_ok short_filename) then
        (with_scene (Some {| prev_texts := prev_texts sc;
                             short_to_full_filename := Some mapping |}) σ,
         Some KeyError)
      else
      let mapping := <[short_filename := filename]> mapping in
      if String.eqb short_filename "" then
        (with_scene (Some {| prev_texts := prev_texts sc;
                             short_to_full_filename := Some mapping |})
           (with_texts (<[fresh_text_name (texts σ) := ""]> (texts σ)) σ),
         Some KeyError)
      else
      let new_texts := <[short_filename := text]> (texts σ) in
      let prev := default ∅ (prev_texts sc) in
      let prev :=
        match prev !! short_filename with
        | Some _ => prev
        | None => <[short_filename := None]> prev
        end in
      (with_scene (Some {| prev_texts := Some prev;
                           short_to_full_filename := Some mapping |})
         (with_texts new_texts σ),
       None)
  end.

Definition show_int_file (filename : string) (σ : Blender) : Blender :=
  let short_filename := to_short_filename filename in
  match texts σ !! short_filename with
  | None => σ
  | Some _ =>
      match text_area σ with
      | None => σ
      | Some _ => with_text_area (Some (Some short_filename)) σ
      end
  end.

(** [scene[SCENE_PREV_TEXTS][short_name] = new_text], creating the
    dictionary when the key is absent. *)
Definition set_prev_text (short_name new_text : string) (σ : Blender)
  : Blender :=
  match scene σ with
  | None => σ
  | Some sc =>
      with_scene
        (Some {| prev_texts :=
                   Some (<[short_name := Some new_text]>
                           (default ∅ (prev_texts sc)));
                 short_to_full_filename := short_to_full_filename sc |})
        σ
  end.

Definition _cleanup_orphan_internal_texts (σ : Blender) : Blender :=
  match scene σ with
  | None => σ
  | Some sc =>
      match short_to_full_filename sc with
      | None => σ
      | Some mapping =>
          if bool_decide (mapping = ∅) then σ else
          let active_paths := _collect_active_vpg_paths σ in
          let items := map_to_list mapping in
          foldl (λ σ '(short_name, full_path),
                   if bool_decide (full_path ∉ active_paths)
                   then remove_int_file full_path σ else σ)
                σ items
      end
  end.

(** [_sync_object_text(context, obj)]: the returned flag and the state
    afterwards. *)
Definition _sync_object_text (obj : Object) (σ : Blender) : bool * Blender :=
  match obj_data obj with
  | None => (false, σ)
  | Some mesh_name =>
    match meshes σ !! mesh_name with
    | None => (false, σ)
    | Some mesh =>
      match truthy (vpg_file_path mesh) with
      | None => (false, σ)
      | Some vpg_path =>
        let stored_text := mesh_data mesh in
        let base_text :=
          match stored_text with
          | Some s => Some s
          | None => read_int_file vpg_path σ
          end in
        let '(new_text, bm) :=
          mesh_to_vpg_text (geometry mesh) (obj_mode_edit obj) base_text in
        let mesh := {| vpg_file_path := vpg_file_path mesh;
                       mesh_data := mesh_data mesh; geometry := bm |} in
        let σ := with_meshes (<[mesh_name := mesh]> (meshes σ)) σ in
        let old_text :=
          match stored_text with
          | Some s => Some s
          | None => base_text
          end in
        if bool_decide (Some new_text = old_text) then (false, σ) else
        let mesh := {| vpg_file_path := vpg_file_path mesh;
                       mesh_data := Some new_text; geometry := bm |} in
        let σ := with_meshes (<[mesh_name := mesh]> (meshes σ)) σ in
        let σ :=
          match write_int_file vpg_path new_text σ with
          | (σ, Some _) => σ
          | (σ, None) =>
              let short_name := to_short_filename vpg_path in
              show_int_file vpg_path (set_prev_text short_name new_text σ)
          end in
        (true, σ)
      end
    end
  end.

End Editor.

Arguments Mesh float : clear implicits.
Arguments Blender float : clear implicits.

(** ** [utils.py] *)

(** The outcome of [open(filepath, mode='r', encoding='utf8')] followed by
    [f.read()]: the decoded content, or the exception either call raises
    ([OSError] for a missing or unreadable file, [UnicodeDecodeError] for
    bytes that are not UTF-8). *)
Definition file_system : Type := string → result string.

(** [read_file]; the message printed to [stderr] is not modelled. *)
Definition read_file (fs : file_system) (filepath : string)
  : result (option string) :=
  let content := None in
  match fs filepath with
  | Ok text => Ok (Some text)
  | Raise OSError => Ok content
  | Raise e => Raise e
  end.

(** ** A float codec on integral values

    An instance of [FloatCodec] to run the codec on: the floats with an
    integral value, written as Python writes them ([3.0], [-2.0]) and read
    from integer literals with an optional fraction of zeros. *)

Module IntegralFloat.

Fixpoint split_dot (s : string) : string * option string :=
  match s with
  | EmptyString => (EmptyString, None)
  | String c s' =>
      if Ascii.eqb c "." then (EmptyString, Some s')
      else let '(a, b) := split_dot s' in (String c a, b)
  end.

Definition of_string (s : string) : option Z :=
  let '(ip, fp) := split_dot (PyStr.strip s) in
  match fp with
  | None => PyStr.int_of ip
  | Some f =>
      if PyStr.all_chars (λ c, Ascii.eqb c "0") f then PyStr.int_of ip
      else None
  end.

Definition to_string (z : Z) : string :=
  NilEmpty.string_of_int (Z.to_int z) +:+ ".0".

Definition codec : FloatCodec Z :=
  {| float_of := of_string; float_str := to_string |}.

(** The characters of the integer part: digits and the minus sign. *)
Definition plain_char (c : ascii) : bool :=
  PyStr.is_decimal c || Ascii.eqb c "-".

End IntegralFloat.

(** ** Vocabulary for the statements about strings *)

(** No white space anywhere. *)
Definition no_space (s : string) : bool :=
  PyStr.all_chars (λ c, negb (PyStr.isspace c)) s.

(** A token of [str.split]: not empty, no white space. *)
Definition is_token (s : string) : bool :=
  negb (String.eqb s "") && no_space s.

(** No line boundary anywhere. *)
Definition one_line (s : string) : bool :=
  PyStr.all_chars (λ c, negb (PyStr.is_linebreak c)) s.

(** ** Vocabulary for the statements about the parser *)

Section LineClasses.
Context {float : Type} `{!FloatCodec float}.

(** What a line is to [parse_vpg_text], by the tests the loop body makes
    in the order it makes them. *)
Inductive line_class : Type :=
  | Ignored
  | MalformedVertex
  | VertexLine (node_id : string) (xyz : position float)
  | MalformedFace
  | FaceLine (tri : triangle).

Definition classify_line (raw : string) : line_class :=
  let line := PyStr.strip raw in
  if String.eqb line "" || PyStr.startswith "#" line then Ignored else
  match PyStr.split line with
  | [] => Ignored
  | part0 :: rest =>
    let key := PyStr.lower part0 in
    if PyStr.startswith "n" key then
      match rest with
      | p1 :: p2 :: p3 :: _ =>
          match float_of p1, float_of p2, float_of p3 with
          | Some x, Some y, Some z => VertexLine key (x, y, z)
          | _, _, _ => MalformedVertex
          end
      | _ => MalformedVertex
      end
    else if PyStr.startswith "e" key then
      match rest with
      | t1 :: t2 :: t3 :: _ =>
          match PyStr.int_of (normalize_token t1),
                PyStr.int_of (normalize_token t2),
                PyStr.int_of (normalize_token t3) with
          | Some a, Some b, Some c => FaceLine (a - 1, b - 1, c - 1)
          | _, _, _ => MalformedFace
          end
      | _ => MalformedFace
      end
    else Ignored
  end.

Definition triangle_in_range (n : nat) (tri : triangle) : bool :=
  let '(a, b, c) := tri in
  index_in_range n a && index_in_range n b && index_in_range n c.

(** The effect of a line of a given class on the parser's state. *)
Definition apply_line (st : parsed float) (c : line_class) : parsed float :=
  match c with
  | VertexLine node_id xyz =>
      if bool_decide (is_Some (node_id_to_index st !! node_id)) then st
      else {| vertices := vertices st ++ [xyz];
              indices := indices st;
              node_index_to_id := node_index_to_id st ++ [node_id];
              node_id_to_index :=
                <[node_id := length (vertices st)]> (node_id_to_index st) |}
  | FaceLine tri =>
      if triangle_in_range (length (vertices st)) tri
      then {| vertices := vertices st;
              indices := indices st ++ [tri];
              node_index_to_id := node_index_to_id st;
              node_id_to_index := node_id_to_index st |}
      else st
  | _ => st
  end.

Definition is_valid_vertex_line (raw : string) : bool :=
  match classify_line raw with VertexLine _ _ => true | _ => false end.

Definition is_malformed_vertex_line (raw : string) : bool :=
  match classify_line raw with MalformedVertex => true | _ => false end.

(** The id a valid vertex line declares. *)
Definition declared_id (raw : string) : option string :=
  match classify_line raw with VertexLine node_id _ => Some node_id | _ => None end.

Definition apply_lines (st : parsed float) (lines : list string)
  : parsed float :=
  foldl (λ st raw, apply_line st (classify_line raw)) st lines.

(** The ids the valid vertex lines declare, in order. *)
Definition declared_ids (lines : list string) : list string :=
  omap declared_id lines.

Definition count_lines (p : string → bool) (lines : list string) : nat :=
  length (List.filter p lines).

(** The first three index tokens of a line the parser treats as a face
    line. *)
Definition face_index_tokens (raw : string)
  : option (string * string * string) :=
  let line := PyStr.strip raw in
  if String.eqb line "" || PyStr.startswith "#" line then None else
  match PyStr.split line with
  | part0 :: t1 :: t2 :: t3 :: _ =>
      let key := PyStr.lower part0 in
      if PyStr.startswith "n" key then None
      else if PyStr.startswith "e" key then Some (t1, t2, t3)
      else None
  | _ => None
  end.

(** An index token, normalized, read as a 1-based [int] and made
    0-based; [None] when [int] raises. *)
Definition resolved_index (token : string) : option Z :=
  (λ i, i - 1) <$> PyStr.int_of (normalize_token token).

(** A token that [int] rejects, or whose 0-based index is outside
    [[0, n)]. *)
Definition bad_index (n : nat) (token : string) : Prop :=
  match resolved_index token with
  | None => True
  | Some i => i < 0 ∨ Z.of_nat n ≤ i
  end.

(** The invariant of the parser's state. *)
Record parsed_wf (st : parsed float) : Prop := {
  wf_length : length (node_index_to_id st) = length (vertices st);
  wf_dict : ∀ node_id i,
    node_id_to_index st !! node_id = Some i ↔
    node_index_to_id st !! i = Some node_id;
  wf_nodup : NoDup (node_index_to_id st);
  wf_faces :
    Forall (λ tri, triangle_in_range (length (vertices st)) tri = true)
           (indices st)
}.

End LineClasses.

Arguments line_class float : clear implicits.

(** Texts are written line by line. *)
Definition unlines (lines : list string) : string := PyStr.join newline lines.

(** ** Vocabulary for the statements about the serializer *)

Section SerializerVocabulary.
Context {float : Type}.

(** The id the first loop of [mesh_to_vpg_text] settles on for the vertex
    at position [idx], before any renumbering: a missing or empty stamp
    gives [n<idx+1>]; a stamp of the numeric pattern is kept with its
    first letter in lower case; any other stamp is kept as it is. *)
Definition assigned_id (has_layer : bool) (idx : nat) (v : BMVert float)
  : string :=
  match read_node_id has_layer v with
  | None | Some EmptyString => expected_id idx
  | Some node_id =>
      if is_numeric_id node_id then String "n" (PyStr.tail node_id)
      else node_id
  end.

(** The vertex carries a non-empty stamp that fails the numeric
    pattern. *)
Definition stamped_invalid (has_layer : bool) (v : BMVert float) : bool :=
  match read_node_id has_layer v with
  | None | Some EmptyString => false
  | Some node_id => negb (is_numeric_id node_id)
  end.

(** The stamps are [n1 .. nK] in vertex order. *)
Definition dense_ids (bm : BMesh float) : Prop :=
  has_node_id_layer bm = true
  ∧ ∀ idx v, verts bm !! idx = Some v →
             vert_node_id v = Some (expected_id idx).

(** [bm'] is [bm] after an edit that only moved vertices: the same
    layers, the same faces, vertex for vertex the same stamps. *)
Definition moved (bm bm' : BMesh float) : Prop :=
  has_node_id_layer bm' = has_node_id_layer bm
  ∧ has_init_node_id_layer bm' = has_init_node_id_layer bm
  ∧ faces bm' = faces bm
  ∧ Forall2 (λ v v', vert_node_id v' = vert_node_id v
                     ∧ vert_init_node_id v' = vert_init_node_id v)
            (verts bm) (verts bm').

(** The ids [mesh_to_vpg_text] writes, in vertex order. *)
Definition emitted_ids (bm : BMesh float) : list string :=
  (final_entries bm).*2.

End SerializerVocabulary.

(** ** Vocabulary for the statements about the editor state *)

Section EditorVocabulary.
Context {float : Type}.

(** [scene[SCENE_SHORT_TO_FULL_FILENAME].get(short_name)] *)
Definition tracked_path (σ : Blender float) (short_name : string)
  : option string :=
  sc ← scene σ; mapping ← short_to_full_filename sc; mapping !! short_name.

(** [scene[SCENE_PREV_TEXTS].get(short_name)], when there is an entry. *)
Definition prev_text (σ : Blender float) (short_name : string)
  : option (option string) :=
  sc ← scene σ; prev ← prev_texts sc; prev !! short_name.

(** Nothing is left of the internal text [short_name]: no text data
    block, no path mapping, no previous text. *)
Definition forgotten (σ : Blender float) (short_name : string) : Prop :=
  texts σ !! short_name = None
  ∧ tracked_path σ short_name = None
  ∧ prev_text σ short_name = None.

(** The text [_sync_object_text] merges into and compares with: the
    mesh's cached text, or without one the content of the internal
    text. *)
Definition reference_text (σ : Blender float) (mesh : Mesh float)
    (vpg_path : string) : option string :=
  match mesh_data mesh with
  | Some s => Some s
  | None => read_int_file vpg_path σ
  end.

(** The body of the loop of [_cleanup_orphan_internal_texts]. *)
Definition cleanup_step (active_paths : gset string) (σ : Blender float)
    (item : string * string) : Blender float :=
  let '(short_name, full_path) := item in
  if bool_decide (full_path ∉ active_paths)
  then remove_int_file full_path σ else σ.

End EditorVocabulary.

(** ** Vocabulary for the round trip *)

Section RoundTripVocabulary.
Context {float : Type} `{!FloatCodec float}.

(** [serialize] of a parsed document: the mesh [generate_mesh] builds
    from it, written by [mesh_to_vpg_text] (object mode, no base
    text). *)
Definition serialize (world_inv : position float → position float)
    (doc : parsed float) : result string :=
  bm ← generate_mesh world_inv (vertices doc) (indices doc)
         (node_index_to_id doc);
  Ok (mesh_to_vpg_text bm false None).1.

(** The vertex [generate_mesh] makes of an id and a position. *)
Definition imported_vertex (world_inv : position float → position float)
    (node_id : string) (xyz : position float) : BMVert float :=
  {| vert_node_id := Some node_id; vert_init_node_id := Some node_id;
     vert_co := world_inv xyz |}.

(** The corners [generate_mesh] gives the face of a triangle. *)
Definition triangle_corners (tri : triangle) : list nat :=
  let '(a, b, c) := tri in [Z.to_nat a; Z.to_nat b; Z.to_nat c].

(** The line [mesh_to_vpg_text] writes for the face of a triangle, with
    the counter at [k]. *)
Definition triangle_line (k : nat) (tri : triangle) : string :=
  let '(a, b, c) := tri in
  face_line k (Z.to_nat a) (Z.to_nat b) (Z.to_nat c).

(** The faces [generate_mesh] can make of the triangles, after the
    faces [fs]: every triangle names three different vertices, and no
    two faces are on the same three vertices ([bm.faces.new] refuses a
    repeated vertex and a face that exists). *)
Fixpoint faces_buildable (fs : list (list nat)) (tris : list triangle)
  : bool :=
  match tris with
  | [] => true
  | tri :: rest =>
      let corners := triangle_corners tri in
      bool_decide (NoDup corners)
      && negb (existsb (same_vertex_set corners) fs)
      && faces_buildable (fs ++ [corners]) rest
  end.

(** The serializer leaves the ids of the document alone: some id is not
    of the numeric pattern (then nothing is renumbered), or the ids are
    [n1 .. nK] in order (then renumbering changes nothing). *)
Definition ids_stable (ids : list string) : Prop :=
  (∃ node_id, node_id ∈ ids ∧ is_numeric_id node_id = false)
  ∨ ids = imap (λ idx _, expected_id idx) ids.

(** A coordinate survives the mesh and the text: what the mesh stores
    for it is written as a token that [float] reads back as the
    coordinate. *)
Definition float_kept (stored original : float) : Prop :=
  is_token (float_str stored) = true
  ∧ float_of (float_str stored) = Some original.

Definition position_kept (world_inv : position float → position float)
    (xyz : position float) : Prop :=
  let '(x, y, z) := xyz in
  let '(x', y', z') := world_inv xyz in
  float_kept x' x ∧ float_kept y' y ∧ float_kept z' z.

(** What the parser guarantees of an id: a token in lower case that
    starts with [n]. *)
Definition id_ok (node_id : string) : Prop :=
  is_token node_id = true ∧ PyStr.lower node_id = node_id
  ∧ PyStr.startswith "n" node_id = true.

End RoundTripVocabulary.

(** ** Sample inputs

    Concrete texts, meshes and editor states, over the integral float
    codec, on which the statements below are run. *)

Module Samples.

#[local] Existing Instance IntegralFloat.codec.

(** One triangle on three vertices with the ids [n1], [n2], [n3]. *)
Definition triangle_text : string :=
  unlines ["n1 0 0 0"; "n2 1 0 0"; "n3 0 1 0"; "e1 1 2 3"].

Definition triangle_doc : parsed Z :=
  {| vertices := [(0, 0, 0); (1, 0, 0); (0, 1, 0)];
     indices := [(0, 1, 2)];
     node_index_to_id := ["n1"; "n2"; "n3"];
     node_id_to_index :=
       <["n3" := 2%nat]> (<["n2" := 1%nat]> (<["n1" := 0%nat]> ∅)) |}.

Definition triangle_serialized : string :=
  unlines ["n1 0.0 0.0 0.0"; "n2 1.0 0.0 0.0"; "n3 0.0 1.0 0.0"; "e1 1 2 3"].

(** A single vertex whose id is not the first of the dense sequence. *)
Definition sparse_text : string := "n5 0 0 0".

(** The triangle twice: the second face is on the vertices of the
    first. *)
Definition repeated_face_text : string :=
  unlines ["n1 0 0 0"; "n2 1 0 0"; "n3 0 1 0"; "e1 1 2 3"; "e2 3 1 2"].

(** An object moved by one along the first axis: what the inverse of
    its matrix makes of a position. *)
Definition shift_x (xyz : position Z) : position Z :=
  let '(x, y, z) := xyz in (x - 1, y, z).

(** Two valid vertex lines around a vertex line with a bad float. *)
Definition recovered_text : string :=
  unlines ["n1 0 0 0"; "n2 oops 0 0"; "n3 1 1 1"].

(** Two valid vertex lines with the same id, and a malformed one. *)
Definition duplicate_text : string :=
  unlines ["n1 0 0 0"; "n1 1 1 1"; "n2 bad 0 0"].

(** A face line with the 1-based index [0] between two vertex lines. *)
Definition zero_index_text : string :=
  unlines ["n1 0 0 0"; "e1 1 0 1"; "n2 1 1 1"].

(** A face line that comes before the vertex it names. *)
Definition early_face_text : string := unlines ["e1 1 1 1"; "n1 0 0 0"].

Definition stamped (node_id : string) (xyz : position Z) : BMVert Z :=
  {| vert_node_id := Some node_id; vert_init_node_id := Some node_id;
     vert_co := xyz |}.

Definition mesh_of (vs : list (BMVert Z)) (fs : list (list nat)) : BMesh Z :=
  {| has_node_id_layer := true; has_init_node_id_layer := true;
     verts := vs; faces := fs |}.

(** Two vertices stamped [n1], [n2], before and after a move. *)
Definition dense_mesh : BMesh Z :=
  mesh_of [stamped "n1" (0, 0, 0); stamped "n2" (1, 0, 0)] [].
Definition dense_mesh_moved : BMesh Z :=
  mesh_of [stamped "n1" (5, 5, 5); stamped "n2" (1, 2, 3)] [].

(** A sparse numeric stamp next to a stamp that is not of the pattern. *)
Definition custom_mesh : BMesh Z :=
  mesh_of [stamped "n5" (0, 0, 0); stamped "foo" (1, 0, 0)] [].

(** A sparse numeric stamp next to a vertex without a stamp. *)
Definition unstamped_mesh : BMesh Z :=
  mesh_of [stamped "n5" (0, 0, 0); stamped "" (1, 0, 0)] [].

Definition header_text : string :=
  unlines ["# header"; "n1 0 0 0"; "e1 1 1 1"; ""].

(** An editor state that tracks [a.vpg] for a path no object names, with
    one entry for it in the undo history. *)
Definition orphan_state : Blender Z :=
  {| objects := [];
     meshes := ∅;
     texts := {[ "a.vpg" := "n1 0 0 0" ]};
     scene := Some {| prev_texts := Some {[ "a.vpg" := Some "n1 0 0 0" ]};
                      short_to_full_filename :=
                        Some {[ "a.vpg" := "/models/a.vpg" ]} |};
     text_area := None;
     history_stack := [ {[ "a.vpg" := "n1 0 0 0" ]} ];
     history_stack_idx := 0 |}.

(** A mesh object in object mode whose cached text is what its geometry
    serializes to. *)
Definition synced_mesh : Mesh Z :=
  {| vpg_file_path := Some "/models/b.vpg";
     mesh_data := Some "n1 0.0 0.0 0.0";
     geometry := mesh_of [stamped "n1" (0, 0, 0)] [] |}.

Definition synced_object : Object :=
  {| obj_name := "b"; obj_is_mesh := true; obj_mode_edit := false;
     obj_data := Some "b_mesh" |}.

Definition synced_state : Blender Z :=
  {| objects := [synced_object];
     meshes := {[ "b_mesh" := synced_mesh ]};
     texts := {[ "b.vpg" := "n1 0.0 0.0 0.0" ]};
     scene := Some {| prev_texts := Some {[ "b.vpg" := Some "n1 0.0 0.0 0.0" ]};
                      short_to_full_filename :=
                        Some {[ "b.vpg" := "/models/b.vpg" ]} |};
     text_area := None;
     history_stack := [];
     history_stack_idx := -1 |}.

(** A file system with one file that is not UTF-8 and nothing else. *)
Definition latin1_file_system : file_system :=
  λ filepath,
    if String.eqb filepath "/models/latin1.vpg" then Raise UnicodeDecodeError
    else Raise OSError.

End Samples.

(** * More of the code

    The functions around the ones above: the file variant of the parser
    and the older importer of [import.py], the file and number helpers of
    [utils.py], the remaining functions of [text_editor.py] and the
    watcher's tick of [mesh_watcher.py]. *)

(** ** Parsing a file: [import_vpg.parse_vpg] and [import.parse_vpg] *)

(** The lines a text file yields when it is iterated ([for raw in fh]):
    each line with its line feed, the last one possibly without. The
    content is what the text layer delivers, line ends translated to line
    feeds. *)
Fixpoint file_lines (content : string) : list string :=
  match content with
  | EmptyString => []
  | String c rest =>
      if PyStr.is_lf c then String c EmptyString :: file_lines rest
      else
        match file_lines rest with
        | l :: ls => String c l :: ls
        | [] => [String c EmptyString]
        end
  end.

Section FileParsers.
Context {float : Type} `{!FloatCodec float}.

(** [import_vpg.parse_vpg]: the loop body is the one of
    [parse_vpg_text]; [open] is not guarded, so whatever it raises
    reaches the caller. *)
Definition parse_vpg (fs : file_system) (filepath : string)
  : result (parsed float) :=
  content ← fs filepath;
  parse_lines parsed_empty (file_lines content).

(** The loop body of [parse_vpg] in [import.py]: no ids, no duplicate
    test; the vertex is appended inside the [try]. *)
Definition legacy_parse_line
    (st : list (position float) * list triangle) (raw : string)
  : result (list (position float) * list triangle) :=
  let '(vertices, indices) := st in
  let line := PyStr.strip raw in
  if String.eqb line "" || PyStr.startswith "#" line then Ok st else
  let parts := PyStr.split line in
  match parts with
  | [] => Ok st
  | part0 :: _ =>
    let key := PyStr.lower part0 in
    if PyStr.startswith "n" key then
      if (length parts <? 4)%nat then Ok st else
      match (p1 ← getitem parts 1; x ← py_float p1;
             p2 ← getitem parts 2; y ← py_float p2;
             p3 ← getitem parts 3; z ← py_float p3;
             Ok (vertices ++ [(x, y, z)], indices)) with
      | Raise ValueError => Ok st
      | r => r
      end
    else if PyStr.startswith "e" key then
      let idx_tokens := drop 1 parts in
      if (length idx_tokens <? 3)%nat then Ok st else
      match (t1 ← getitem idx_tokens 0; a ← py_int (normalize_token t1);
             t2 ← getitem idx_tokens 1; b ← py_int (normalize_token t2);
             t3 ← getitem idx_tokens 2; c ← py_int (normalize_token t3);
             let tri : triangle := (a - 1, b - 1, c - 1) in
             let n := length vertices in
             if index_in_range n (a - 1) && index_in_range n (b - 1)
                && index_in_range n (c - 1)
             then Ok (vertices, indices ++ [tri])
             else Ok st) with
      | Raise ValueError => Ok st
      | r => r
      end
    else Ok st
  end.

(** [import.parse_vpg] *)
Definition legacy_parse_vpg (fs : file_system) (filepath : string)
  : result (list (position float) * list triangle) :=
  content ← fs filepath;
  for_each legacy_parse_line ([], []) (file_lines content).

(** The vertex declarations that count: for every id the first valid
    vertex line that declares it, [seen] being the ids declared before. *)
Fixpoint first_declarations (seen : list string) (lines : list string)
  : list (string * position float) :=
  match lines with
  | [] => []
  | l :: rest =>
      match classify_line l with
      | VertexLine node_id xyz =>
          if bool_decide (node_id ∈ seen) then first_declarations seen rest
          else (node_id, xyz) :: first_declarations (seen ++ [node_id]) rest
      | _ => first_declarations seen rest
      end
  end.

(** The effect of a line of a given class on the older importer's
    state. *)
Definition legacy_apply_line
    (st : list (position float) * list triangle) (c : line_class float)
  : list (position float) * list triangle :=
  match c with
  | VertexLine _ xyz => (st.1 ++ [xyz], st.2)
  | FaceLine tri =>
      if triangle_in_range (length st.1) tri then (st.1, st.2 ++ [tri])
      else st
  | _ => st
  end.

End FileParsers.

(** A line boundary of [str.splitlines] is a line feed. *)
Definition only_line_feeds (s : string) : bool :=
  PyStr.all_chars (λ c, negb (PyStr.is_linebreak c) || PyStr.is_lf c) s.

(** ** More vocabulary for the serializer *)

Section MoreSerializerVocabulary.
Context {float : Type}.

(** The mesh an edit-mode pass of [mesh_to_vpg_text] leaves behind: the
    vertices as the renumbering loop stamped them. *)
Definition restamped (bm : BMesh float) : BMesh float :=
  {| has_node_id_layer := has_node_id_layer bm;
     has_init_node_id_layer := has_init_node_id_layer bm;
     verts := map fst (final_entries bm);
     faces := faces bm |}.

End MoreSerializerVocabulary.

(** ** More of [text_editor.py] *)

Section MoreEditor.
Context {float : Type}.

(** [write_from_ext_to_int_file]: the state afterwards and what is
    returned ([None] when the file could not be read) or raised. *)
Definition write_from_ext_to_int_file (fs : file_system) (filepath : string)
    (σ : Blender float) : Blender float * outcome (option string) :=
  match read_file fs filepath with
  | Raise e => (σ, Raises (Exn e))
  | Ok None => (σ, Returns None)
  | Ok (Some filetext) =>
      match write_int_file filepath filetext σ with
      | (σ, Some e) => (σ, Raises e)
      | (σ, None) => (σ, Returns (Some filetext))
      end
  end.

(** Every entry of the path mapping is filed under the short name of its
    path, as [write_int_file] files it. *)
Definition mapping_wf (σ : Blender float) : Prop :=
  ∀ short_name full_path,
    tracked_path σ short_name = Some full_path →
    to_short_filename full_path = short_name.

(** What the editor keeps of the internal text [short_name]: the content,
    the path and the previous text. *)
Definition document (σ : Blender float) (short_name : string)
  : option string * option string * option (option string) :=
  (texts σ !! short_name, tracked_path σ short_name, prev_text σ short_name).

End MoreEditor.

(** ** [utils.clamp] and two list primitives *)

(** [clamp(value, min_value, max_value)] on [int]s. *)
Definition clamp (value min_value max_value : Z) : Z :=
  Z.max min_value (Z.min value max_value).

(** [xs.insert(i, x)]: a negative position counts from the end, and a
    position outside the list is the nearest end. *)
Definition py_insert {A} (xs : list A) (i : Z) (x : A) : list A :=
  let n := Z.of_nat (length xs) in
  let i := if i <? 0 then Z.max 0 (i + n) else Z.min i n in
  take (Z.to_nat i) xs ++ x :: drop (Z.to_nat i) xs.

(** [xs[:stop]] *)
Definition py_slice_to {A} (xs : list A) (stop : Z) : list A :=
  let n := Z.of_nat (length xs) in
  let stop := if stop <? 0 then Z.max 0 (stop + n) else Z.min stop n in
  take (Z.to_nat stop) xs.

(** ** The change detection and the undo history of [text_editor.py] *)

Definition HISTORY_STACK_SIZE : nat := 250.

Section History.
Context {float : Type}.

(** [import_vpg.on_file_change(context, file_path)], which rebuilds from
    the text the meshes that name the path. It is a parameter of the
    functions below: what they do around the call does not depend on how
    the meshes are rebuilt. *)
Variable on_file_change : string → Blender float → outcome (Blender float).

Definition with_history (stack : list (gmap string string)) (idx : Z)
    (σ : Blender float) : Blender float :=
  {| objects := objects σ; meshes := meshes σ; texts := texts σ;
     scene := scene σ; text_area := text_area σ;
     history_stack := stack; history_stack_idx := idx |}.

(** The block of [check_open_int_file_for_changes] under
    [if not undoing_redoing and file_changed]. *)
Definition history_push (short_filename curr_file_text : string)
    (σ : Blender float) : Blender float :=
  let history_stack_idx := history_stack_idx σ + 1 in
  let history_stack :=
    py_insert (history_stack σ) history_stack_idx
      {[ short_filename := curr_file_text ]} in
  let history_stack := py_slice_to history_stack (history_stack_idx + 1) in
  let history_stack :=
    if (HISTORY_STACK_SIZE <? length history_stack)%nat
    then drop 1 history_stack else history_stack in
  with_history history_stack history_stack_idx σ.

(** [text_area.spaces[0].text] of the first text editor area, as
    [(text.name, text.as_string())]; [None] without an area and when the
    area shows no text (a text that was removed is shown no more). *)
Definition shown_text (σ : Blender float) : option (string * string) :=
  area ← text_area σ;
  name ← area;
  content ← texts σ !! name;
  Some (name, content).

(** [check_open_int_file_for_changes(context, undoing_redoing)]: the
    returned flag and the state afterwards. *)
Definition check_open_int_file_for_changes (undoing_redoing : bool)
    (σ : Blender float) : outcome (bool * Blender float) :=
  match scene σ with
  | None => Raises (Exn TypeError)
  | Some sc =>
    match prev_texts sc with
    | None => Returns (false, σ)
    | Some prev =>
      match shown_text σ with
      | None => Returns (false, σ)
      | Some (short_filename, curr_file_text) =>
        match prev !! short_filename with
        | None => Returns (false, σ)
        | Some last_file_text =>
          match short_to_full_filename sc with
          | None => Raises KeyError
          | Some mapping =>
            match mapping !! short_filename with
            | None => Returns (false, σ)
            | Some filename =>
              if bool_decide (Some curr_file_text = last_file_text)
              then Returns (false, σ)
              else
                let σ := set_prev_text short_filename curr_file_text σ in
                match on_file_change filename σ with
                | Raises e => Raises e
                | Returns σ =>
                    Returns
                      (true,
                       if undoing_redoing then σ
                       else history_push short_filename curr_file_text σ)
                end
            end
          end
        end
      end
    end
  end.

(** The loop of [on_undo_redo] over the items of the history entry: the
    texts afterwards, and [false] when the loop ended in [return]. *)
Fixpoint restore_texts (items : list (string * string))
    (ts : gmap string string) : gmap string string * bool :=
  match items with
  | [] => (ts, true)
  | (short_filename, text) :: rest =>
      match ts !! short_filename with
      | None => (ts, false)
      | Some _ => restore_texts rest (<[short_filename := text]> ts)
      end
  end.

(** [on_undo_redo(context, undoing)]. An entry of the history is a
    dictionary with one key, as [check_open_int_file_for_changes] makes
    it; the items of any other dictionary are taken in the order of
    [map_to_list]. *)
Definition on_undo_redo (undoing : bool) (σ : Blender float)
  : outcome (Blender float) :=
  match scene σ with
  | None => Raises (Exn TypeError)
  | Some sc =>
    match short_to_full_filename sc, prev_texts sc with
    | Some _, Some _ =>
      if history_stack_idx σ =? -1 then Returns σ else
      let idx :=
        if undoing then history_stack_idx σ - 1
        else history_stack_idx σ + 1 in
      let idx := clamp idx 0 (Z.of_nat (length (history_stack σ)) - 1) in
      let σ := with_history (history_stack σ) idx σ in
      match (i ← resolve_index (history_stack σ) idx;
             getitem (history_stack σ) i) with
      | Raise e => Raises (Exn e)
      | Ok entry =>
          let '(ts, completed) :=
            restore_texts (map_to_list entry) (texts σ) in
          let σ := with_texts ts σ in
          if completed then
            match check_open_int_file_for_changes true σ with
            | Raises e => Raises e
            | Returns (_, σ) => Returns σ
            end
          else Returns σ
      end
    | _, _ => Returns σ
    end
  end.

End History.

(** ** The watcher's tick: [mesh_watcher.py] *)

(** The module globals [_modified_objects], [_do_export] and
    [_force_do_export]. *)
Record Watcher : Type := {
  _modified_objects : gset string;
  _do_export : bool;
  _force_do_export : bool
}.

Section Tick.
Context {float : Type} `{!FloatCodec float}.

(** [bpy.data.objects.get(obj_name)] *)
Definition objects_get (σ : Blender float) (name : string)
  : option Object :=
  List.find (λ obj, String.eqb (obj_name obj) name) (objects σ).

(** The body of the loop of [export_modified_objects]. *)
Definition export_object (σ : Blender float) (obj_name : string)
  : Blender float :=
  match objects_get σ obj_name with
  | None => σ
  | Some obj =>
      if negb (obj_is_mesh obj) then σ else (_sync_object_text obj σ).2
  end.

(** [export_modified_objects(context)]. [to_process] is the set
    [_modified_objects] in the order in which the loop takes its
    elements. *)
Definition export_modified_objects (to_process : list string)
    (w : Watcher) (σ : Blender float) : Watcher * Blender float :=
  ({| _modified_objects := ∅; _do_export := _do_export w;
      _force_do_export := _force_do_export w |},
   foldl export_object σ to_process).

(** [poll_active_operators()], with [context.active_object] and the
    order of the pending names as arguments. *)
Definition poll_active_operators (active_object : option Object)
    (to_process : list string) (w : Watcher) (σ : Blender float)
  : Watcher * Blender float :=
  let '(w, σ) :=
    if _force_do_export w || _do_export w then
      let '(w, σ) := export_modified_objects to_process w σ in
      ({| _modified_objects := _modified_objects w; _do_export := false;
          _force_do_export := false |}, σ)
    else (w, σ) in
  let σ :=
    match active_object with
    | Some active_obj =>
        if obj_is_mesh active_obj && obj_mode_edit active_obj then
          match obj_mesh σ active_obj with
          | Some mesh =>
              match truthy (vpg_file_path mesh) with
              | Some _ => (_sync_object_text active_obj σ).2
              | None => σ
              end
          | None => σ
          end
        else σ
    | None => σ
    end in
  (w, _cleanup_orphan_internal_texts σ).

End Tick.

(** ** Vocabulary for the history and the tick *)

Section HistoryVocabulary.
Context {float : Type}.

(** Rebuilding the meshes leaves the internal texts, the scene's
    properties, the text editor area and the undo history alone. *)
Definition rebuilds_meshes_only
    (on_file_change : string → Blender float → outcome (Blender float))
  : Prop :=
  ∀ path σ σ', on_file_change path σ = Returns σ' →
    texts σ' = texts σ ∧ scene σ' = scene σ ∧ text_area σ' = text_area σ
    ∧ history_stack σ' = history_stack σ
    ∧ history_stack_idx σ' = history_stack_idx σ.

(** The scene has both dictionaries. *)
Definition scene_ready (σ : Blender float) : Prop :=
  ∃ sc, scene σ = Some sc ∧ is_Some (prev_texts sc)
        ∧ is_Some (short_to_full_filename sc).

End HistoryVocabulary.

(** ** More sample inputs *)

Module MoreSamples.

#[local] Existing Instance IntegralFloat.codec.

(** A file system with one VPG file, which ends in a line feed. *)
Definition triangle_file_system : file_system :=
  λ filepath,
    if String.eqb filepath "/models/tri.vpg"
    then Ok (unlines ["n1 0 0 0"; "n2 1 0 0"; "n3 0 1 0"; "e1 1 2 3"; ""])
    else Raise OSError.

(** A quadrilateral and a triangle on five vertices, two of them without
    a stamp of the dense sequence. *)
Definition quad_mesh : BMesh Z :=
  Samples.mesh_of
    [Samples.stamped "n1" (0, 0, 0); Samples.stamped "N7" (1, 0, 0);
     Samples.stamped "" (1, 1, 0); Samples.stamped "n2" (0, 1, 0);
     Samples.stamped "n2" (0, 0, 1)]
    [[0; 1; 2; 3]; [0; 1; 4]]%nat.

(** A mesh object whose vertex was moved after its text was cached, with
    a text editor area that shows nothing. *)
Definition stale_mesh : Mesh Z :=
  {| vpg_file_path := Some "/models/b.vpg";
     mesh_data := Some "n1 0.0 0.0 0.0";
     geometry := Samples.mesh_of [Samples.stamped "n1" (1, 0, 0)] [] |}.

Definition stale_state : Blender Z :=
  {| objects := [Samples.synced_object];
     meshes := {[ "b_mesh" := stale_mesh ]};
     texts := {[ "b.vpg" := "n1 0.0 0.0 0.0" ]};
     scene := Some {| prev_texts := Some {[ "b.vpg" := Some "n1 0.0 0.0 0.0" ]};
                      short_to_full_filename :=
                        Some {[ "b.vpg" := "/models/b.vpg" ]} |};
     text_area := Some None;
     history_stack := [];
     history_stack_idx := -1 |}.

(** The internal text [a.vpg] shown in the text editor area, with one
    entry in the history and an edit since. *)
Definition edited_state : Blender Z :=
  {| objects := [];
     meshes := ∅;
     texts := {[ "a.vpg" := "n1 1 1 1" ]};
     scene := Some {| prev_texts := Some {[ "a.vpg" := Some "n1 0 0 0" ]};
                      short_to_full_filename :=
                        Some {[ "a.vpg" := "/models/a.vpg" ]} |};
     text_area := Some (Some "a.vpg");
     history_stack := [ {[ "a.vpg" := "n1 0 0 0" ]} ];
     history_stack_idx := 0 |}.

(** The same with a full history, the cursor on its newest entry. *)
Definition full_history_state : Blender Z :=
  with_history (replicate HISTORY_STACK_SIZE {[ "a.vpg" := "n1 0 0 0" ]})
    (Z.of_nat HISTORY_STACK_SIZE - 1) edited_state.

(** A rebuild of the meshes that changes nothing the editor looks at. *)
Definition quiet_rebuild : string → Blender Z → outcome (Blender Z) :=
  λ _ σ, Returns σ.

(** A path whose short name has 64 characters, one more than Blender
    takes as the name of a property, and a path without a short name. *)
Definition long_path : string :=
  "/models/" +:+ "aaaaaaaaaaaaaaaaaaaaaaaaaaaaaaaaaaaaaaaaaaaaaaaaaaaaaaaaaaaa.vpg".

Definition directory_path : string := "/models/".

(** The stale mesh under the long path, in a state whose text editor
    area shows the edited text [a.vpg]. *)
Definition long_path_mesh : Mesh Z :=
  {| vpg_file_path := Some long_path;
     mesh_data := Some "n1 0.0 0.0 0.0";
     geometry := Samples.mesh_of [Samples.stamped "n1" (1, 0, 0)] [] |}.

Definition long_path_state : Blender Z :=
  {| objects := [Samples.synced_object];
     meshes := {[ "b_mesh" := long_path_mesh ]};
     texts := {[ "a.vpg" := "n1 1 1 1" ]};
     scene := Some {| prev_texts := Some {[ "a.vpg" := Some "n1 0 0 0" ]};
                      short_to_full_filename :=
                        Some {[ "a.vpg" := "/models/a.vpg" ]} |};
     text_area := Some (Some "a.vpg");
     history_stack := [];
     history_stack_idx := -1 |}.

(** A watcher with one pending object. *)
Definition pending_watcher : Watcher :=
  {| _modified_objects := {[ "b" ]}; _do_export := true;
     _force_do_export := true |}.

End MoreSamples.

(** * Facts and theorems

    First the facts about the string primitives, then, component by
    component, the lemmas the statements need and the statements
    themselves, and last the statements run on the sample inputs. *)

Module PyStrFacts.
Import PyStr.

Ltac by_cases_on_char c :=
  destruct c as [[] [] [] [] [] [] [] []]; vm_compute; try reflexivity;
  try discriminate; auto.

Lemma linebreak_isspace c : is_linebreak c = true → isspace c = true.
Proof. by_cases_on_char c. Qed.

Lemma lower_char_idem c : lower_char (lower_char c) = lower_char c.
Proof. by_cases_on_char c. Qed.

Lemma lower_char_space c : isspace (lower_char c) = isspace c.
Proof. by_cases_on_char c. Qed.

Lemma decimal_not_space c : is_decimal c = true → isspace c = false.
Proof. by_cases_on_char c. Qed.

Lemma decimal_not_comma c : is_decimal c = true → Ascii.eqb c "," = false.
Proof. by_cases_on_char c. Qed.

Lemma decimal_isdigit c : is_decimal c = true → isdigit_char c = true.
Proof. by_cases_on_char c. Qed.

Lemma decimal_not_underscore c : is_decimal c = true → Ascii.eqb c "_" = false.
Proof. by_cases_on_char c. Qed.

Lemma lower_idem s : lower (lower s) = lower s.
Proof.
  induction s as [|c s IH]; cbn; [done|]. by rewrite lower_char_idem, IH.
Qed.

Lemma all_chars_impl (p q : ascii → bool) s :
  (∀ c, p c = true → q c = true) → all_chars p s = true → all_chars q s = true.
Proof.
  intros Hpq. induction s as [|c s IH]; cbn; [done|].
  rewrite !andb_true_iff. intros [??]. auto.
Qed.

Lemma append_nil s : "" +:+ s = s.
Proof. done. Qed.

Lemma append_cons c s t : String c s +:+ t = String c (s +:+ t).
Proof. done. Qed.

Lemma append_nil_r s : s +:+ "" = s.
Proof. induction s as [|c s IH]; [done|]. by rewrite append_cons, IH. Qed.

Lemma append_assoc s t u : (s +:+ t) +:+ u = s +:+ t +:+ u.
Proof. induction s as [|c s IH]; [done|]. by rewrite !append_cons, IH. Qed.

Lemma all_chars_app p s1 s2 :
  all_chars p (s1 +:+ s2) = all_chars p s1 && all_chars p s2.
Proof.
  induction s1 as [|c s1 IH]; [done|].
  rewrite append_cons. cbn. by rewrite IH, andb_assoc.
Qed.

Lemma lower_no_space s : no_space (lower s) = no_space s.
Proof.
  unfold no_space. induction s as [|c s IH]; cbn; [done|].
  by rewrite lower_char_space, IH.
Qed.

Lemma lower_eq_empty s : String.eqb (lower s) "" = String.eqb s "".
Proof. by destruct s. Qed.

Lemma lower_is_token s : is_token (lower s) = is_token s.
Proof. unfold is_token. by rewrite lower_eq_empty, lower_no_space. Qed.

Lemma startswith_char a c s :
  startswith (String a "") (String c s) = Ascii.eqb a c.
Proof.
  unfold startswith.
  change (String.prefix (String a "") (String c s))
    with (match ascii_dec a c with
          | left _ => String.prefix "" s
          | right _ => false
          end).
  destruct (ascii_dec a c) as [->|Hne].
  - rewrite Ascii.eqb_refl. by destruct s.
  - symmetry. by apply Ascii.eqb_neq.
Qed.

Lemma startswith_empty a : startswith (String a "") "" = false.
Proof. done. Qed.

(** *** [strip] *)

Lemma lstrip_by_head p s : head_is p s = false → lstrip_by p s = s.
Proof. destruct s as [|c s]; cbn; [done|]. by intros ->. Qed.

Lemma rstrip_by_none p s :
  all_chars (λ c, negb (p c)) s = true → rstrip_by p s = s.
Proof.
  induction s as [|c s IH]; cbn; [done|].
  rewrite andb_true_iff, negb_true_iff. intros [Hc Hs].
  rewrite IH by done. destruct s; [by rewrite Hc|done].
Qed.

Lemma rstrip_by_app p s1 s2 :
  rstrip_by p s2 ≠ "" → rstrip_by p (s1 +:+ s2) = s1 +:+ rstrip_by p s2.
Proof.
  intros Hne. induction s1 as [|c s1 IH]; [done|].
  rewrite !append_cons. cbn. rewrite IH.
  destruct (s1 +:+ rstrip_by p s2) eqn:Heq; [|done].
  destruct s1; [done|discriminate].
Qed.

Lemma token_head s : is_token s = true → head_is isspace s = false.
Proof.
  destruct s as [|c s]; cbn; [done|]. unfold is_token, no_space. cbn.
  rewrite andb_true_iff, negb_true_iff. by intros [? _].
Qed.

Lemma token_nonempty s : is_token s = true → s ≠ "".
Proof. by destruct s. Qed.

Lemma token_no_space s : is_token s = true → no_space s = true.
Proof. unfold is_token. by intros [_ ?]%andb_true_iff. Qed.

Lemma token_intro s : s ≠ "" → no_space s = true → is_token s = true.
Proof. unfold is_token. intros Hne ->. by destruct s. Qed.

Lemma strip_by_none p s :
  all_chars (λ c, negb (p c)) s = true → strip_by p s = s.
Proof.
  intros Hs. unfold strip_by. rewrite lstrip_by_head, rstrip_by_none; try done.
  destruct s as [|c s]; cbn in *; [done|].
  apply andb_true_iff in Hs as [Hc _]. by apply negb_true_iff.
Qed.

Lemma strip_token s : is_token s = true → strip s = s.
Proof. intros Hs. by apply strip_by_none, token_no_space. Qed.

(** A string that starts with a token and ends with one is its own
    [strip]. *)
Lemma strip_between tok1 mid tok2 :
  is_token tok1 = true → is_token tok2 = true →
  strip (tok1 +:+ mid +:+ tok2) = tok1 +:+ mid +:+ tok2.
Proof.
  intros H1 H2. unfold strip, strip_by.
  assert (rstrip_by isspace tok2 = tok2) as Hr
    by (by apply rstrip_by_none, token_no_space).
  rewrite lstrip_by_head.
  - rewrite <- append_assoc, rstrip_by_app; rewrite Hr;
      auto using token_nonempty.
  - destruct tok1 as [|c tok1]; [done|]. by apply token_head in H1.
Qed.

(** *** [split] *)

Lemma split_token_app tok rest :
  is_token tok = true → head_is (λ d, negb (isspace d)) rest = false →
  split (tok +:+ rest) = tok :: split rest.
Proof.
  intros Htok Hrest. induction tok as [|c tok IH]; [done|].
  unfold is_token, no_space in Htok. cbn in Htok.
  apply andb_true_iff in Htok as [Hc Htok]. apply negb_true_iff in Hc.
  rewrite append_cons. cbn. rewrite Hc.
  destruct tok as [|d tok].
  - rewrite append_nil. by rewrite Hrest.
  - rewrite IH by (by apply token_intro).
    rewrite append_cons. cbn in Htok |- *.
    apply andb_true_iff in Htok as [-> _]. done.
Qed.

Lemma split_token tok : is_token tok = true → split tok = [tok].
Proof.
  intros Htok. pose proof (split_token_app tok "" Htok eq_refl) as Hsplit.
  by rewrite append_nil_r in Hsplit.
Qed.

Lemma split_token_space tok rest :
  is_token tok = true →
  split (tok +:+ " " +:+ rest) = tok :: split rest.
Proof. intros Htok. by rewrite split_token_app. Qed.

(** *** [splitlines] and [join] *)

Lemma splitlines_app_newline l rest :
  one_line l = true →
  splitlines (l +:+ String "010" rest) = l :: splitlines rest.
Proof.
  intros Hl. induction l as [|c l IH].
  - rewrite append_nil. cbn. by destruct rest.
  - unfold one_line in Hl. cbn in Hl.
    apply andb_true_iff in Hl as [Hc Hl]. apply negb_true_iff in Hc.
    rewrite append_cons. cbn. rewrite Hc. by rewrite IH.
Qed.

Lemma splitlines_one_line l :
  l ≠ "" → one_line l = true → splitlines l = [l].
Proof.
  intros Hne Hl. induction l as [|c l IH]; [done|].
  unfold one_line in Hl. cbn in Hl |- *.
  apply andb_true_iff in Hl as [Hc Hl]. apply negb_true_iff in Hc.
  rewrite Hc. destruct l as [|d l]; [done|]. by rewrite IH.
Qed.

Lemma join_cons sep x y xs :
  join sep (x :: y :: xs) = x +:+ sep +:+ join sep (y :: xs).
Proof. done. Qed.

Lemma splitlines_join lines :
  Forall (λ l, l ≠ "" ∧ one_line l = true) lines →
  splitlines (join (String "010" "") lines) = lines.
Proof.
  induction 1 as [|l lines [Hne Hl] Hrest IH]; [done|].
  destruct lines as [|l' lines].
  - cbn. by apply splitlines_one_line.
  - rewrite join_cons, append_cons, append_nil.
    rewrite splitlines_app_newline by done. by rewrite IH.
Qed.

Lemma one_line_app s t : one_line (s +:+ t) = one_line s && one_line t.
Proof. apply all_chars_app. Qed.

Lemma no_space_one_line s : no_space s = true → one_line s = true.
Proof.
  apply all_chars_impl. intros c. rewrite !negb_true_iff.
  destruct (is_linebreak c) eqn:Hlb; [|done].
  by rewrite (linebreak_isspace _ Hlb).
Qed.

(** *** Decimal numerals *)

Lemma string_of_uint_decimal d :
  all_chars is_decimal (NilEmpty.string_of_uint d) = true.
Proof. induction d; cbn; done. Qed.

Lemma of_nat_decimal n : all_chars is_decimal (of_nat n) = true.
Proof. apply string_of_uint_decimal. Qed.

Lemma of_nat_value n :
  NilEmpty.uint_of_string (of_nat n) = Some (N.to_uint (N.of_nat n)).
Proof. apply NilEmpty.usu. Qed.

Lemma of_nat_nonempty n : of_nat n ≠ "".
Proof.
  intros Heq. pose proof (of_nat_value n) as Hv. rewrite Heq in Hv.
  cbn in Hv. injection Hv as Hv.
  pose proof (DecimalN.Unsigned.of_to (N.of_nat n)) as Hn.
  rewrite <- Hv in Hn. cbn in Hn. rewrite <- Hn in Hv. done.
Qed.

Lemma of_nat_token n : is_token (of_nat n) = true.
Proof.
  apply token_intro; [apply of_nat_nonempty|].
  eapply all_chars_impl; [|apply of_nat_decimal].
  intros c Hc. by rewrite (decimal_not_space _ Hc).
Qed.

Lemma of_nat_inj n m : of_nat n = of_nat m → n = m.
Proof.
  intros Heq. pose proof (of_nat_value n) as Hn. rewrite Heq, of_nat_value in Hn.
  injection Hn as Hn. apply DecimalN.Unsigned.to_uint_inj in Hn. lia.
Qed.

Lemma int_digits_decimal b s :
  all_chars is_decimal s = true → (b = true ∨ s ≠ "") →
  int_digits b s = Some s.
Proof.
  revert b. induction s as [|c s IH]; intros b Hs Hb; cbn.
  - destruct Hb as [->|?]; done.
  - cbn in Hs. apply andb_true_iff in Hs as [Hc Hs]. rewrite Hc.
    rewrite IH; auto.
Qed.

Lemma int_of_of_nat n : int_of (of_nat n) = Some (Z.of_nat n).
Proof.
  unfold int_of. rewrite strip_token by apply of_nat_token.
  assert (unsigned_value (of_nat n) = Some (Z.of_nat n)) as Hv.
  { unfold unsigned_value.
    rewrite int_digits_decimal;
      [|apply of_nat_decimal|right; apply of_nat_nonempty].
    cbn. rewrite of_nat_value. cbn. f_equal.
    change (Z.of_uint ?d) with (Z.of_N (N.of_uint d)).
    rewrite DecimalN.Unsigned.of_to. lia. }
  pose proof (of_nat_decimal n) as Hd.
  destruct (of_nat n) as [|c s] eqn:Hn; [done|].
  cbn in Hd. apply andb_true_iff in Hd as [Hc _].
  destruct c as [[] [] [] [] [] [] [] []]; try done.
Qed.

Lemma strip_commas_decimal s :
  all_chars is_decimal s = true → strip_commas s = s.
Proof.
  intros Hs. apply strip_by_none. eapply all_chars_impl; [|done].
  intros c Hc. cbn. by rewrite (decimal_not_comma _ Hc).
Qed.

End PyStrFacts.

Section ParserFacts.
Context {float : Type} `{!FloatCodec float}.
Implicit Types (st : parsed float) (lines : list string).

Lemma parse_line_classify st raw :
  parse_line st raw = Ok (apply_line st (classify_line raw)).
Proof.
  unfold parse_line, classify_line.
  destruct (_ || _); [done|].
  destruct (PyStr.split _) as [|part0 rest]; [done|].
  destruct (PyStr.startswith "n" _).
  - destruct rest as [|p1 [|p2 [|p3 rest]]]; try done.
    cbn [length Nat.ltb Nat.leb getitem lookup list_lookup].
    unfold py_float. cbn.
    destruct (float_of p1); cbn; [|done].
    destruct (float_of p2); cbn; [|done].
    destruct (float_of p3); cbn; [|done].
    by case_bool_decide.
  - destruct (PyStr.startswith "e" _); [|done].
    destruct rest as [|t1 [|t2 [|t3 rest]]]; try done.
    cbn. unfold py_int.
    destruct (PyStr.int_of (normalize_token t1)); cbn; [|done].
    destruct (PyStr.int_of (normalize_token t2)); cbn; [|done].
    destruct (PyStr.int_of (normalize_token t3)); cbn; [|done].
    by destruct (_ && _).
Qed.

Lemma parse_lines_apply st lines :
  parse_lines st lines = Ok (apply_lines st lines).
Proof.
  revert st. induction lines as [|l lines IH]; intros st; [done|].
  unfold parse_lines in *. cbn. rewrite parse_line_classify. cbn.
  by rewrite IH.
Qed.

Lemma apply_lines_app st l1 l2 :
  apply_lines st (l1 ++ l2) = apply_lines (apply_lines st l1) l2.
Proof. apply foldl_app. Qed.

Lemma apply_lines_cons st l lines :
  apply_lines st (l :: lines)
  = apply_lines (apply_line st (classify_line l)) lines.
Proof. done. Qed.

Lemma apply_line_vertices_mono st c :
  (length (vertices st) ≤ length (vertices (apply_line st c)))%nat.
Proof.
  destruct c; cbn; try lia.
  - case_bool_decide; cbn; rewrite ?length_app; cbn; lia.
  - destruct (triangle_in_range _ _); cbn; lia.
Qed.

Lemma apply_lines_vertices_mono st lines :
  (length (vertices st) ≤ length (vertices (apply_lines st lines)))%nat.
Proof.
  revert st. induction lines as [|l lines IH]; intros st; [done|].
  rewrite apply_lines_cons. etrans; [|apply IH].
  apply apply_line_vertices_mono.
Qed.

Lemma index_in_range_mono n m i :
  (n ≤ m)%nat → index_in_range n i = true → index_in_range m i = true.
Proof. unfold index_in_range. intros. apply andb_true_iff. lia. Qed.

Lemma triangle_in_range_mono n m tri :
  (n ≤ m)%nat → triangle_in_range n tri = true → triangle_in_range m tri = true.
Proof.
  destruct tri as [[a b] c]. unfold triangle_in_range.
  rewrite !andb_true_iff. intros ? [[??]?]. repeat split; eauto using index_in_range_mono.
Qed.

Lemma parsed_empty_wf : parsed_wf (@parsed_empty float).
Proof.
  split; cbn; [done| |constructor|constructor].
  intros node_id i. by rewrite lookup_empty, lookup_nil.
Qed.

Lemma apply_line_wf st c : parsed_wf st → parsed_wf (apply_line st c).
Proof.
  intros [Hlen Hdict Hnd Hfaces]. destruct c as [| |node_id xyz| |tri]; cbn; try done.
  - case_bool_decide as Hin; [done|].
    assert (node_id ∉ node_index_to_id st) as Hnotin.
    { intros [i Hi]%list_elem_of_lookup. apply Hin. exists i. by apply Hdict. }
    split; cbn.
    + rewrite !length_app. cbn. lia.
    + intros id i. destruct (decide (node_id = id)) as [->|Hne].
      * rewrite lookup_insert_eq. split.
        -- intros [= <-]. rewrite <- Hlen. by rewrite list_lookup_middle.
        -- intros Hi. f_equal.
           destruct (decide (i < length (node_index_to_id st))%nat) as [Hlt|Hge].
           ++ rewrite lookup_app_l in Hi by done.
              exfalso. apply Hnotin. by eapply list_elem_of_lookup_2.
           ++ apply lookup_lt_Some in Hi. rewrite length_app in Hi. cbn in Hi. lia.
      * rewrite lookup_insert_ne by done. rewrite Hdict. split.
        -- intros Hi. by apply lookup_app_l_Some.
        -- intros Hi. apply lookup_app_Some in Hi as [Hi|[Hge Hi]]; [done|].
           apply list_lookup_singleton_Some in Hi as [_ ?]. congruence.
    + apply NoDup_app. split; [done|]. split; [|apply NoDup_singleton].
      intros x Hx ->%list_elem_of_singleton. done.
    + eapply Forall_impl; [done|]. intros tri Htri. cbn in Htri.
      eapply triangle_in_range_mono; [|done]. rewrite length_app. lia.
  - destruct (triangle_in_range _ _) eqn:Htri; [|done].
    split; cbn; try done. apply Forall_app. split; [done|]. by constructor.
Qed.

Lemma apply_lines_wf st lines : parsed_wf st → parsed_wf (apply_lines st lines).
Proof.
  revert st. induction lines as [|l lines IH]; intros st Hwf; [done|].
  rewrite apply_lines_cons. by apply IH, apply_line_wf.
Qed.

Lemma parse_vpg_text_apply text :
  parse_vpg_text text = Ok (apply_lines parsed_empty (PyStr.splitlines text)).
Proof. apply parse_lines_apply. Qed.

End ParserFacts.

Section ParserClaims.
Context {float : Type} `{!FloatCodec float}.
Implicit Types (st : parsed float) (lines : list string).

Lemma declared_ids_cons l lines :
  declared_ids (l :: lines)
  = match classify_line l with
    | VertexLine node_id _ => node_id :: declared_ids lines
    | _ => declared_ids lines
    end.
Proof.
  unfold declared_ids. cbn. unfold declared_id.
  by destruct (classify_line l).
Qed.

Lemma declared_ids_length lines :
  length (declared_ids lines) = count_lines is_valid_vertex_line lines.
Proof.
  unfold count_lines. induction lines as [|l lines IH]; [done|].
  rewrite declared_ids_cons. cbn.
  destruct (is_valid_vertex_line l) eqn:Hv; unfold is_valid_vertex_line in Hv;
    destruct (classify_line l); try done; cbn; lia.
Qed.

Lemma apply_lines_ids st lines :
  parsed_wf st →
  NoDup (node_index_to_id st ++ declared_ids lines) →
  node_index_to_id (apply_lines st lines)
  = node_index_to_id st ++ declared_ids lines.
Proof.
  revert st. induction lines as [|l lines IH]; intros st Hwf Hnd.
  { cbn. by rewrite app_nil_r. }
  rewrite apply_lines_cons, declared_ids_cons in *.
  pose proof (apply_line_wf st (classify_line l) Hwf) as Hwf'.
  destruct (classify_line l) as [| |node_id xyz| |tri] eqn:Hc;
    try (cbn; by apply IH).
  - cbn in Hwf' |- *. case_bool_decide as Hin.
    + destruct Hin as [i Hi]. apply (wf_dict _ Hwf) in Hi.
      apply NoDup_app in Hnd as (_ & Hdisj & _).
      exfalso. apply (Hdisj node_id); [by eapply list_elem_of_lookup_2|left].
    + rewrite IH; cbn; [by rewrite <- app_assoc|done|by rewrite <- app_assoc].
  - cbn in Hwf' |- *. destruct (triangle_in_range _ _); [|by apply IH].
    by rewrite IH.
Qed.

Lemma classify_face_line l t1 t2 t3 :
  face_index_tokens l = Some (t1, t2, t3) →
  classify_line l
  = match resolved_index t1, resolved_index t2, resolved_index t3 with
    | Some a, Some b, Some c => FaceLine (a, b, c)
    | _, _, _ => MalformedFace
    end.
Proof.
  unfold face_index_tokens, classify_line, resolved_index.
  destruct (_ || _); [done|].
  destruct (PyStr.split _) as [|part0 [|u1 [|u2 [|u3 rest]]]]; try done.
  destruct (PyStr.startswith "n" _); [done|].
  destruct (PyStr.startswith "e" _); [|done].
  intros [= -> -> ->].
  destruct (PyStr.int_of (normalize_token t1)); cbn; [|done].
  destruct (PyStr.int_of (normalize_token t2)); cbn; [|done].
  by destruct (PyStr.int_of (normalize_token t3)).
Qed.

Lemma index_in_range_false n i :
  i < 0 ∨ Z.of_nat n ≤ i → index_in_range n i = false.
Proof. unfold index_in_range. intros. apply andb_false_iff. lia. Qed.

Lemma bad_face_line_dropped st l t1 t2 t3 t :
  face_index_tokens l = Some (t1, t2, t3) →
  t ∈ [t1; t2; t3] →
  bad_index (length (vertices st)) t →
  apply_line st (classify_line l) = st.
Proof.
  intros Hl Ht Hbad. rewrite (classify_face_line _ _ _ _ Hl).
  unfold bad_index in Hbad.
  assert (t = t1 ∨ t = t2 ∨ t = t3) as Hcases.
  { rewrite !elem_of_cons, elem_of_nil in Ht. tauto. }
  destruct (resolved_index t1) as [a|] eqn:H1; [|done].
  destruct (resolved_index t2) as [b|] eqn:H2; [|done].
  destruct (resolved_index t3) as [c|] eqn:H3; [|done].
  cbn. destruct Hcases as [->|[->| ->]];
    [rewrite H1 in Hbad|rewrite H2 in Hbad|rewrite H3 in Hbad];
    rewrite (index_in_range_false _ _ Hbad), ?andb_false_r; done.
Qed.

Lemma bad_index_mono n m t : (n ≤ m)%nat → bad_index m t → bad_index n t.
Proof. unfold bad_index. destruct (resolved_index t); [lia|done]. Qed.

Lemma apply_lines_without_malformed st lines :
  apply_lines st
    (List.filter (λ l, negb (is_malformed_vertex_line l)) lines)
  = apply_lines st lines.
Proof.
  revert st. induction lines as [|l lines IH]; intros st; [done|].
  cbn [List.filter]. unfold is_malformed_vertex_line at 1.
  rewrite (apply_lines_cons st l).
  destruct (classify_line l) eqn:Hc; cbn [negb];
    rewrite ?apply_lines_cons, ?Hc; apply IH.
Qed.

(** C2 (amended). The parser never raises, whatever the lines are, and a
    malformed vertex line (too few tokens, or a token that [float]
    rejects) changes nothing: the text parses to what it parses to with
    its malformed vertex lines taken out. When the valid vertex lines of
    the text declare pairwise distinct ids, the document has exactly one
    vertex per valid vertex line, however many malformed vertex lines
    stand between them. A valid line that repeats an id is skipped by the
    duplicate test, which is why the ids must be distinct. *)
Theorem parse_recovers_line_by_line text :
  ∃ doc, parse_vpg_text text = Ok doc
    ∧ parse_lines parsed_empty
        (List.filter (λ l, negb (is_malformed_vertex_line l))
           (PyStr.splitlines text)) = Ok doc
    ∧ (NoDup (declared_ids (PyStr.splitlines text)) →
       length (vertices doc)
       = count_lines is_valid_vertex_line (PyStr.splitlines text)).
Proof.
  eexists. split; [apply parse_vpg_text_apply|].
  split; [by rewrite parse_lines_apply, apply_lines_without_malformed|].
  intros Hnd.
  pose proof (apply_lines_wf parsed_empty (PyStr.splitlines text)
                parsed_empty_wf) as Hwf.
  rewrite <- (wf_length _ Hwf), apply_lines_ids; [|apply parsed_empty_wf|done].
  cbn. apply declared_ids_length.
Qed.

(** C3. A face line one of whose first three index tokens is not an
    [int], or resolves to a 0-based index outside [[0, vertex count)],
    leaves no trace in the document: the text parses to what it parses
    to without that line. And every face the document holds has its
    three indices inside [[0, vertex count)], so nothing clamped or half
    valid is stored. *)
Theorem face_with_bad_index_dropped text pre l post t1 t2 t3 t doc :
  PyStr.splitlines text = pre ++ l :: post →
  face_index_tokens l = Some (t1, t2, t3) →
  parse_vpg_text text = Ok doc →
  t ∈ [t1; t2; t3] →
  bad_index (length (vertices doc)) t →
  parse_lines parsed_empty (pre ++ post) = Ok doc
  ∧ Forall (λ tri, triangle_in_range (length (vertices doc)) tri = true)
           (indices doc).
Proof.
  intros Hlines Hl Hdoc Ht Hbad.
  rewrite parse_vpg_text_apply, Hlines in Hdoc. injection Hdoc as Hdoc.
  rewrite apply_lines_app, apply_lines_cons in Hdoc.
  set (st := apply_lines parsed_empty pre) in *.
  assert (apply_line st (classify_line l) = st) as Hdrop.
  { eapply bad_face_line_dropped; [done..|].
    eapply bad_index_mono; [|done]. rewrite <- Hdoc.
    etrans; [|apply apply_lines_vertices_mono].
    apply apply_line_vertices_mono. }
  rewrite Hdrop in Hdoc. split.
  - rewrite parse_lines_apply, apply_lines_app. by f_equal.
  - rewrite <- Hdoc. apply wf_faces.
    by apply apply_lines_wf, apply_lines_wf, parsed_empty_wf.
Qed.

(** C9. The bound a face line is checked against is the number of
    vertices parsed before the line, not the number the whole text
    declares: a face line whose three index tokens are [int]s is kept
    exactly when the three 0-based indices are below the number of
    vertices seen so far, and is dropped otherwise, whatever follows it.
    In particular the text [e1 1 1 1] followed by [n1 0 0 0] parses to
    one vertex and no face. *)
Theorem face_checked_against_vertices_so_far
    text pre l post t1 t2 t3 a b c st :
  PyStr.splitlines text = pre ++ l :: post →
  face_index_tokens l = Some (t1, t2, t3) →
  resolved_index t1 = Some a →
  resolved_index t2 = Some b →
  resolved_index t3 = Some c →
  parse_lines parsed_empty pre = Ok st →
  (∃ doc, parse_vpg_text text = Ok doc
     ∧ if triangle_in_range (length (vertices st)) (a, b, c)
       then parse_lines
              {| vertices := vertices st;
                 indices := indices st ++ [(a, b, c)];
                 node_index_to_id := node_index_to_id st;
                 node_id_to_index := node_id_to_index st |} post = Ok doc
       else parse_lines parsed_empty (pre ++ post) = Ok doc)
  ∧ (∀ zero, float_of "0" = Some zero →
       ∃ doc, parse_vpg_text (unlines ["e1 1 1 1"; "n1 0 0 0"]) = Ok doc
              ∧ vertices doc = [(zero, zero, zero)] ∧ indices doc = []).
Proof.
  intros Hlines Hl Ha Hb Hc Hst. split.
  - rewrite parse_lines_apply in Hst. injection Hst as <-.
    eexists. split; [apply parse_vpg_text_apply|].
    rewrite Hlines, !parse_lines_apply, !apply_lines_app, apply_lines_cons.
    rewrite (classify_face_line _ _ _ _ Hl), Ha, Hb, Hc. cbn [apply_line].
    by destruct (triangle_in_range _ _).
  - intros zero Hzero. eexists. split; [apply parse_vpg_text_apply|].
    change (PyStr.splitlines (unlines ["e1 1 1 1"; "n1 0 0 0"]))
      with ["e1 1 1 1"; "n1 0 0 0"].
    unfold apply_lines. cbn [foldl].
    change (classify_line "e1 1 1 1") with (@FaceLine float (0, 0, 0)).
    assert (classify_line "n1 0 0 0" = VertexLine "n1" (zero, zero, zero)) as ->.
    { unfold classify_line.
      change (PyStr.split (PyStr.strip "n1 0 0 0")) with ["n1"; "0"; "0"; "0"].
      cbn. by rewrite Hzero. }
    done.
Qed.

End ParserClaims.

Section SerializerFacts.
Context {float : Type}.
Implicit Types (bm : BMesh float) (v : BMVert float) (st : id_scan float).

Lemma scan_vertex_entries hl st idx v :
  vertex_entries (scan_vertex hl st idx v)
  = vertex_entries st ++ [(v, assigned_id hl idx v)].
Proof.
  unfold scan_vertex, assigned_id.
  destruct (read_node_id hl v) as [[|c s]|]; try done.
  destruct (is_numeric_id (String c s)); cbn -[String.eqb]; [|done].
  destruct (String.eqb_spec (String c s) (String "n" s)) as [Heq|Hne];
    cbn -[String.eqb]; [by rewrite Heq|done].
Qed.

Lemma scan_vertex_numeric hl st idx v :
  numeric_pattern (scan_vertex hl st idx v)
  = numeric_pattern st && negb (stamped_invalid hl v).
Proof.
  unfold scan_vertex, stamped_invalid.
  destruct (read_node_id hl v) as [[|c s]|]; cbn; rewrite ?andb_true_r; try done.
  destruct (is_numeric_id (String c s)); cbn -[String.eqb];
    rewrite ?andb_true_r, ?andb_false_r; [|done].
  by destruct (negb _).
Qed.

Lemma scan_vertices_entries hl st idx vs :
  vertex_entries (scan_vertices hl st idx vs)
  = vertex_entries st ++ imap (λ i v, (v, assigned_id hl (idx + i) v)) vs.
Proof.
  revert st idx. induction vs as [|v vs IH]; intros st idx; cbn.
  { by rewrite app_nil_r. }
  rewrite IH, scan_vertex_entries, <- app_assoc. cbn.
  rewrite Nat.add_0_r. do 2 f_equal. apply imap_ext. intros i x _. cbn.
  do 2 f_equal. lia.
Qed.

Lemma scan_vertices_numeric hl st idx vs :
  numeric_pattern (scan_vertices hl st idx vs)
  = numeric_pattern st && forallb (λ v, negb (stamped_invalid hl v)) vs.
Proof.
  revert st idx. induction vs as [|v vs IH]; intros st idx; cbn.
  { by rewrite andb_true_r. }
  by rewrite IH, scan_vertex_numeric, andb_assoc.
Qed.

(** The entries before the renumbering loop. *)
Lemma scanned_entries bm :
  vertex_entries (scan_vertices (has_node_id_layer bm) id_scan_init 0 (verts bm))
  = imap (λ i v, (v, assigned_id (has_node_id_layer bm) i v)) (verts bm).
Proof. by rewrite scan_vertices_entries. Qed.

Lemma final_entries_length bm : length (final_entries bm) = length (verts bm).
Proof.
  unfold final_entries. rewrite scanned_entries.
  destruct (_ && _); unfold renumber; by rewrite ?length_imap.
Qed.

Lemma final_entries_lookup bm idx v :
  verts bm !! idx = Some v →
  ∃ v' node_id, final_entries bm !! idx = Some (v', node_id)
    ∧ vert_co v' = vert_co v
    ∧ (node_id = expected_id idx
       ∨ (node_id = assigned_id (has_node_id_layer bm) idx v ∧ v' = v
          ∧ final_entries bm
            = imap (λ i v, (v, assigned_id (has_node_id_layer bm) i v))
                   (verts bm))).
Proof.
  intros Hv. unfold final_entries. rewrite scanned_entries.
  destruct (_ && _).
  - unfold renumber. eexists _, _. split.
    + rewrite list_lookup_imap, list_lookup_imap, Hv. cbn. done.
    + split; [done|by left].
  - eexists _, _. split; [by rewrite list_lookup_imap, Hv|].
    split; [done|]. right. done.
Qed.

Lemma final_entries_not_renumbered bm :
  (∃ v, v ∈ verts bm ∧ stamped_invalid (has_node_id_layer bm) v = true) →
  final_entries bm
  = imap (λ i v, (v, assigned_id (has_node_id_layer bm) i v)) (verts bm).
Proof.
  intros (v & Hin & Hinv). unfold final_entries.
  rewrite scan_vertices_numeric, scanned_entries. cbn.
  assert (forallb (λ v, negb (stamped_invalid (has_node_id_layer bm) v))
            (verts bm) = false) as ->; [|done].
  apply not_true_is_false. intros Hall.
  rewrite forallb_forall in Hall.
  apply list_elem_of_In, Hall in Hin. by rewrite Hinv in Hin.
Qed.

Lemma expected_id_numeric idx : is_numeric_id (expected_id idx) = true.
Proof.
  unfold is_numeric_id, expected_id. cbn.
  pose proof (PyStrFacts.of_nat_nonempty (idx + 1)) as Hne.
  pose proof (PyStrFacts.of_nat_decimal (idx + 1)) as Hd.
  unfold PyStr.isdigit.
  rewrite (PyStrFacts.all_chars_impl _ _ _ PyStrFacts.decimal_isdigit Hd).
  by destruct (PyStr.of_nat (idx + 1)).
Qed.

Lemma expected_id_token idx : is_token (expected_id idx) = true.
Proof.
  pose proof (PyStrFacts.of_nat_token (idx + 1)) as Ht.
  unfold is_token, no_space, expected_id in *. cbn.
  by apply andb_true_iff in Ht as [_ ->].
Qed.

Lemma expected_id_inj i j : expected_id i = expected_id j → i = j.
Proof.
  unfold expected_id. intros [= Heq%PyStrFacts.of_nat_inj]. lia.
Qed.

Lemma assigned_id_dense bm idx v :
  dense_ids bm → verts bm !! idx = Some v →
  assigned_id (has_node_id_layer bm) idx v = expected_id idx.
Proof.
  intros [Hl Hd] Hv. unfold assigned_id, read_node_id.
  rewrite Hl, (Hd _ _ Hv).
  rewrite PyStrFacts.strip_token by apply expected_id_token.
  pose proof (expected_id_numeric idx) as Hnum.
  unfold expected_id in *. cbn -[is_numeric_id]. by rewrite Hnum.
Qed.

Lemma read_node_id_dense bm idx v :
  dense_ids bm → verts bm !! idx = Some v →
  read_node_id (has_node_id_layer bm) v = Some (expected_id idx).
Proof.
  intros [Hl Hd] Hv. unfold read_node_id. rewrite Hl, (Hd _ _ Hv).
  rewrite PyStrFacts.strip_token by apply expected_id_token. done.
Qed.

Lemma scan_vertex_expected hl st idx v :
  read_node_id hl v = Some (expected_id idx) →
  needs_renumber st = false →
  expected_id idx ∉ seen_numeric st →
  needs_renumber (scan_vertex hl st idx v) = false
  ∧ seen_numeric (scan_vertex hl st idx v)
    = {[ expected_id idx ]} ∪ seen_numeric st.
Proof.
  intros Hread Hn Hseen. unfold scan_vertex. rewrite Hread.
  pose proof (expected_id_numeric idx) as Hnum.
  unfold expected_id in *. rewrite Hnum.
  cbn -[String.eqb is_numeric_id]. rewrite String.eqb_refl.
  cbn -[String.eqb is_numeric_id]. rewrite String.eqb_refl.
  cbn -[String.eqb is_numeric_id]. by rewrite bool_decide_false.
Qed.

Lemma scan_vertices_dense hl vs :
  ∀ st idx,
    needs_renumber st = false →
    (∀ node_id, node_id ∈ seen_numeric st →
                ∃ j, (j < idx)%nat ∧ node_id = expected_id j) →
    (∀ i v, vs !! i = Some v →
            read_node_id hl v = Some (expected_id (idx + i))) →
    needs_renumber (scan_vertices hl st idx vs) = false.
Proof.
  induction vs as [|v vs IH]; intros st idx Hn Hseen Hread; [done|].
  cbn. destruct (scan_vertex_expected hl st idx v) as [Hn' Hseen'].
  - pose proof (Hread 0%nat v eq_refl) as H0. by rewrite Nat.add_0_r in H0.
  - done.
  - intros (j & Hj & Heq%expected_id_inj)%Hseen. lia.
  - apply IH; [done| |].
    + intros node_id. rewrite Hseen'.
      intros [->%elem_of_singleton|(j & ? & ->)%Hseen]%elem_of_union.
      * exists idx. split; [lia|done].
      * exists j. split; [lia|done].
    + intros i w Hw. replace (S idx + i)%nat with (idx + S i)%nat by lia.
      by apply (Hread (S i)).
Qed.

(** With dense stamps nothing is renumbered and no stamp is written. *)
Lemma final_entries_dense bm :
  dense_ids bm → (final_entries bm).*1 = verts bm.
Proof.
  intros Hdense. unfold final_entries.
  rewrite (scan_vertices_dense _ (verts bm)); [| done | |].
  - rewrite andb_false_r, scanned_entries. apply list_eq. intros i.
    rewrite list_lookup_fmap, list_lookup_imap.
    by destruct (verts bm !! i).
  - intros node_id Hin. by apply not_elem_of_empty in Hin.
  - intros i v Hv. by apply read_node_id_dense.
Qed.

Lemma mesh_lines_vertex_prefix `{!FloatCodec float} bm :
  ∃ face_lines,
    mesh_lines bm
    = map (λ '(vert, node_id), vertex_line node_id (vert_co vert))
          (final_entries bm) ++ face_lines.
Proof.
  unfold mesh_lines.
  generalize (map (λ '(vert, node_id), vertex_line node_id (vert_co vert))
                (final_entries bm)) as lines.
  generalize 1%nat as k. generalize (faces bm) as fs.
  induction fs as [|f fs IH]; intros k lines; cbn.
  { exists []. by rewrite app_nil_r. }
  assert (∀ tris k lines, ∃ more k',
    foldl (λ '(lines, tri_counter) '(a, b, c),
             (lines ++ [face_line tri_counter a b c], S tri_counter))
          (lines, k) tris = (lines ++ more, k')) as Hemit.
  { clear. induction tris as [|[[a b] c] tris IH]; intros k lines; cbn.
    - exists [], k. by rewrite app_nil_r.
    - destruct (IH (S k) (lines ++ [face_line k a b c])) as (more & k' & ->).
      exists (face_line k a b c :: more), k'. by rewrite <- app_assoc. }
  unfold emit_face at 2.
  destruct (Hemit (face_triangles f) k lines) as (more & k' & ->).
  destruct (IH k' (lines ++ more)) as (fl & ->).
  exists (more ++ fl). by rewrite app_assoc.
Qed.

Lemma emit_face_lines `{!FloatCodec float} (fs : list (list nat)) :
  ∀ lines k,
    foldl emit_face (lines, k) fs
    = (lines ++ imap (λ j '(a, b, c), face_line (k + j) a b c)
                  (concat (map face_triangles fs)),
       (k + length (concat (map face_triangles fs)))%nat).
Proof.
  assert (∀ tris lines k,
    foldl (λ '(lines, tri_counter) '(a, b, c),
             (lines ++ [face_line tri_counter a b c], S tri_counter))
          (lines, k) tris
    = (lines ++ imap (λ j '(a, b, c), face_line (k + j) a b c) tris,
       (k + length tris)%nat)) as Hemit.
  { induction tris as [|[[a b] c] tris IH]; intros lines k; cbn [foldl].
    - cbn. by rewrite app_nil_r, Nat.add_0_r.
    - rewrite IH. cbn [imap length]. rewrite <- app_assoc. cbn.
      rewrite Nat.add_0_r. f_equal; [|lia]. do 2 f_equal.
      apply imap_ext. intros j [[x y] z] _. cbn. f_equal. lia. }
  induction fs as [|f fs IH]; intros lines k; cbn [map concat foldl].
  { cbn. by rewrite app_nil_r, Nat.add_0_r. }
  unfold emit_face at 2. rewrite Hemit, IH.
  rewrite imap_app, length_app, <- app_assoc. f_equal; [|lia].
  do 2 f_equal. apply imap_ext. intros j [[x y] z] _. cbn. f_equal. lia.
Qed.

(** The lines written for a mesh with dense stamps. *)
Lemma mesh_lines_dense `{!FloatCodec float} bm :
  dense_ids bm →
  mesh_lines bm
  = imap (λ idx v, vertex_line (expected_id idx) (vert_co v)) (verts bm)
    ++ imap (λ j '(a, b, c), face_line (S j) a b c)
         (concat (map face_triangles (faces bm))).
Proof.
  intros Hdense. unfold mesh_lines. rewrite emit_face_lines. cbn [fst].
  f_equal. apply list_eq. intros idx.
  rewrite list_lookup_fmap, list_lookup_imap.
  destruct (verts bm !! idx) as [v|] eqn:Hv; cbn.
  - destruct (final_entries_lookup bm idx v Hv)
      as (w & node_id & -> & Hco & Hid). cbn. rewrite Hco. do 2 f_equal.
    destruct Hid as [->|(-> & _ & _)]; [done|].
    by apply assigned_id_dense.
  - rewrite lookup_ge_None_2; [done|].
    rewrite final_entries_length. by apply lookup_ge_None.
Qed.

End SerializerFacts.

Section SerializerClaims.
Context {float : Type} `{!FloatCodec float}.
Implicit Types (bm : BMesh float) (v : BMVert float).

(** C4. When the vertices carry the stamps [n1 .. nK] in vertex order,
    serializing the mesh after an edit that only moved vertices emits,
    for every vertex, the id it was stamped with. The text returned is
    made of the lines [n<idx+1> x y z], one per vertex in vertex order
    with the current coordinates of the vertex, followed by the lines of
    the triangles: these lines joined by line feeds when there is no
    base text (or an empty one), and merged into the base text
    otherwise. The ids are those emitted before the edit, and the
    serializer does not restamp any vertex either: the mesh is the same
    after it as before. *)
Theorem moving_vertices_keeps_ids bm bm' :
  dense_ids bm → moved bm bm' →
  (∀ using_edit_bmesh base_text,
     (mesh_to_vpg_text bm' using_edit_bmesh base_text).1
     = let lines :=
         imap (λ idx v', vertex_line (expected_id idx) (vert_co v'))
              (verts bm')
         ++ imap (λ j '(a, b, c), face_line (S j) a b c)
              (concat (map face_triangles (faces bm'))) in
       match base_text with
       | Some base =>
           if String.eqb base "" then unlines lines
           else _merge_geometry_with_existing base lines
       | None => unlines lines
       end)
  ∧ emitted_ids bm' = emitted_ids bm
  ∧ Forall2 (λ v node_id, vert_node_id v = Some node_id)
            (verts bm) (emitted_ids bm')
  ∧ (∀ idx v', verts bm' !! idx = Some v' →
       mesh_lines bm' !! idx
       = Some (vertex_line (expected_id idx) (vert_co v')))
  ∧ ∀ using_edit_bmesh base_text,
      (mesh_to_vpg_text bm' using_edit_bmesh base_text).2 = bm'.
Proof.
  intros Hdense (Hl & Hil & Hf & Hvs).
  assert (dense_ids bm') as Hdense'.
  { destruct Hdense as [Hdl Hd]. split; [congruence|].
    intros idx v' Hv'.
    destruct (Forall2_lookup_r _ _ _ _ _ Hvs Hv') as (v & Hv & [-> _]).
    eauto. }
  assert (∀ b : BMesh float, dense_ids b →
    emitted_ids b = imap (λ i _, expected_id i) (verts b)) as Hids.
  { intros b Hb. apply list_eq. intros idx. unfold emitted_ids.
    rewrite list_lookup_fmap, list_lookup_imap.
    destruct (verts b !! idx) as [v|] eqn:Hv; cbn.
    - destruct (final_entries_lookup b idx v Hv)
        as (w & node_id & -> & _ & [->|(-> & _ & _)]); cbn; [done|].
      by rewrite (assigned_id_dense b idx v Hb Hv).
    - rewrite lookup_ge_None_2; [done|].
      rewrite final_entries_length. by apply lookup_ge_None. }
  split; [|split; [|split; [|split]]].
  - intros using_edit_bmesh base_text. unfold mesh_to_vpg_text. cbn [fst].
    rewrite (mesh_lines_dense bm' Hdense'). by destruct base_text.
  - rewrite !Hids by done. apply list_eq. intros idx.
    rewrite !list_lookup_imap.
    pose proof (Forall2_length _ _ _ Hvs) as Hlen.
    destruct (verts bm !! idx) eqn:H1, (verts bm' !! idx) eqn:H2; try done.
    + apply lookup_lt_Some in H1. apply lookup_ge_None in H2. lia.
    + apply lookup_lt_Some in H2. apply lookup_ge_None in H1. lia.
  - rewrite Hids by done. apply Forall2_same_length_lookup. split.
    + rewrite length_imap. by apply Forall2_length in Hvs.
    + intros idx v node_id Hv. rewrite list_lookup_imap.
      destruct (verts bm' !! idx); [|done]. intros [= <-].
      by apply Hdense.
  - intros idx v' Hv'.
    destruct (mesh_lines_vertex_prefix bm') as (fl & ->).
    rewrite lookup_app_l
      by (rewrite length_map, final_entries_length; by eapply lookup_lt_Some).
    rewrite list_lookup_fmap.
    destruct (final_entries_lookup bm' idx v' Hv')
      as (w & node_id & -> & Hco & Hid). cbn. rewrite Hco. do 2 f_equal.
    destruct Hid as [->|(-> & _ & _)]; [done|].
    by apply assigned_id_dense.
  - intros using_edit_bmesh base_text. unfold mesh_to_vpg_text. cbn [snd].
    destruct using_edit_bmesh; [|done].
    change (map fst (final_entries bm')) with ((final_entries bm').*1).
    rewrite (final_entries_dense bm' Hdense'). by destruct bm'.
Qed.

(** C5 (amended). When some vertex carries a non-empty stamp that fails
    the [n<number>] pattern, nothing is renumbered: a vertex with a
    stamp of the pattern keeps it (first letter in lower case), a vertex
    with a non-empty stamp that fails the pattern keeps that stamp as it
    is, and only a vertex without a stamp (none, undecodable or empty)
    is given [n<position+1>]. *)
Theorem invalid_stamp_blocks_renumbering bm :
  (∃ v, v ∈ verts bm ∧ stamped_invalid (has_node_id_layer bm) v = true) →
  ∀ idx v, verts bm !! idx = Some v →
    ∃ node_id, final_entries bm !! idx = Some (v, node_id) ∧
      match read_node_id (has_node_id_layer bm) v with
      | None | Some EmptyString => node_id = expected_id idx
      | Some stamp =>
          if is_numeric_id stamp
          then node_id = String "n" (PyStr.tail stamp)
          else node_id = stamp
      end.
Proof.
  intros Hinv idx v Hv. rewrite (final_entries_not_renumbered bm Hinv).
  rewrite list_lookup_imap, Hv. cbn. eexists. split; [done|].
  unfold assigned_id.
  destruct (read_node_id _ v) as [[|c s]|]; try done.
  by destruct (is_numeric_id _).
Qed.

End SerializerClaims.

Section MergeFacts.

Lemma geometry_indices_none k lines :
  Forall (λ l, is_geometry_line l = false) lines →
  geometry_indices_from k lines = [].
Proof.
  intros Hall. revert k. induction Hall as [|l lines Hl _ IH]; intros k; [done|].
  cbn. by rewrite Hl, IH.
Qed.

Lemma geometry_indices_app k l1 l2 :
  geometry_indices_from k (l1 ++ l2)
  = geometry_indices_from k l1
    ++ geometry_indices_from (k + length l1) l2.
Proof.
  revert k. induction l1 as [|l l1 IH]; intros k; cbn.
  { by rewrite Nat.add_0_r. }
  rewrite IH, <- app_assoc. do 3 f_equal. lia.
Qed.

Lemma geometry_indices_block k block first last_line :
  head block = Some first → is_geometry_line first = true →
  last block = Some last_line → is_geometry_line last_line = true →
  ∃ rest, geometry_indices_from k block = k :: rest
          ∧ ∀ d, List.last (k :: rest) d = (k + length block - 1)%nat.
Proof.
  intros Hhead Hfirst Hlast Hlastg.
  destruct block as [|l block]; [done|]. injection Hhead as ->.
  cbn [geometry_indices_from]. rewrite Hfirst. cbn [app].
  eexists. split; [done|]. intros d.
  destruct (decide (block = [])) as [->|Hne].
  { cbn. lia. }
  destruct (exists_last Hne) as (init & l' & ->).
  rewrite app_comm_cons, last_snoc in Hlast. injection Hlast as ->.
  rewrite geometry_indices_app. cbn [geometry_indices_from].
  rewrite Hlastg, app_nil_r, app_comm_cons, List.last_last.
  cbn. rewrite length_app. cbn. lia.
Qed.

(** The two cases of the merge are all there is: either no line is a
    geometry line, or the lines split into the lines before the first
    geometry line, the block from the first to the last geometry line,
    and the lines after it. *)
Lemma geometry_block_cases lines :
  Forall (λ l, is_geometry_line l = false) lines
  ∨ ∃ prefix block suffix first last_line,
      lines = prefix ++ block ++ suffix
      ∧ Forall (λ l, is_geometry_line l = false) prefix
      ∧ Forall (λ l, is_geometry_line l = false) suffix
      ∧ head block = Some first ∧ is_geometry_line first = true
      ∧ last block = Some last_line ∧ is_geometry_line last_line = true.
Proof.
  induction lines as [|l lines IH]; [by left|].
  destruct (is_geometry_line l) eqn:Hl.
  - right. destruct IH as [Hnone|(prefix & block & suffix & f & g & -> & Hpre
                                   & Hsuf & Hh & Hf & Hg & Hgl)].
    + exists [], [l], lines, l, l. by repeat split.
    + exists [], (l :: prefix ++ block), suffix, l, g.
      repeat split; try done.
      * cbn. by rewrite <- app_assoc.
      * rewrite app_comm_cons. destruct block as [|b block]; [done|].
        by rewrite last_app_cons.
  - destruct IH as [Hnone|(prefix & block & suffix & f & g & -> & Hpre
                           & Hsuf & Hh & Hf & Hg & Hgl)].
    + left. by constructor.
    + right. exists (l :: prefix), block, suffix, f, g.
      repeat split; try done. by constructor.
Qed.

(** C6 (amended). Merging a non-empty list of generated lines into a
    base text. When the base has geometry lines, the block from the first
    of them to the last is replaced by the new lines: the lines before
    and the lines after are kept as they are, an empty line is put
    between the lines before and the new lines exactly when the last line
    before is not blank, and between the new lines and the lines after
    exactly when the first line after and the last new line are both not
    blank. When the base has no geometry line, the new lines are put
    after the base lines, behind an empty line when the last base line is
    not blank. The lines are joined by line feeds. And the example of the
    header: merging [n1 1 1 1] into the header, a vertex and a face gives
    the header, an empty line and [n1 1 1 1]. *)
Theorem merge_replaces_geometry_block base_text geometry_lines :
  geometry_lines ≠ [] →
  (∀ prefix block suffix first last_line,
     PyStr.splitlines base_text = prefix ++ block ++ suffix →
     Forall (λ l, is_geometry_line l = false) prefix →
     Forall (λ l, is_geometry_line l = false) suffix →
     head block = Some first → is_geometry_line first = true →
     last block = Some last_line → is_geometry_line last_line = true →
     _merge_geometry_with_existing base_text geometry_lines
     = unlines (prefix
                ++ (if last_is_nonblank prefix then [""] else [])
                ++ geometry_lines
                ++ (if first_is_nonblank suffix
                       && last_is_nonblank geometry_lines
                    then [""] else [])
                ++ suffix))
  ∧ (Forall (λ l, is_geometry_line l = false) (PyStr.splitlines base_text) →
     _merge_geometry_with_existing base_text geometry_lines
     = unlines (PyStr.splitlines base_text
                ++ (if last_is_nonblank (PyStr.splitlines base_text)
                    then [""] else [])
                ++ geometry_lines))
  ∧ (PyStr.splitlines
       (_merge_geometry_with_existing
          (unlines ["# header"; "n1 0 0 0"; "e1 1 1 1"; ""]) ["n1 1 1 1"])
     = ["# header"; ""; "n1 1 1 1"]).
Proof.
  intros Hne. split; [|split]; [| |done].
  - intros prefix block suffix first last_line Hlines Hpre Hsuf Hh Hf Hl Hlg.
    unfold _merge_geometry_with_existing.
    destruct geometry_lines as [|g gs] eqn:Hg; [done|]. rewrite <- Hg. clear Hg Hne.
    rewrite Hlines, !geometry_indices_app, (geometry_indices_none _ prefix Hpre),
      (geometry_indices_none _ suffix Hsuf), app_nil_r. cbn [app plus].
    destruct (geometry_indices_block (length prefix) block _ _ Hh Hf Hl Hlg)
      as (rest & -> & Hlast). rewrite Hlast.
    rewrite take_app_length.
    replace (length prefix + length block - 1 + 1)%nat
      with (length prefix + length block)%nat
      by (destruct block; [done|cbn; lia]).
    rewrite app_assoc, <- length_app, drop_app_length.
    unfold unlines. f_equal.
    destruct suffix as [|s suffix].
    + cbn [first_is_nonblank head andb]. rewrite !app_nil_r.
      destruct (last_is_nonblank prefix); by rewrite <- ?app_assoc.
    + destruct (last_is_nonblank prefix);
        destruct (first_is_nonblank (s :: suffix) && _);
        by rewrite <- ?app_assoc.
  - intros Hnone. unfold _merge_geometry_with_existing.
    destruct geometry_lines as [|g gs] eqn:Hg; [done|]. rewrite <- Hg.
    rewrite (geometry_indices_none _ _ Hnone). unfold unlines. f_equal.
    destruct (last_is_nonblank _); by rewrite <- ?app_assoc.
Qed.

End MergeFacts.

Section EditorFacts.
Context {float : Type} `{!FloatCodec float}.
Implicit Types (σ : Blender float).

(** The active paths are the VPG paths of the mesh objects. *)
Lemma collect_active_vpg_paths_spec σ vpg_path :
  vpg_path ∈ _collect_active_vpg_paths σ ↔
  ∃ obj mesh, obj ∈ objects σ ∧ obj_is_mesh obj = true
              ∧ obj_mesh σ obj = Some mesh
              ∧ truthy (vpg_file_path mesh) = Some vpg_path.
Proof.
  unfold _collect_active_vpg_paths.
  assert (∀ objs (acc : gset string),
    vpg_path ∈ foldl (λ (active : gset string) obj,
                 if negb (obj_is_mesh obj) then active else
                 match obj_mesh σ obj with
                 | None => active
                 | Some mesh =>
                     match truthy (vpg_file_path mesh) with
                     | Some p => {[ p ]} ∪ active
                     | None => active
                     end
                 end) acc objs
    ↔ vpg_path ∈ acc
      ∨ ∃ obj mesh, obj ∈ objs ∧ obj_is_mesh obj = true
                    ∧ obj_mesh σ obj = Some mesh
                    ∧ truthy (vpg_file_path mesh) = Some vpg_path) as Hgen.
  { induction objs as [|obj objs IH]; intros acc; cbn.
    - split; [by left|]. intros [?|(obj & mesh & Hin & _)]; [done|].
      by apply elem_of_nil in Hin.
    - rewrite IH. split.
      + intros [Hacc|(o & m & Hin & ? & ? & ?)].
        * destruct (obj_is_mesh obj) eqn:Hm; cbn in Hacc; [|by left].
          destruct (obj_mesh σ obj) as [mesh|] eqn:Hmesh; [|by left].
          destruct (truthy (vpg_file_path mesh)) as [p|] eqn:Hp; [|by left].
          apply elem_of_union in Hacc as [->%elem_of_singleton|?]; [|by left].
          right. exists obj, mesh. by rewrite elem_of_cons; eauto.
        * right. exists o, m. rewrite elem_of_cons. eauto.
      + intros [Hacc|(o & m & Hin & Hm & Hmesh & Hp)].
        * left. destruct (negb (obj_is_mesh obj)); [done|].
          destruct (obj_mesh σ obj) as [mesh|]; [|done].
          destruct (truthy (vpg_file_path mesh)); [|done].
          apply elem_of_union. by right.
        * apply elem_of_cons in Hin as [->|Hin].
          -- left. rewrite Hm, Hmesh, Hp. cbn.
             apply elem_of_union. left. by apply elem_of_singleton.
          -- right. eauto 10. }
  rewrite Hgen. split; [|by right].
  intros [Hempty|?]; [|done]. by apply not_elem_of_empty in Hempty.
Qed.

Lemma remove_int_file_forgets σ filename :
  forgotten (remove_int_file filename σ) (to_short_filename filename).
Proof.
  unfold forgotten, remove_int_file, tracked_path, prev_text.
  destruct σ as [objs ms ts [[prev mapping]|] area hs hi]; cbn;
    rewrite ?lookup_delete_eq; [|done].
  split; [done|]. split.
  - destruct mapping; cbn; by rewrite ?lookup_delete_eq.
  - destruct prev; cbn; by rewrite ?lookup_delete_eq.
Qed.

Lemma remove_int_file_forgotten σ filename short_name :
  forgotten σ short_name → forgotten (remove_int_file filename σ) short_name.
Proof.
  unfold forgotten, remove_int_file, tracked_path, prev_text.
  destruct σ as [objs ms ts [[prev mapping]|] area hs hi]; cbn.
  - intros (Ht & Hm & Hp). split; [|split].
    + by apply lookup_delete_None; right.
    + destruct mapping; cbn in *; [|done]. by apply lookup_delete_None; right.
    + destruct prev; cbn in *; [|done]. by apply lookup_delete_None; right.
  - intros (Ht & _ & _). split; [|done]. by apply lookup_delete_None; right.
Qed.

Lemma remove_int_file_history σ filename :
  history_stack (remove_int_file filename σ) = history_stack σ
  ∧ history_stack_idx (remove_int_file filename σ) = history_stack_idx σ.
Proof. unfold remove_int_file. by destruct σ as [? ? ? [?|] ? ? ?]. Qed.

Lemma cleanup_steps_forgotten active_paths items σ short_name :
  forgotten σ short_name →
  forgotten (foldl (cleanup_step active_paths) σ items) short_name.
Proof.
  revert σ. induction items as [|[s f] items IH]; intros σ Hf; [done|].
  cbn. apply IH. case_bool_decide; [|done].
  by apply remove_int_file_forgotten.
Qed.

Lemma cleanup_steps_forget active_paths items σ short_name full_path :
  (short_name, full_path) ∈ items →
  full_path ∉ active_paths →
  forgotten (foldl (cleanup_step active_paths) σ items)
            (to_short_filename full_path).
Proof.
  intros Hin Hna. revert σ.
  induction items as [|item items IH]; intros σ; [by apply elem_of_nil in Hin|].
  apply elem_of_cons in Hin as [<-|Hin]; [|by apply IH].
  cbn. rewrite bool_decide_true by done.
  apply cleanup_steps_forgotten, remove_int_file_forgets.
Qed.

Lemma cleanup_steps_history active_paths items σ :
  history_stack (foldl (cleanup_step active_paths) σ items) = history_stack σ
  ∧ history_stack_idx (foldl (cleanup_step active_paths) σ items)
    = history_stack_idx σ.
Proof.
  revert σ. induction items as [|[s f] items IH]; intros σ; [done|].
  cbn. destruct (IH (if bool_decide (f ∉ active_paths)
                     then remove_int_file f σ else σ)) as [-> ->].
  case_bool_decide; [apply remove_int_file_history|done].
Qed.

Lemma cleanup_unfold σ sc mapping :
  scene σ = Some sc → short_to_full_filename sc = Some mapping →
  _cleanup_orphan_internal_texts σ
  = foldl (cleanup_step (_collect_active_vpg_paths σ)) σ (map_to_list mapping).
Proof.
  intros Hsc Hm. unfold _cleanup_orphan_internal_texts. rewrite Hsc, Hm.
  case_bool_decide as Hempty; [|done]. subst mapping.
  by rewrite map_to_list_empty.
Qed.

Lemma cleanup_forgotten σ short_name :
  forgotten σ short_name →
  forgotten (_cleanup_orphan_internal_texts σ) short_name.
Proof.
  intros Hf. destruct (scene σ) as [sc|] eqn:Hsc.
  - destruct (short_to_full_filename sc) as [mapping|] eqn:Hm.
    + rewrite (cleanup_unfold _ _ _ Hsc Hm). by apply cleanup_steps_forgotten.
    + unfold _cleanup_orphan_internal_texts. by rewrite Hsc, Hm.
  - unfold _cleanup_orphan_internal_texts. by rewrite Hsc.
Qed.

(** C7 (amended). A cleanup pass deletes, for every tracked internal text
    whose full path no live mesh object names in its VPG path, the text
    data block, its entry in the short-name-to-path mapping and its
    entry in the previous-texts map; the text stays deleted over every
    later cleanup pass. The undo history of [text_editor]
    ([history_stack] and its cursor) is not touched by the cleanup. *)
Theorem cleanup_deletes_orphans σ short_name full_path :
  tracked_path σ short_name = Some full_path →
  to_short_filename full_path = short_name →
  full_path ∉ _collect_active_vpg_paths σ →
  (∀ passes,
     forgotten (Nat.iter (S passes) _cleanup_orphan_internal_texts σ)
               short_name)
  ∧ history_stack (_cleanup_orphan_internal_texts σ) = history_stack σ
  ∧ history_stack_idx (_cleanup_orphan_internal_texts σ)
    = history_stack_idx σ.
Proof.
  intros Htracked Hshort Horphan. unfold tracked_path in Htracked.
  destruct (scene σ) as [sc|] eqn:Hsc; [|done]. cbn in Htracked.
  destruct (short_to_full_filename sc) as [mapping|] eqn:Hm; [|done].
  cbn in Htracked. split.
  - intros passes. induction passes as [|passes IH].
    + cbn. rewrite (cleanup_unfold _ _ _ Hsc Hm), <- Hshort.
      eapply cleanup_steps_forget; [|done].
      apply elem_of_map_to_list. exact Htracked.
    + by apply cleanup_forgotten in IH.
  - rewrite (cleanup_unfold _ _ _ Hsc Hm). apply cleanup_steps_history.
Qed.

(** C10. For a mesh with a VPG path, when the text serialized from the
    geometry and merged into the reference text (the cached text of the
    mesh, or without a cache the content of the internal text) equals
    that reference text, [_sync_object_text] returns [False] and changes
    neither the cached text of any mesh, nor the internal texts, nor the
    scene's previous-texts map (nor the path mapping, the text editor
    area and the undo history). *)
Theorem sync_without_change_is_silent σ obj mesh_name mesh vpg_path :
  obj_data obj = Some mesh_name →
  meshes σ !! mesh_name = Some mesh →
  truthy (vpg_file_path mesh) = Some vpg_path →
  Some (mesh_to_vpg_text (geometry mesh) (obj_mode_edit obj)
          (reference_text σ mesh vpg_path)).1
  = reference_text σ mesh vpg_path →
  ∃ σ', _sync_object_text obj σ = (false, σ')
    ∧ (∀ name, mesh_data <$> meshes σ' !! name
               = mesh_data <$> meshes σ !! name)
    ∧ texts σ' = texts σ
    ∧ scene σ' = scene σ
    ∧ text_area σ' = text_area σ
    ∧ history_stack σ' = history_stack σ.
Proof.
  intros Hobj Hmesh Hpath Hsame.
  unfold _sync_object_text. rewrite Hobj, Hmesh, Hpath.
  unfold reference_text in Hsame.
  destruct (mesh_to_vpg_text _ _ _) as [new_text bm] eqn:Hser.
  cbn in Hsame.
  rewrite bool_decide_true by (by destruct (mesh_data mesh)).
  eexists. split; [done|]. cbn. repeat split; try done.
  intros name. destruct (decide (name = mesh_name)) as [->|Hne].
  - by rewrite lookup_insert_eq, Hmesh.
  - by rewrite lookup_insert_ne.
Qed.

End EditorFacts.

(** C8 (amended). [read_file] returns the content when the file can be
    opened and decoded, and [None] when [open] or [read] raises [OSError];
    it never passes an [OSError] on. Any other exception
    ([UnicodeDecodeError] for a file that is not UTF-8) is not caught and
    reaches the caller. *)
Theorem read_file_catches_oserror_only fs filepath :
  (∀ text, fs filepath = Ok text → read_file fs filepath = Ok (Some text))
  ∧ (fs filepath = Raise OSError → read_file fs filepath = Ok None)
  ∧ read_file fs filepath ≠ Raise OSError
  ∧ (∀ e, e ≠ OSError → fs filepath = Raise e →
          read_file fs filepath = Raise e).
Proof.
  unfold read_file. repeat split.
  - by intros text ->.
  - by intros ->.
  - by destruct (fs filepath) as [text|[]].
  - intros e He ->. by destruct e.
Qed.

Section GenerateMeshFacts.
Context {float : Type} `{!FloatCodec float}.
Variable world_inv : position float → position float.

Lemma generate_vertices_ok ids :
  NoDup ids →
  ∀ rest k vs0 (tp0 : gmap string (position float)),
    (∀ node_id, is_Some (tp0 !! node_id) →
                ∃ j, (j < k)%nat ∧ ids !! j = Some node_id) →
    (k + length rest ≤ length ids)%nat →
    ∃ tp',
      for_each (generate_vertex world_inv ids) (vs0, tp0)
               (imap (λ i p, ((k + i)%nat, p)) rest)
      = Ok (vs0 ++ zip_with (imported_vertex world_inv)
                     (drop k ids) rest, tp').
Proof.
  intros Hnd. induction rest as [|p rest IH]; intros k vs0 tp0 Htp Hlen.
  { exists tp0. cbn. by rewrite zip_with_nil_r, app_nil_r. }
  cbn in Hlen. cbn [imap for_each].
  destruct (lookup_lt_is_Some_2 ids k ltac:(lia)) as [node_id Hid].
  unfold generate_vertex at 2. cbn. unfold getitem.
  rewrite Nat.add_0_r, Hid. cbn.
  assert (tp0 !! node_id = None) as Hfresh.
  { destruct (tp0 !! node_id) eqn:Hl; [|done].
    destruct (Htp node_id ltac:(by rewrite Hl)) as (j & Hj & Hidj).
    pose proof (NoDup_lookup _ _ _ _ Hnd Hid Hidj). lia. }
  rewrite Hfresh, lookup_insert_eq. cbn.
  destruct (IH (S k) (vs0 ++ [imported_vertex world_inv node_id p])
              (<[node_id := world_inv p]> tp0)) as (tp' & Hrest).
  - intros id' [q Hq]. destruct (decide (node_id = id')) as [<-|Hne].
    + exists k. split; [lia|done].
    + rewrite lookup_insert_ne in Hq by done.
      destruct (Htp id' ltac:(by rewrite Hq)) as (j & ? & ?).
      exists j. split; [lia|done].
  - lia.
  - exists tp'.
    rewrite (imap_ext _ (λ i p0, ((S k + i)%nat, p0))) by (intros; cbn; f_equal; lia).
    unfold imported_vertex at 1 in Hrest. rewrite Hrest.
    rewrite (drop_S _ _ _ Hid). cbn. by rewrite <- app_assoc.
Qed.

Lemma resolve_index_in_range {A} (xs : list A) i :
  index_in_range (length xs) i = true → resolve_index xs i = Ok (Z.to_nat i).
Proof.
  unfold index_in_range, resolve_index. intros [H0 Hn]%andb_true_iff.
  by rewrite H0, Hn.
Qed.

Lemma generate_faces_ok (vs : list (BMVert float)) tris :
  Forall (λ tri, triangle_in_range (length vs) tri = true) tris →
  ∀ fs0 fs, for_each (generate_face vs) fs0 tris = Ok fs →
            fs = fs0 ++ map triangle_corners tris.
Proof.
  induction 1 as [|[[a b] c] tris Htri _ IH]; intros fs0 fs; cbn.
  { intros [= <-]. by rewrite app_nil_r. }
  cbn in Htri. apply andb_true_iff in Htri as [[Ha Hb]%andb_true_iff Hc].
  rewrite !resolve_index_in_range by done. cbn.
  unfold faces_new. destruct (_ && _); cbn; [|done].
  intros Hfs. apply IH in Hfs as ->. by rewrite <- app_assoc.
Qed.

Lemma generate_mesh_ok vertices indices ids bm :
  NoDup ids → length ids = length vertices →
  Forall (λ tri, triangle_in_range (length vertices) tri = true) indices →
  generate_mesh world_inv vertices indices ids = Ok bm →
  has_node_id_layer bm = true
  ∧ verts bm = zip_with (imported_vertex world_inv) ids vertices
  ∧ faces bm = map triangle_corners indices.
Proof.
  intros Hnd Hlen Hrange. unfold generate_mesh.
  destruct (generate_vertices_ok ids Hnd vertices 0 [] ∅) as (tp' & Hvs).
  { intros node_id. rewrite lookup_empty. by intros [? ?]. }
  { lia. }
  cbn [Nat.add] in Hvs. rewrite drop_0 in Hvs. rewrite Hvs. cbn.
  destruct (for_each _ [] indices) as [fs|] eqn:Hfs; cbn; [|done].
  intros [= <-]. cbn. split; [done|]. split; [done|].
  eapply generate_faces_ok in Hfs; [done|].
  rewrite length_zip_with, Hlen, Nat.min_id. done.
Qed.

(** The faces are made exactly when they are buildable. *)
Lemma generate_faces_buildable (vs : list (BMVert float)) tris :
  Forall (λ tri, triangle_in_range (length vs) tri = true) tris →
  ∀ fs0,
    for_each (generate_face vs) fs0 tris
    = if faces_buildable fs0 tris
      then Ok (fs0 ++ map triangle_corners tris)
      else Raise ValueError.
Proof.
  induction 1 as [|[[a b] c] tris Htri _ IH]; intros fs0.
  { cbn. by rewrite app_nil_r. }
  cbn in Htri. apply andb_true_iff in Htri as [[Ha Hb]%andb_true_iff Hc].
  cbn -[faces_buildable]. rewrite !resolve_index_in_range by done.
  cbn -[faces_buildable]. unfold faces_new. cbn [faces_buildable].
  unfold triangle_corners at 1 2.
  destruct (bool_decide (NoDup _) && negb _) eqn:Hnew;
    cbn -[faces_buildable]; [|done].
  rewrite IH. destruct (faces_buildable _ tris); [|done].
  by rewrite <- app_assoc.
Qed.

Lemma generate_mesh_buildable vertices indices ids :
  NoDup ids → length ids = length vertices →
  Forall (λ tri, triangle_in_range (length vertices) tri = true) indices →
  generate_mesh world_inv vertices indices ids
  = if faces_buildable [] indices
    then Ok {| has_node_id_layer := true; has_init_node_id_layer := true;
               verts := zip_with (imported_vertex world_inv) ids vertices;
               faces := map triangle_corners indices |}
    else Raise ValueError.
Proof.
  intros Hnd Hlen Hrange. unfold generate_mesh.
  destruct (generate_vertices_ok ids Hnd vertices 0 [] ∅) as (tp' & Hvs).
  { intros node_id. rewrite lookup_empty. by intros [? ?]. }
  { lia. }
  cbn [Nat.add] in Hvs. rewrite drop_0 in Hvs. rewrite Hvs. cbn.
  rewrite generate_faces_buildable
    by (by rewrite length_zip_with, Hlen, Nat.min_id).
  by destruct (faces_buildable [] indices).
Qed.

End GenerateMeshFacts.

Module LineFacts.
Import PyStr PyStrFacts.

Lemma split_tokens s : Forall (λ t, is_token t = true) (split s).
Proof.
  induction s as [|c s IH]; cbn; [constructor|].
  destruct (isspace c) eqn:Hc; [done|].
  assert (is_token (String c "") = true) as Hone.
  { unfold is_token, no_space. cbn. by rewrite Hc. }
  destruct (head_is _ s).
  - destruct (split s) as [|w ws]; [by repeat constructor|].
    inversion IH as [|? ? Hw Hws]; subst. constructor; [|done].
    unfold is_token, no_space in *. cbn. rewrite Hc. cbn.
    by apply andb_true_iff in Hw as [_ ->].
  - by constructor.
Qed.

Lemma lower_decimal s : all_chars is_decimal s = true → lower s = s.
Proof.
  induction s as [|c s IH]; cbn; [done|].
  intros [Hc Hs]%andb_true_iff. rewrite IH by done. f_equal.
  revert Hc. clear. by_cases_on_char c.
Qed.

(** Four tokens separated by single spaces. *)
Lemma four_tokens t0 t1 t2 t3 :
  is_token t0 = true → is_token t1 = true →
  is_token t2 = true → is_token t3 = true →
  let line := t0 +:+ " " +:+ t1 +:+ " " +:+ t2 +:+ " " +:+ t3 in
  strip line = line ∧ split line = [t0; t1; t2; t3]
  ∧ one_line line = true ∧ line ≠ "".
Proof.
  intros H0 H1 H2 H3 line. subst line. repeat split.
  - pose proof (strip_between t0 (" " +:+ t1 +:+ " " +:+ t2 +:+ " ") t3 H0 H3)
      as Hs.
    by rewrite !append_assoc in Hs.
  - by rewrite !split_token_space, split_token.
  - rewrite !one_line_app.
    pose proof (no_space_one_line _ (token_no_space _ H0)) as ->.
    pose proof (no_space_one_line _ (token_no_space _ H1)) as ->.
    pose proof (no_space_one_line _ (token_no_space _ H2)) as ->.
    pose proof (no_space_one_line _ (token_no_space _ H3)) as ->.
    done.
  - by destruct t0.
Qed.

Lemma normalize_token_decimal s :
  s ≠ "" → all_chars is_decimal s = true → normalize_token s = s.
Proof.
  intros Hne Hd. unfold normalize_token.
  assert (is_token s = true) as Ht.
  { apply token_intro; [done|]. eapply all_chars_impl; [|done].
    intros c Hc. by rewrite (decimal_not_space _ Hc). }
  by rewrite (strip_token s Ht), strip_commas_decimal, strip_token.
Qed.

Lemma resolved_index_of_nat n :
  resolved_index (of_nat (n + 1)) = Some (Z.of_nat n).
Proof.
  unfold resolved_index.
  rewrite normalize_token_decimal
    by auto using of_nat_nonempty, of_nat_decimal.
  rewrite int_of_of_nat. cbn. f_equal. lia.
Qed.

End LineFacts.

Section RoundTripFacts.
Context {float : Type} `{!FloatCodec float}.
Variable world_inv : position float → position float.
Implicit Types (st : parsed float) (bm : BMesh float).

Lemma id_ok_head node_id :
  id_ok node_id → ∃ rest, node_id = String "n" rest.
Proof.
  intros (_ & _ & Hn). destruct node_id as [|c rest]; [done|].
  exists rest. rewrite PyStrFacts.startswith_char in Hn.
  by apply Ascii.eqb_eq in Hn as <-.
Qed.

Lemma classify_vertex_id_ok l node_id xyz :
  classify_line l = VertexLine node_id xyz → id_ok node_id.
Proof.
  unfold classify_line. destruct (_ || _); [done|].
  pose proof (LineFacts.split_tokens (PyStr.strip l)) as Htok.
  destruct (PyStr.split _) as [|part0 rest]; [done|].
  inversion Htok as [|? ? H0 _]; subst.
  destruct (PyStr.startswith "n" _) eqn:Hn.
  - destruct rest as [|p1 [|p2 [|p3 rest]]]; try done.
    destruct (float_of p1), (float_of p2), (float_of p3); try done.
    intros [= <- <-]. split; [|split]; [|apply PyStrFacts.lower_idem|done].
    by rewrite PyStrFacts.lower_is_token.
  - destruct (PyStr.startswith "e" _); [|done].
    destruct rest as [|p1 [|p2 [|p3 rest]]]; try done.
    by destruct (PyStr.int_of (normalize_token p1)),
      (PyStr.int_of (normalize_token p2)), (PyStr.int_of (normalize_token p3)).
Qed.

Lemma apply_lines_ids_ok st lines :
  Forall id_ok (node_index_to_id st) →
  Forall id_ok (node_index_to_id (apply_lines st lines)).
Proof.
  revert st. induction lines as [|l lines IH]; intros st Hok; [done|].
  rewrite apply_lines_cons. apply IH.
  destruct (classify_line l) as [| |node_id xyz| |tri] eqn:Hc; cbn; try done.
  - case_bool_decide; [done|]. cbn. apply Forall_app. split; [done|].
    constructor; [|done]. by eapply classify_vertex_id_ok.
  - by destruct (triangle_in_range _ _).
Qed.

(** *** What the serializer writes for a generated mesh *)

Lemma assigned_id_imported idx node_id xyz :
  id_ok node_id →
  assigned_id true idx (imported_vertex world_inv node_id xyz) = node_id.
Proof.
  intros Hok. destruct (id_ok_head _ Hok) as (rest & ->).
  destruct Hok as (Htok & _ & _).
  unfold assigned_id, read_node_id. cbn -[PyStr.strip is_numeric_id].
  rewrite (PyStrFacts.strip_token _ Htok).
  by destruct (is_numeric_id _).
Qed.

Lemma stamped_invalid_imported node_id xyz :
  id_ok node_id →
  stamped_invalid true (imported_vertex world_inv node_id xyz)
  = negb (is_numeric_id node_id).
Proof.
  intros Hok. destruct (id_ok_head _ Hok) as (rest & ->).
  destruct Hok as (Htok & _ & _).
  unfold stamped_invalid, read_node_id. cbn -[PyStr.strip is_numeric_id].
  by rewrite (PyStrFacts.strip_token _ Htok).
Qed.

Lemma generated_entry bm ids vertices idx node_id xyz :
  has_node_id_layer bm = true →
  verts bm = zip_with (imported_vertex world_inv) ids vertices →
  length ids = length vertices →
  Forall id_ok ids → ids_stable ids →
  ids !! idx = Some node_id → vertices !! idx = Some xyz →
  ∃ v, final_entries bm !! idx = Some (v, node_id)
       ∧ vert_co v = world_inv xyz.
Proof.
  intros Hl Hverts Hlen Hok Hstable Hid Hp.
  assert (verts bm !! idx = Some (imported_vertex world_inv node_id xyz)) as Hv.
  { rewrite Hverts, lookup_zip_with, Hid. cbn. by rewrite Hp. }
  assert (id_ok node_id) as Hidok.
  { eapply Forall_forall in Hok; [done|]. by eapply list_elem_of_lookup_2. }
  destruct Hstable as [(bad & Hbad & Hnum)|Hdense].
  - apply list_elem_of_lookup in Hbad as [j Hj].
    destruct (lookup_lt_is_Some_2 vertices j) as [q Hq].
    { rewrite <- Hlen. by eapply lookup_lt_Some. }
    rewrite final_entries_not_renumbered.
    + rewrite list_lookup_imap, Hv, Hl. cbn.
      rewrite assigned_id_imported by done. by eexists.
    + exists (imported_vertex world_inv bad q). split.
      * apply list_elem_of_lookup. exists j.
        rewrite Hverts, lookup_zip_with, Hj. cbn. by rewrite Hq.
      * rewrite Hl, stamped_invalid_imported, Hnum; [done|].
        eapply Forall_forall in Hok; [done|]. by eapply list_elem_of_lookup_2.
  - destruct (final_entries_lookup bm idx _ Hv)
      as (v' & node_id' & Hentry & Hco & Hcases).
    exists v'. split; [|done]. rewrite Hentry. do 2 f_equal.
    destruct Hcases as [->|(-> & _ & _)].
    + assert (ids !! idx = Some (expected_id idx)) as Hexp.
      { rewrite Hdense, list_lookup_imap, Hid. done. }
      congruence.
    + by rewrite Hl, assigned_id_imported.
Qed.

Lemma generated_vertex_lines bm ids vertices :
  has_node_id_layer bm = true →
  verts bm = zip_with (imported_vertex world_inv) ids vertices →
  length ids = length vertices →
  Forall id_ok ids → ids_stable ids →
  map (λ '(vert, node_id), vertex_line node_id (vert_co vert))
      (final_entries bm)
  = zip_with (λ node_id xyz, vertex_line node_id (world_inv xyz))
             ids vertices.
Proof.
  intros Hl Hverts Hlen Hok Hstable. apply list_eq. intros idx.
  rewrite list_lookup_fmap, lookup_zip_with.
  destruct (ids !! idx) as [node_id|] eqn:Hid; cbn.
  - destruct (lookup_lt_is_Some_2 vertices idx) as [xyz Hp].
    { rewrite <- Hlen. by eapply lookup_lt_Some. }
    rewrite Hp. cbn.
    destruct (generated_entry bm ids vertices idx node_id xyz)
      as (v & -> & Hco); try done.
    cbn. by rewrite Hco.
  - rewrite lookup_ge_None_2; [done|].
    rewrite final_entries_length, Hverts, length_zip_with.
    apply lookup_ge_None in Hid. lia.
Qed.

Lemma emit_faces_triangles tris :
  ∀ lines k,
    foldl emit_face (lines, k) (map triangle_corners tris)
    = (lines ++ imap (λ j tri, triangle_line (k + j) tri) tris,
       (k + length tris)%nat).
Proof.
  induction tris as [|[[a b] c] tris IH]; intros lines k; cbn [map foldl].
  { cbn. by rewrite app_nil_r, Nat.add_0_r. }
  unfold emit_face at 2. cbn [triangle_corners face_triangles foldl].
  rewrite IH. cbn [imap length]. rewrite <- app_assoc. cbn.
  rewrite Nat.add_0_r. f_equal; [|lia]. do 2 f_equal.
  apply imap_ext. intros j tri _. cbn. f_equal. lia.
Qed.

Lemma generated_mesh_lines bm ids vertices tris :
  has_node_id_layer bm = true →
  verts bm = zip_with (imported_vertex world_inv) ids vertices →
  faces bm = map triangle_corners tris →
  length ids = length vertices →
  Forall id_ok ids → ids_stable ids →
  mesh_lines bm
  = zip_with (λ node_id xyz, vertex_line node_id (world_inv xyz))
             ids vertices
    ++ imap (λ j tri, triangle_line (1 + j) tri) tris.
Proof.
  intros Hl Hverts Hfaces Hlen Hok Hstable. unfold mesh_lines.
  rewrite (generated_vertex_lines bm ids vertices) by done.
  by rewrite Hfaces, emit_faces_triangles.
Qed.

End RoundTripFacts.

Section ParseBack.
Context {float : Type} `{!FloatCodec float}.
Variable world_inv : position float → position float.
Implicit Types (st : parsed float) (bm : BMesh float).

Lemma vertex_line_facts node_id xyz :
  id_ok node_id → position_kept world_inv xyz →
  classify_line (vertex_line node_id (world_inv xyz)) = VertexLine node_id xyz
  ∧ vertex_line node_id (world_inv xyz) ≠ ""
  ∧ one_line (vertex_line node_id (world_inv xyz)) = true.
Proof.
  intros Hok Hkept. destruct (id_ok_head _ Hok) as (rest & Hhead).
  destruct Hok as (Htok & Hlower & Hn).
  destruct xyz as [[x y] z]. unfold position_kept in Hkept.
  destruct (world_inv (x, y, z)) as [[x' y'] z'].
  destruct Hkept as ((Htx & Hx) & (Hty & Hy) & (Htz & Hz)).
  unfold vertex_line.
  destruct (LineFacts.four_tokens node_id (float_str x') (float_str y')
              (float_str z') Htok Htx Hty Htz) as (Hstrip & Hsplit & Hone & Hne).
  split; [|done].
  set (line := node_id +:+ " " +:+ float_str x' +:+ " " +:+ float_str y'
               +:+ " " +:+ float_str z') in *.
  assert (PyStr.startswith "#" line = false) as Hhash.
  { subst line. rewrite Hhead, PyStrFacts.append_cons.
    by rewrite PyStrFacts.startswith_char. }
  unfold classify_line. rewrite Hstrip, Hhash, Hsplit.
  apply String.eqb_neq in Hne. rewrite Hne. cbn [orb].
  by rewrite Hlower, Hn, Hx, Hy, Hz.
Qed.

Lemma int_of_normalized_of_nat n :
  PyStr.int_of (normalize_token (PyStr.of_nat n)) = Some (Z.of_nat n).
Proof.
  rewrite LineFacts.normalize_token_decimal
    by auto using PyStrFacts.of_nat_nonempty, PyStrFacts.of_nat_decimal.
  apply PyStrFacts.int_of_of_nat.
Qed.

Lemma face_line_facts k a b c :
  classify_line (face_line k a b c)
  = @FaceLine float (Z.of_nat a, Z.of_nat b, Z.of_nat c)
  ∧ face_line k a b c ≠ ""
  ∧ one_line (face_line k a b c) = true.
Proof.
  set (tag := String "e" (PyStr.of_nat k)).
  assert (is_token tag = true) as Htag.
  { pose proof (PyStrFacts.of_nat_token k) as Ht.
    unfold is_token, no_space, tag in *. cbn.
    by apply andb_true_iff in Ht as [_ ->]. }
  change (face_line k a b c)
    with (tag +:+ " " +:+ PyStr.of_nat (a + 1) +:+ " "
              +:+ PyStr.of_nat (b + 1) +:+ " " +:+ PyStr.of_nat (c + 1)).
  destruct (LineFacts.four_tokens tag (PyStr.of_nat (a + 1))
              (PyStr.of_nat (b + 1)) (PyStr.of_nat (c + 1)) Htag
              (PyStrFacts.of_nat_token _) (PyStrFacts.of_nat_token _)
              (PyStrFacts.of_nat_token _)) as (Hstrip & Hsplit & Hone & Hne).
  split; [|done].
  set (line := tag +:+ " " +:+ PyStr.of_nat (a + 1) +:+ " "
                   +:+ PyStr.of_nat (b + 1) +:+ " " +:+ PyStr.of_nat (c + 1))
    in *.
  assert (PyStr.startswith "#" line = false) as Hhash.
  { subst line tag. rewrite PyStrFacts.append_cons.
    by rewrite PyStrFacts.startswith_char. }
  assert (PyStr.lower tag = tag) as Hlower.
  { subst tag. cbn. f_equal.
    apply LineFacts.lower_decimal, PyStrFacts.of_nat_decimal. }
  unfold classify_line. rewrite Hstrip, Hhash, Hsplit.
  apply String.eqb_neq in Hne. rewrite Hne. cbn [orb].
  rewrite Hlower. subst tag. rewrite !PyStrFacts.startswith_char.
  cbn [Ascii.eqb Bool.eqb].
  rewrite !int_of_normalized_of_nat. do 2 f_equal; [f_equal|]; lia.
Qed.

Lemma triangle_line_facts k tri n :
  triangle_in_range n tri = true →
  classify_line (triangle_line k tri) = @FaceLine float tri
  ∧ triangle_line k tri ≠ ""
  ∧ one_line (triangle_line k tri) = true.
Proof.
  destruct tri as [[a b] c]. unfold triangle_in_range, index_in_range.
  rewrite !andb_true_iff. intros [[[??] [??]] [??]].
  unfold triangle_line.
  destruct (face_line_facts k (Z.to_nat a) (Z.to_nat b) (Z.to_nat c))
    as (Hc & ? & ?).
  split; [|done]. rewrite Hc. do 2 f_equal; [f_equal|]; lia.
Qed.

Lemma apply_vertex_lines ids :
  ∀ ps st,
    length ids = length ps →
    Forall id_ok ids → Forall (position_kept world_inv) ps →
    parsed_wf st → NoDup (node_index_to_id st ++ ids) →
    let st' :=
      apply_lines st
        (zip_with (λ node_id xyz, vertex_line node_id (world_inv xyz)) ids ps)
    in
    vertices st' = vertices st ++ ps
    ∧ node_index_to_id st' = node_index_to_id st ++ ids
    ∧ indices st' = indices st
    ∧ parsed_wf st'.
Proof.
  induction ids as [|node_id ids IH]; intros ps st Hlen Hok Hkept Hwf Hnd.
  { destruct ps; [|done]. cbn. by rewrite !app_nil_r. }
  destruct ps as [|xyz ps]; [done|]. cbn [zip_with].
  rewrite apply_lines_cons.
  inversion Hok as [|? ? Hok1 Hok']; subst.
  inversion Hkept as [|? ? Hkept1 Hkept']; subst.
  destruct (vertex_line_facts node_id xyz Hok1 Hkept1) as (-> & _ & _).
  pose proof (apply_line_wf st (VertexLine node_id xyz) Hwf) as Hwf'.
  cbn in Hwf' |- *.
  case_bool_decide as Hin.
  { destruct Hin as [i Hi]. apply (wf_dict _ Hwf) in Hi.
    apply NoDup_app in Hnd as (_ & Hdisj & _).
    exfalso. apply (Hdisj node_id); [by eapply list_elem_of_lookup_2|left]. }
  edestruct (IH ps) as (Hv & Hi & Hf & Hwf''); [| | |exact Hwf'| |].
  - cbn in Hlen. lia.
  - done.
  - done.
  - cbn. by rewrite <- app_assoc.
  - cbn in Hv, Hi, Hf. rewrite Hv, Hi, Hf, <- !app_assoc. done.
Qed.

Lemma apply_triangle_lines tris :
  ∀ k st,
    Forall (λ tri, triangle_in_range (length (vertices st)) tri = true) tris →
    apply_lines st (imap (λ j tri, triangle_line (k + j) tri) tris)
    = {| vertices := vertices st; indices := indices st ++ tris;
         node_index_to_id := node_index_to_id st;
         node_id_to_index := node_id_to_index st |}.
Proof.
  induction tris as [|tri tris IH]; intros k st Hrange.
  { cbn. rewrite app_nil_r. by destruct st. }
  inversion Hrange as [|? ? Htri Hrange']; subst.
  cbn [imap]. rewrite apply_lines_cons.
  destruct (triangle_line_facts (k + 0) tri _ Htri) as (-> & _ & _).
  cbn [apply_line]. rewrite Htri.
  rewrite (imap_ext _ (λ j tri, triangle_line (S k + j) tri))
    by (intros; cbn; f_equal; lia).
  rewrite IH by done. cbn. by rewrite <- app_assoc.
Qed.

Lemma generated_lines_well_formed ids ps tris k n :
  length ids = length ps →
  Forall id_ok ids → Forall (position_kept world_inv) ps →
  Forall (λ tri, triangle_in_range n tri = true) tris →
  Forall (λ l, l ≠ "" ∧ one_line l = true)
    (zip_with (λ node_id xyz, vertex_line node_id (world_inv xyz)) ids ps
     ++ imap (λ j tri, triangle_line (k + j) tri) tris).
Proof.
  intros Hlen Hok Hkept Hrange. apply Forall_app. split.
  - apply Forall_forall. intros l [i Hi]%list_elem_of_lookup.
    apply lookup_zip_with_Some in Hi as (node_id & xyz & -> & Hid & Hp).
    eapply Forall_lookup_1 in Hok; [|done].
    eapply Forall_lookup_1 in Hkept; [|done].
    by destruct (vertex_line_facts node_id xyz Hok Hkept) as (_ & ? & ?).
  - apply Forall_forall. intros l [i Hi]%list_elem_of_lookup.
    rewrite list_lookup_imap in Hi.
    destruct (tris !! i) as [tri|] eqn:Htri; [|done].
    injection Hi as <-. eapply Forall_lookup_1 in Hrange; [|done].
    by destruct (triangle_line_facts (k + i) tri n Hrange) as (_ & ? & ?).
Qed.

(** C1 (amended). For a document [doc] that [parse_vpg_text] produced:
    when its vertex ids are left alone by the serializer (they are
    [n1 .. nK] in order, or one of them is not of the [n<number>]
    pattern), when every coordinate is stored by the mesh and written
    in a form that [float] reads back as the same value, and when every
    face names three different vertices and no two faces are on the
    same three vertices, then the document is serialized, and parsing
    the serialized text gives the same vertex ids, the same positions
    and the same face index triples. Without the condition on the faces
    there is no text: [serialize] fails with [ValueError]. *)
Theorem round_trip text doc :
  parse_vpg_text text = Ok doc →
  ids_stable (node_index_to_id doc) →
  Forall (position_kept world_inv) (vertices doc) →
  (faces_buildable [] (indices doc) = true →
   ∃ text' doc',
     serialize world_inv doc = Ok text'
     ∧ parse_vpg_text text' = Ok doc'
     ∧ node_index_to_id doc' = node_index_to_id doc
     ∧ vertices doc' = vertices doc
     ∧ indices doc' = indices doc)
  ∧ (faces_buildable [] (indices doc) = false →
     serialize world_inv doc = Raise ValueError).
Proof.
  intros Hdoc Hstable Hkept.
  rewrite parse_vpg_text_apply in Hdoc. injection Hdoc as Hdoc.
  assert (parsed_wf doc) as Hwf
    by (rewrite <- Hdoc; apply apply_lines_wf, parsed_empty_wf).
  assert (Forall id_ok (node_index_to_id doc)) as Hok
    by (rewrite <- Hdoc; by apply apply_lines_ids_ok).
  destruct Hwf as [Hlen Hdict Hnd Hfaces].
  unfold serialize.
  rewrite (generate_mesh_buildable world_inv _ _ _ Hnd Hlen Hfaces).
  split; intros ->; [|done]. cbn.
  set (bm := {| has_node_id_layer := true; has_init_node_id_layer := true;
                verts := zip_with (imported_vertex world_inv)
                           (node_index_to_id doc) (vertices doc);
                faces := map triangle_corners (indices doc) |}).
  eexists _, _. split; [done|].
  rewrite (generated_mesh_lines world_inv bm _ _ _ eq_refl eq_refl eq_refl
             Hlen Hok Hstable).
  split; [apply parse_vpg_text_apply|].
  unfold newline. rewrite PyStrFacts.splitlines_join
    by (by eapply generated_lines_well_formed).
  rewrite apply_lines_app.
  destruct (apply_vertex_lines (node_index_to_id doc) (vertices doc)
              parsed_empty Hlen Hok Hkept parsed_empty_wf Hnd)
    as (Hv & Hi & Hf & _).
  rewrite apply_triangle_lines by (by rewrite Hv).
  cbn. by rewrite Hv, Hi, Hf.
Qed.

End ParseBack.

Section RenumberedRoundTrip.
Context {float : Type} `{!FloatCodec float}.
Variable world_inv : position float → position float.
Implicit Types (st : id_scan float) (bm : BMesh float).

Ltac settle_needs_renumber :=
  cbn -[String.eqb expected_id];
  repeat match goal with
    | |- context [negb ?b] => destruct b; cbn -[String.eqb expected_id]
    | |- context [bool_decide ?P] => destruct (bool_decide P)
    end;
  try done.

Lemma scan_vertex_needs_renumber_mono hl st idx v :
  needs_renumber st = true →
  needs_renumber (scan_vertex hl st idx v) = true.
Proof.
  intros Hn. unfold scan_vertex. rewrite Hn.
  destruct (read_node_id hl v) as [[|c s]|]; settle_needs_renumber.
Qed.

Lemma scan_vertex_needs_renumber_diff hl st idx v :
  assigned_id hl idx v ≠ expected_id idx →
  needs_renumber (scan_vertex hl st idx v) = true.
Proof.
  unfold assigned_id, scan_vertex.
  destruct (read_node_id hl v) as [[|c s]|]; try done.
  destruct (is_numeric_id (String c s)); cbn -[String.eqb expected_id].
  - destruct (String.eqb_spec (String c s) (String "n" s)) as [Heq|_];
      cbn -[String.eqb expected_id]; intros Hne%String.eqb_neq;
      rewrite ?Heq, Hne; done.
  - intros Hne%String.eqb_neq. by rewrite Hne.
Qed.

Lemma scan_vertices_needs_renumber hl vs :
  ∀ st idx i v,
    vs !! i = Some v →
    assigned_id hl (idx + i) v ≠ expected_id (idx + i) →
    needs_renumber (scan_vertices hl st idx vs) = true.
Proof.
  assert (∀ ws st idx, needs_renumber st = true →
            needs_renumber (scan_vertices hl st idx ws) = true) as Hmono.
  { induction ws as [|w ws IH]; intros st idx Hn; [done|].
    cbn. by apply IH, scan_vertex_needs_renumber_mono. }
  induction vs as [|w vs IH]; intros st idx i v Hv Hne; [done|]. cbn.
  destruct i as [|i]; cbn in Hv.
  - injection Hv as ->. rewrite Nat.add_0_r in Hne.
    by apply Hmono, scan_vertex_needs_renumber_diff.
  - apply (IH _ (S idx) i v Hv).
    by replace (S idx + i)%nat with (idx + S i)%nat by lia.
Qed.

Lemma final_entries_renumbered bm idx v :
  forallb (λ v, negb (stamped_invalid (has_node_id_layer bm) v)) (verts bm)
  = true →
  verts bm !! idx = Some v →
  assigned_id (has_node_id_layer bm) idx v ≠ expected_id idx →
  final_entries bm
  = imap (λ i w, (stamp (has_node_id_layer bm) (has_init_node_id_layer bm)
                    (expected_id i) w, expected_id i)) (verts bm).
Proof.
  intros Hnum Hv Hne. unfold final_entries.
  rewrite scan_vertices_numeric, Hnum.
  rewrite (scan_vertices_needs_renumber _ _ _ 0%nat idx v Hv Hne).
  cbn [numeric_pattern id_scan_init andb].
  rewrite scanned_entries. unfold renumber. apply list_eq. intros i.
  rewrite !list_lookup_imap. by destruct (verts bm !! i).
Qed.

Lemma expected_id_ok idx : id_ok (expected_id idx).
Proof.
  split; [apply expected_id_token|]. split.
  - unfold expected_id. cbn. f_equal.
    apply LineFacts.lower_decimal, PyStrFacts.of_nat_decimal.
  - unfold expected_id. by rewrite PyStrFacts.startswith_char.
Qed.

Lemma expected_ids_nodup {A} (xs : list A) :
  NoDup (imap (λ idx _, expected_id idx) xs).
Proof.
  apply NoDup_alt. intros i j node_id.
  rewrite !list_lookup_imap.
  destruct (xs !! i), (xs !! j); cbn; try done.
  intros Hi Hj. apply expected_id_inj. congruence.
Qed.

(** The other half of the round trip: a document whose ids are all of
    the numeric pattern but are not [n1 .. nK] in order comes back with
    the ids [n1 .. nK], and with the same positions and faces. *)
Lemma round_trip_renumbered text doc text' idx node_id :
  parse_vpg_text text = Ok doc →
  Forall (λ node_id, is_numeric_id node_id = true) (node_index_to_id doc) →
  node_index_to_id doc !! idx = Some node_id →
  node_id ≠ expected_id idx →
  Forall (position_kept world_inv) (vertices doc) →
  serialize world_inv doc = Ok text' →
  ∃ doc', parse_vpg_text text' = Ok doc'
    ∧ node_index_to_id doc'
      = imap (λ idx _, expected_id idx) (node_index_to_id doc)
    ∧ vertices doc' = vertices doc
    ∧ indices doc' = indices doc.
Proof.
  intros Hdoc Hnum Hidx Hne Hkept Hser.
  rewrite parse_vpg_text_apply in Hdoc. injection Hdoc as Hdoc.
  assert (parsed_wf doc) as Hwf
    by (rewrite <- Hdoc; apply apply_lines_wf, parsed_empty_wf).
  assert (Forall id_ok (node_index_to_id doc)) as Hok
    by (rewrite <- Hdoc; by apply apply_lines_ids_ok).
  destruct Hwf as [Hlen Hdict Hnd Hfaces].
  unfold serialize in Hser.
  destruct (generate_mesh _ _ _ _) as [bm|] eqn:Hbm; [|done].
  cbn in Hser. injection Hser as <-.
  destruct (generate_mesh_ok world_inv _ _ _ bm Hnd Hlen Hfaces Hbm)
    as (Hl & Hverts & Hfs).
  set (ids := node_index_to_id doc) in *.
  set (ids' := imap (λ idx (_ : string), expected_id idx) ids).
  destruct (lookup_lt_is_Some_2 (vertices doc) idx) as [xyz Hxyz].
  { rewrite <- Hlen. by eapply lookup_lt_Some. }
  assert (final_entries bm
          = imap (λ i w, (stamp true (has_init_node_id_layer bm)
                            (expected_id i) w, expected_id i)) (verts bm))
    as Hfinal.
  { rewrite <- Hl.
    apply (final_entries_renumbered bm idx
             (imported_vertex world_inv node_id xyz)).
    - rewrite Hl, Hverts. apply forallb_forall.
      intros v [i Hi]%list_elem_of_In%list_elem_of_lookup.
      apply lookup_zip_with_Some in Hi as (id & p & -> & Hid & _).
      rewrite (stamped_invalid_imported world_inv)
        by (by eapply Forall_lookup_1 in Hok).
      eapply Forall_lookup_1 in Hnum; [|done]. by rewrite Hnum.
    - rewrite Hverts, lookup_zip_with, Hidx. cbn. by rewrite Hxyz.
    - rewrite Hl, (assigned_id_imported world_inv); [done|].
      by eapply Forall_lookup_1 in Hok. }
  assert (mesh_lines bm
          = zip_with (λ node_id xyz, vertex_line node_id (world_inv xyz))
              ids' (vertices doc)
            ++ imap (λ j tri, triangle_line (1 + j) tri) (indices doc))
    as Hlines.
  { unfold mesh_lines. rewrite Hfinal, Hfs, emit_faces_triangles. cbn [fst].
    f_equal. apply list_eq. intros i.
    rewrite list_lookup_fmap, list_lookup_imap, Hverts, !lookup_zip_with.
    subst ids'. rewrite list_lookup_imap.
    destruct (ids !! i); cbn; [|done]. by destruct (vertices doc !! i). }
  assert (length ids' = length (vertices doc)) as Hlen'
    by (subst ids'; by rewrite length_imap).
  assert (Forall id_ok ids') as Hok'.
  { apply Forall_forall. intros id [i Hi]%list_elem_of_lookup.
    subst ids'. rewrite list_lookup_imap in Hi.
    destruct (ids !! i); [|done]. injection Hi as <-. apply expected_id_ok. }
  rewrite Hlines.
  eexists. split; [apply parse_vpg_text_apply|].
  unfold newline. rewrite PyStrFacts.splitlines_join
    by (by eapply generated_lines_well_formed).
  rewrite apply_lines_app.
  destruct (apply_vertex_lines world_inv ids' (vertices doc)
              parsed_empty Hlen' Hok' Hkept parsed_empty_wf
              (expected_ids_nodup ids))
    as (Hv & Hi & Hf & _).
  rewrite apply_triangle_lines by (by rewrite Hv).
  cbn. by rewrite Hv, Hi, Hf.
Qed.

End RenumberedRoundTrip.

(** ** The integral codec keeps every coordinate *)

Module IntegralFloatFacts.
Import PyStr PyStrFacts IntegralFloat.

Lemma plain_not_space c : plain_char c = true → isspace c = false.
Proof. by_cases_on_char c. Qed.

Lemma plain_not_dot c : plain_char c = true → Ascii.eqb c "." = false.
Proof. by_cases_on_char c. Qed.

Lemma string_of_int_plain d :
  all_chars plain_char (NilEmpty.string_of_int d) = true.
Proof.
  assert (∀ u, all_chars plain_char (NilEmpty.string_of_uint u) = true) as Hu.
  { intros u. eapply all_chars_impl; [|apply string_of_uint_decimal].
    intros c Hc. unfold plain_char. by rewrite Hc. }
  destruct d as [u|u]; cbn; [apply Hu|]. apply Hu.
Qed.

Lemma split_dot_plain s rest :
  all_chars plain_char s = true →
  split_dot (s +:+ String "." rest) = (s, Some rest).
Proof.
  induction s as [|c s IH]; [done|]. cbn [all_chars].
  intros [Hc Hs]%andb_true_iff. rewrite append_cons. cbn [split_dot].
  by rewrite (plain_not_dot _ Hc), IH.
Qed.

Lemma to_uint_nonnil p : Pos.to_uint p ≠ Decimal.Nil.
Proof.
  intros Heq. pose proof (DecimalN.Unsigned.of_to (N.pos p)) as Hp.
  cbn [N.to_uint] in Hp. rewrite Heq in Hp. done.
Qed.

Lemma unsigned_value_uint u :
  u ≠ Decimal.Nil →
  unsigned_value (NilEmpty.string_of_uint u) = Some (Z.of_uint u).
Proof.
  intros Hne. unfold unsigned_value.
  rewrite int_digits_decimal; [| apply string_of_uint_decimal |].
  - cbn. by rewrite NilEmpty.usu.
  - right. by destruct u.
Qed.

Lemma of_uint_to_uint p : Z.of_uint (Pos.to_uint p) = Z.pos p.
Proof.
  change (Z.of_uint (Pos.to_uint p))
    with (Z.of_N (N.of_uint (N.to_uint (N.pos p)))).
  by rewrite DecimalN.Unsigned.of_to.
Qed.

Lemma int_of_string_of_int z :
  int_of (NilEmpty.string_of_int (Z.to_int z)) = Some z.
Proof.
  unfold int_of, strip.
  rewrite strip_by_none.
  2:{ eapply all_chars_impl; [|apply string_of_int_plain].
      intros c Hc. by rewrite (plain_not_space _ Hc). }
  destruct z as [|p|p]; cbn [Z.to_int NilEmpty.string_of_int].
  - done.
  - pose proof (unsigned_value_uint _ (to_uint_nonnil p)) as Hv.
    rewrite of_uint_to_uint in Hv.
    pose proof (string_of_uint_decimal (Pos.to_uint p)) as Hd.
    destruct (NilEmpty.string_of_uint (Pos.to_uint p)) as [|c s]; [done|].
    cbn in Hd. apply andb_true_iff in Hd as [Hc _].
    destruct c as [[] [] [] [] [] [] [] []]; try done.
  - rewrite (unsigned_value_uint _ (to_uint_nonnil p)), of_uint_to_uint. done.
Qed.

Lemma to_string_kept z :
  is_token (to_string z) = true ∧ of_string (to_string z) = Some z.
Proof.
  pose proof (string_of_int_plain (Z.to_int z)) as Hplain.
  assert (is_token (to_string z) = true) as Htok.
  { unfold to_string. apply token_intro.
    - destruct (NilEmpty.string_of_int _); done.
    - unfold no_space. rewrite all_chars_app.
      apply andb_true_iff. split; [|done].
      eapply all_chars_impl; [|exact Hplain].
      intros c Hc. by rewrite (plain_not_space _ Hc). }
  split; [done|]. unfold of_string.
  rewrite (strip_token _ Htok). unfold to_string.
  rewrite split_dot_plain by done. cbn [all_chars Ascii.eqb Bool.eqb andb].
  apply int_of_string_of_int.
Qed.

Lemma every_position_kept (xyz : position Z) :
  @position_kept Z codec id xyz.
Proof.
  destruct xyz as [[x y] z]. cbn.
  repeat split; apply to_string_kept.
Qed.

End IntegralFloatFacts.

(** ** The statements on the sample inputs *)

Section SampleRuns.
Import Samples.
#[local] Existing Instance IntegralFloat.codec.

(** The triangle goes through the mesh and back unchanged. *)
Lemma round_trip_witness :
  ∃ text' doc',
    serialize id triangle_doc = Ok text'
    ∧ parse_vpg_text text' = Ok doc'
    ∧ node_index_to_id doc' = node_index_to_id triangle_doc
    ∧ vertices doc' = vertices triangle_doc
    ∧ indices doc' = indices triangle_doc.
Proof.
  apply (round_trip id triangle_text triangle_doc).
  - vm_compute. reflexivity.
  - right. vm_compute. reflexivity.
  - repeat constructor.
  - vm_compute. reflexivity.
Defined.

(** Each condition of the round trip is needed. A single vertex with
    the id [n5] comes back with the id [n1]; a vertex of an object moved
    by one along the first axis comes back at another position; and
    the triangle given twice is not serialized at all. *)
Lemma round_trip_needs_its_conditions :
  (∃ doc text' doc',
     parse_vpg_text sparse_text = Ok doc
     ∧ serialize id doc = Ok text'
     ∧ parse_vpg_text text' = Ok doc'
     ∧ node_index_to_id doc = ["n5"]
     ∧ node_index_to_id doc' = ["n1"]
     ∧ node_index_to_id doc' ≠ node_index_to_id doc)
  ∧ (∃ doc text' doc',
       parse_vpg_text "n1 0 0 0" = Ok doc
       ∧ serialize shift_x doc = Ok text'
       ∧ text' = "n1 -1.0 0.0 0.0"
       ∧ parse_vpg_text text' = Ok doc'
       ∧ node_index_to_id doc' = node_index_to_id doc
       ∧ vertices doc = [(0, 0, 0)]
       ∧ vertices doc' = [(-1, 0, 0)]
       ∧ vertices doc' ≠ vertices doc)
  ∧ (∃ doc,
       parse_vpg_text repeated_face_text = Ok doc
       ∧ node_index_to_id doc = ["n1"; "n2"; "n3"]
       ∧ indices doc = [(0, 1, 2); (2, 0, 1)]
       ∧ serialize id doc = Raise ValueError
       ∧ ¬ ∃ text', serialize id doc = Ok text').
Proof.
  split; [|split].
  - eexists _, _, _. split; [vm_compute; reflexivity|].
    split; [vm_compute; reflexivity|].
    split; [vm_compute; reflexivity|].
    split; [reflexivity|]. split; [reflexivity|]. discriminate.
  - eexists _, _, _. split; [vm_compute; reflexivity|].
    split; [vm_compute; reflexivity|].
    split; [reflexivity|].
    split; [vm_compute; reflexivity|].
    split; [reflexivity|]. split; [reflexivity|]. split; [reflexivity|].
    discriminate.
  - eexists. split; [vm_compute; reflexivity|].
    split; [reflexivity|]. split; [reflexivity|].
    split; [vm_compute; reflexivity|].
    intros [text' H]. vm_compute in H. discriminate.
Qed.

(** Two valid vertex lines around a malformed one give two vertices. *)
Lemma parse_recovers_witness :
  ∃ doc, parse_vpg_text recovered_text = Ok doc
    ∧ count_lines is_malformed_vertex_line (PyStr.splitlines recovered_text)
      = 1%nat
    ∧ length (vertices doc) = 2%nat.
Proof.
  destruct (parse_recovers_line_by_line recovered_text)
    as (doc & Hdoc & _ & Hn).
  exists doc. split; [exact Hdoc|]. split; [vm_compute; reflexivity|].
  rewrite Hn; [vm_compute; reflexivity|].
  apply (bool_decide_unpack _). vm_compute. exact I.
Defined.

(** Two valid vertex lines with the same id and one malformed line give
    one vertex, not two. *)
Lemma duplicate_id_loses_a_vertex :
  count_lines is_malformed_vertex_line (PyStr.splitlines duplicate_text)
  = 1%nat
  ∧ count_lines is_valid_vertex_line (PyStr.splitlines duplicate_text)
    = 2%nat
  ∧ ∃ doc, parse_vpg_text duplicate_text = Ok doc
           ∧ length (vertices doc) = 1%nat.
Proof.
  split; [vm_compute; reflexivity|]. split; [vm_compute; reflexivity|].
  eexists. split; [vm_compute; reflexivity|]. reflexivity.
Qed.

(** A face line with the 1-based index [0] leaves no trace. *)
Lemma face_with_bad_index_witness :
  ∃ doc, parse_vpg_text zero_index_text = Ok doc
    ∧ parse_lines parsed_empty ["n1 0 0 0"; "n2 1 1 1"] = Ok doc
    ∧ Forall (λ tri, triangle_in_range (length (vertices doc)) tri = true)
             (indices doc).
Proof.
  destruct (parse_vpg_text zero_index_text) as [doc|] eqn:Hdoc;
    [|vm_compute in Hdoc; discriminate].
  exists doc. split; [reflexivity|].
  apply (face_with_bad_index_dropped zero_index_text
           ["n1 0 0 0"] "e1 1 0 1" ["n2 1 1 1"] "1" "0" "1" "0" doc).
  - vm_compute. reflexivity.
  - vm_compute. reflexivity.
  - exact Hdoc.
  - apply (bool_decide_unpack _). vm_compute. exact I.
  - vm_compute. left. reflexivity.
Defined.

(** A face line before the vertex it names is dropped. *)
Lemma face_before_vertex_witness :
  (∃ doc, parse_vpg_text early_face_text = Ok doc
          ∧ parse_lines parsed_empty ([] ++ ["n1 0 0 0"]) = Ok doc)
  ∧ (∀ zero, float_of "0" = Some zero →
       ∃ doc, parse_vpg_text (unlines ["e1 1 1 1"; "n1 0 0 0"]) = Ok doc
              ∧ vertices doc = [(zero, zero, zero)] ∧ indices doc = []).
Proof.
  apply (face_checked_against_vertices_so_far early_face_text
           [] "e1 1 1 1" ["n1 0 0 0"] "1" "1" "1" 0 0 0 parsed_empty).
  - vm_compute. reflexivity.
  - vm_compute. reflexivity.
  - vm_compute. reflexivity.
  - vm_compute. reflexivity.
  - vm_compute. reflexivity.
  - reflexivity.
Defined.

(** The stamps of [dense_mesh] are [n1], [n2]. *)
Lemma dense_mesh_is_dense : dense_ids dense_mesh.
Proof.
  split; [reflexivity|]. intros [|[|idx]] v; cbn; try discriminate;
    intros [= <-]; reflexivity.
Defined.

(** Moving the two vertices of [dense_mesh] keeps [n1], [n2]: the text
    written for the moved mesh is [n1 5.0 5.0 5.0], [n2 1.0 2.0 3.0]. *)
Lemma moving_vertices_witness :
  (mesh_to_vpg_text dense_mesh_moved false None).1
  = unlines ["n1 5.0 5.0 5.0"; "n2 1.0 2.0 3.0"]
  ∧ (∀ using_edit_bmesh base_text,
       (mesh_to_vpg_text dense_mesh_moved using_edit_bmesh base_text).1
       = let lines :=
           imap (λ idx v', vertex_line (expected_id idx) (vert_co v'))
                (verts dense_mesh_moved)
           ++ imap (λ j '(a, b, c), face_line (S j) a b c)
                (concat (map face_triangles (faces dense_mesh_moved))) in
         match base_text with
         | Some base =>
             if String.eqb base "" then unlines lines
             else _merge_geometry_with_existing base lines
         | None => unlines lines
         end)
  ∧ emitted_ids dense_mesh_moved = emitted_ids dense_mesh
  ∧ Forall2 (λ v node_id, vert_node_id v = Some node_id)
            (verts dense_mesh) (emitted_ids dense_mesh_moved)
  ∧ (∀ idx v', verts dense_mesh_moved !! idx = Some v' →
       mesh_lines dense_mesh_moved !! idx
       = Some (vertex_line (expected_id idx) (vert_co v')))
  ∧ ∀ using_edit_bmesh base_text,
      (mesh_to_vpg_text dense_mesh_moved using_edit_bmesh base_text).2
      = dense_mesh_moved.
Proof.
  split; [vm_compute; reflexivity|].
  apply (moving_vertices_keeps_ids dense_mesh dense_mesh_moved).
  - exact dense_mesh_is_dense.
  - repeat split; repeat constructor.
Defined.

(** Next to the stamp [foo], the sparse stamp [n5] is kept. *)
Lemma invalid_stamp_witness :
  ∃ node_id,
    final_entries custom_mesh !! 0%nat = Some (stamped "n5" (0, 0, 0), node_id)
    ∧ node_id = "n5".
Proof.
  apply (invalid_stamp_blocks_renumbering custom_mesh).
  - exists (stamped "foo" (1, 0, 0)). split; [|vm_compute; reflexivity].
    apply list_elem_of_lookup. exists 1%nat. reflexivity.
  - reflexivity.
Defined.

(** The stamp [foo] is written as it is, not as [n2]; and next to a vertex
    without a stamp the sparse stamp [n5] is renumbered. *)
Lemma invalid_stamp_is_kept :
  stamped_invalid true (stamped "foo" (1, 0, 0)) = true
  ∧ emitted_ids custom_mesh = ["n5"; "foo"]
  ∧ emitted_ids custom_mesh !! 1%nat ≠ Some (expected_id 1)
  ∧ emitted_ids unstamped_mesh = ["n1"; "n2"].
Proof.
  split; [vm_compute; reflexivity|]. split; [vm_compute; reflexivity|].
  split; [vm_compute; discriminate|]. vm_compute. reflexivity.
Qed.

(** The header example, by the block case of the merge. *)
Lemma merge_witness :
  _merge_geometry_with_existing header_text ["n1 1 1 1"]
  = unlines (["# header"] ++ [""] ++ ["n1 1 1 1"] ++ [] ++ []).
Proof.
  destruct (merge_replaces_geometry_block header_text ["n1 1 1 1"])
    as (Hblock & _); [discriminate|].
  apply (Hblock ["# header"] ["n1 0 0 0"; "e1 1 1 1"] []
           "n1 0 0 0" "e1 1 1 1").
  - vm_compute. reflexivity.
  - repeat constructor.
  - constructor.
  - reflexivity.
  - vm_compute. reflexivity.
  - reflexivity.
  - vm_compute. reflexivity.
Defined.

(** Merging no lines returns the base text, geometry block included. *)
Lemma merging_no_lines_keeps_the_block :
  _merge_geometry_with_existing (unlines ["# header"; "n1 0 0 0"]) []
  = unlines ["# header"; "n1 0 0 0"]
  ∧ _merge_geometry_with_existing (unlines ["# header"; "n1 0 0 0"]) []
    ≠ unlines (["# header"] ++ [] ++ []).
Proof. split; [reflexivity|]. vm_compute. discriminate. Qed.

(** The orphan [a.vpg] is forgotten by the cleanup. *)
Lemma cleanup_witness :
  (∀ passes,
     forgotten (Nat.iter (S passes) _cleanup_orphan_internal_texts
                  orphan_state) "a.vpg")
  ∧ history_stack (_cleanup_orphan_internal_texts orphan_state)
    = history_stack orphan_state
  ∧ history_stack_idx (_cleanup_orphan_internal_texts orphan_state)
    = history_stack_idx orphan_state.
Proof.
  apply (cleanup_deletes_orphans orphan_state "a.vpg" "/models/a.vpg").
  - vm_compute. reflexivity.
  - vm_compute. reflexivity.
  - apply (bool_decide_unpack _). vm_compute. exact I.
Defined.

(** The undo history still holds the entry of the orphan [a.vpg] after
    the cleanup. *)
Lemma cleanup_keeps_history_entries :
  tracked_path orphan_state "a.vpg" = Some "/models/a.vpg"
  ∧ ("/models/a.vpg" ∉ _collect_active_vpg_paths orphan_state)
  ∧ ∃ entry, entry ∈ history_stack (_cleanup_orphan_internal_texts orphan_state)
             ∧ entry !! "a.vpg" = Some "n1 0 0 0".
Proof.
  split; [vm_compute; reflexivity|]. split.
  - apply (bool_decide_unpack _). vm_compute. exact I.
  - exists {[ "a.vpg" := "n1 0 0 0" ]}. split; [|vm_compute; reflexivity].
    apply (bool_decide_unpack _). vm_compute. exact I.
Qed.

(** A mesh whose cached text is what its geometry serializes to. *)
Lemma sync_witness :
  ∃ σ', _sync_object_text synced_object synced_state = (false, σ')
    ∧ (∀ name, mesh_data <$> meshes σ' !! name
               = mesh_data <$> meshes synced_state !! name)
    ∧ texts σ' = texts synced_state
    ∧ scene σ' = scene synced_state
    ∧ text_area σ' = text_area synced_state
    ∧ history_stack σ' = history_stack synced_state.
Proof.
  apply (sync_without_change_is_silent synced_state synced_object
           "b_mesh" synced_mesh "/models/b.vpg").
  - reflexivity.
  - vm_compute. reflexivity.
  - reflexivity.
  - vm_compute. reflexivity.
Defined.

(** A file that is not UTF-8 makes [read_file] raise. *)
Lemma read_file_raises_on_undecodable_file :
  read_file latin1_file_system "/models/latin1.vpg" = Raise UnicodeDecodeError
  ∧ ¬ (∀ fs filepath, ∃ content, read_file fs filepath = Ok content).
Proof.
  split; [reflexivity|]. intros Hnever.
  destruct (Hnever latin1_file_system "/models/latin1.vpg") as [content H].
  vm_compute in H. discriminate.
Qed.

End SampleRuns.

(** * More facts: the parsers *)

Module MoreStrFacts.
Import PyStr PyStrFacts.

Lemma lstrip_by_head_false p s : head_is p (lstrip_by p s) = false.
Proof.
  induction s as [|c s IH]; cbn; [done|].
  destruct (p c) eqn:Hc; [done|]. cbn. done.
Qed.

Lemma rstrip_by_head p c s :
  rstrip_by p (String c s) = "" ∨ ∃ r, rstrip_by p (String c s) = String c r.
Proof.
  cbn. destruct (rstrip_by p s); [|by eauto].
  destruct (p c); eauto.
Qed.

(** The first character of a stripped line is not white space. *)
Lemma strip_head s c r : strip s = String c r → isspace c = false.
Proof.
  unfold strip, strip_by. pose proof (lstrip_by_head_false isspace s) as Hh.
  destruct (lstrip_by isspace s) as [|d t]; [done|]. cbn in Hh.
  destruct (rstrip_by_head isspace d t) as [->|[r' ->]]; [done|].
  by intros [= <- _].
Qed.

Lemma split_head c s :
  isspace c = false → ∃ w ws, split (String c s) = String c w :: ws.
Proof.
  intros Hc. cbn. rewrite Hc.
  destruct (head_is _ s); [|by eauto].
  destruct (split s); eauto.
Qed.

Lemma rstrip_by_snoc p s c :
  p c = true → rstrip_by p (s +:+ String c "") = rstrip_by p s.
Proof.
  intros Hc. induction s as [|d s IH].
  - rewrite append_nil. cbn. by rewrite Hc.
  - rewrite append_cons. cbn. by rewrite IH.
Qed.

Lemma lstrip_by_snoc p s c :
  p c = true →
  lstrip_by p (s +:+ String c "")
  = match lstrip_by p s with
    | "" => ""
    | r => r +:+ String c ""
    end.
Proof.
  intros Hc. induction s as [|d s IH].
  - rewrite append_nil. cbn. by rewrite Hc.
  - rewrite append_cons. cbn. destruct (p d); [done|]. by rewrite append_cons.
Qed.

Lemma strip_snoc s c : isspace c = true → strip (s +:+ String c "") = strip s.
Proof.
  intros Hc. unfold strip, strip_by. rewrite lstrip_by_snoc by done.
  destruct (lstrip_by isspace s) as [|d r] eqn:Hl; [done|].
  by rewrite rstrip_by_snoc.
Qed.

Lemma splitlines_lines_one_line s : Forall (λ l, one_line l = true) (splitlines s).
Proof.
  assert (∀ n s, String.length s < n → Forall (λ l, one_line l = true) (splitlines s))%nat
    as Hgen; [|apply (Hgen (S (String.length s))); lia].
  clear s. induction n as [|n IH]; intros s Hn; [lia|].
  destruct s as [|c s]; [constructor|]. cbn in Hn. cbn [splitlines].
  destruct (is_linebreak c) eqn:Hc.
  - constructor; [done|]. destruct s as [|d s']; [constructor|].
    destruct (is_cr c && is_lf d); apply IH; cbn in *; lia.
  - pose proof (IH s ltac:(lia)) as Hs.
    destruct (splitlines s) as [|l ls].
    + repeat constructor. unfold one_line. cbn. by rewrite Hc.
    + inversion Hs; subst. constructor; [|done].
      unfold one_line in *. cbn. by rewrite Hc.
Qed.

(** Joining lines and splitting again gives the lines back, up to an
    empty last line. *)
Lemma splitlines_join_any lines :
  Forall (λ l, one_line l = true) lines →
  ∃ tail, lines = splitlines (join (String "010" "") lines) ++ tail
          ∧ (tail = [] ∨ tail = [""]).
Proof.
  induction 1 as [|l lines Hl Hrest IH].
  { exists []. by split; [|left]. }
  destruct lines as [|l' lines].
  - cbn. destruct (decide (l = "")) as [->|Hne].
    + exists [""]. by split; [|right].
    + exists []. rewrite splitlines_one_line by done. by split; [|left].
  - destruct IH as (tail & Heq & Htail). exists tail. split; [|done].
    rewrite join_cons, append_cons, append_nil.
    rewrite splitlines_app_newline by done.
    rewrite <- app_comm_cons. by f_equal.
Qed.

End MoreStrFacts.

Section MoreParserFacts.
Context {float : Type} `{!FloatCodec float}.
Implicit Types (st : parsed float) (lines : list string).

Lemma classify_line_strip a b :
  PyStr.strip a = PyStr.strip b → classify_line a = classify_line b.
Proof. unfold classify_line. by intros ->. Qed.

Lemma classify_empty_line : classify_line "" = @Ignored float.
Proof. done. Qed.

(** Lines the merge does not count as geometry are nothing to the
    parser. *)
Lemma not_geometry_ignored l :
  is_geometry_line l = false → classify_line l = @Ignored float.
Proof.
  unfold is_geometry_line, classify_line.
  destruct (_ || _) eqn:Hblank; [done|].
  destruct (PyStr.strip l) as [|c r] eqn:Hs; [done|].
  pose proof (MoreStrFacts.strip_head _ _ _ Hs) as Hc.
  destruct (MoreStrFacts.split_head c r Hc) as (w & ws & ->).
  cbn [PyStr.lower]. rewrite !PyStrFacts.startswith_char.
  rewrite (Ascii.eqb_sym "n"), (Ascii.eqb_sym "e").
  intros [-> ->]%orb_false_iff. done.
Qed.

Lemma apply_lines_ignored st lines :
  Forall (λ l, is_geometry_line l = false) lines → apply_lines st lines = st.
Proof.
  induction 1 as [|l lines Hl _ IH]; [done|].
  by rewrite apply_lines_cons, (not_geometry_ignored l Hl).
Qed.

Lemma apply_lines_geometry_only st lines :
  apply_lines st (List.filter is_geometry_line lines) = apply_lines st lines.
Proof.
  revert st. induction lines as [|l lines IH]; intros st; [done|].
  cbn [List.filter]. rewrite (apply_lines_cons st l).
  destruct (is_geometry_line l) eqn:Hl.
  - by rewrite apply_lines_cons, IH.
  - by rewrite (not_geometry_ignored l Hl), IH.
Qed.

Lemma apply_lines_joined st lines :
  Forall (λ l, one_line l = true) lines →
  apply_lines st (PyStr.splitlines (unlines lines)) = apply_lines st lines.
Proof.
  intros Hone. destruct (MoreStrFacts.splitlines_join_any lines Hone)
    as (tail & Heq & Htail).
  unfold unlines, PyStr.join, newline in *. rewrite Heq at 2.
  rewrite apply_lines_app. by destruct Htail as [-> | ->].
Qed.

Lemma apply_line_declared st c node_id :
  is_Some (node_id_to_index st !! node_id) →
  is_Some (node_id_to_index (apply_line st c) !! node_id).
Proof.
  intros Hin. destruct c as [| |id xyz| |tri]; cbn; try done.
  - case_bool_decide; [done|]. cbn.
    destruct (decide (id = node_id)) as [->|Hne].
    + by rewrite lookup_insert_eq.
    + by rewrite lookup_insert_ne.
  - by destruct (triangle_in_range _ _).
Qed.

Lemma apply_lines_declared st lines node_id :
  is_Some (node_id_to_index st !! node_id) ∨ node_id ∈ declared_ids lines →
  is_Some (node_id_to_index (apply_lines st lines) !! node_id).
Proof.
  revert st. induction lines as [|l lines IH]; intros st.
  { intros [?|Hin]; [done|]. by apply elem_of_nil in Hin. }
  rewrite apply_lines_cons, declared_ids_cons. intros [Hin|Hin].
  - apply IH. left. by apply apply_line_declared.
  - destruct (classify_line l) as [| |id xyz| |tri]; try (apply IH; by right).
    apply elem_of_cons in Hin as [->|Hin]; [|apply IH; by right].
    apply IH. left. cbn. case_bool_decide; [done|]. cbn.
    by rewrite lookup_insert_eq.
Qed.

Lemma apply_lines_strip_eq st lines lines' :
  Forall2 (λ a b, PyStr.strip a = PyStr.strip b) lines lines' →
  apply_lines st lines = apply_lines st lines'.
Proof.
  intros Hall. revert st.
  induction Hall as [|a b lines lines' Hab _ IH]; intros st; [done|].
  by rewrite !apply_lines_cons, (classify_line_strip a b Hab), IH.
Qed.

(** The ids and positions the parser collects, line by line. *)
Lemma apply_lines_first_declarations st lines :
  parsed_wf st →
  node_index_to_id (apply_lines st lines)
  = node_index_to_id st
    ++ (first_declarations (node_index_to_id st) lines).*1
  ∧ vertices (apply_lines st lines)
    = vertices st ++ (first_declarations (node_index_to_id st) lines).*2.
Proof.
  revert st. induction lines as [|l lines IH]; intros st Hwf.
  { cbn. by rewrite !app_nil_r. }
  rewrite apply_lines_cons. cbn [first_declarations].
  pose proof (apply_line_wf st (classify_line l) Hwf) as Hwf'.
  destruct (IH _ Hwf') as [Hids Hvs]. rewrite Hids, Hvs. clear Hids Hvs IH.
  destruct (classify_line l) as [| |node_id xyz| |tri]; try done.
  - cbn. assert (is_Some (node_id_to_index st !! node_id)
                 ↔ node_id ∈ node_index_to_id st) as Hmem.
    { split.
      - intros [i Hi]. apply (wf_dict _ Hwf) in Hi.
        by eapply list_elem_of_lookup_2.
      - intros [i Hi]%list_elem_of_lookup_1.
        apply (wf_dict _ Hwf) in Hi. by eexists. }
    case_bool_decide as Hin; case_bool_decide as Hin'; try tauto;
      cbn; by rewrite <- ?app_assoc.
  - cbn. by destruct (triangle_in_range _ _).
Qed.

End MoreParserFacts.

Section MergeThenParse.
Context {float : Type} `{!FloatCodec float}.

(** The merged text, as lines: the new lines between lines that are not
    geometry lines. *)
Lemma merge_shape base_text geometry_lines :
  geometry_lines ≠ [] →
  ∃ before after,
    _merge_geometry_with_existing base_text geometry_lines
    = unlines (before ++ geometry_lines ++ after)
    ∧ Forall (λ l, is_geometry_line l = false) before
    ∧ Forall (λ l, is_geometry_line l = false) after
    ∧ Forall (λ l, one_line l = true) before
    ∧ Forall (λ l, one_line l = true) after.
Proof.
  intros Hne. unfold _merge_geometry_with_existing.
  destruct geometry_lines as [|g gs] eqn:Hg; [done|]. rewrite <- Hg.
  clear Hg Hne. generalize geometry_lines as gl. intros gl.
  pose proof (MoreStrFacts.splitlines_lines_one_line base_text) as Hone.
  assert (∀ b : bool, Forall (λ l, is_geometry_line l = false)
                        (if b then [""] else [])) as Hsep.
  { intros [|]; by repeat constructor. }
  assert (∀ b : bool, Forall (λ l, one_line l = true)
                        (if b then [""] else [])) as Hsep1.
  { intros [|]; by repeat constructor. }
  destruct (geometry_block_cases (PyStr.splitlines base_text))
    as [Hnone|(prefix & block & suffix & f & g' & Hlines & Hpre & Hsuf
               & Hh & Hf & Hl & Hlg)].
  - rewrite (geometry_indices_none _ _ Hnone).
    exists (PyStr.splitlines base_text
            ++ if last_is_nonblank (PyStr.splitlines base_text)
               then [""] else []), [].
    split; [|split; [|split; [|split]]]; try done.
    + unfold unlines. f_equal. rewrite app_nil_r.
      destruct (last_is_nonblank _); by rewrite ?app_nil_r.
    + apply Forall_app. split; [done|apply Hsep].
    + apply Forall_app. split; [done|apply Hsep1].
  - rewrite Hlines in Hone |- *.
    apply Forall_app in Hone as [Hone1 [_ Hone3]%Forall_app].
    rewrite !geometry_indices_app, (geometry_indices_none _ prefix Hpre),
      (geometry_indices_none _ suffix Hsuf), app_nil_r. cbn [app plus].
    destruct (geometry_indices_block (length prefix) block _ _ Hh Hf Hl Hlg)
      as (rest & -> & Hlast). rewrite Hlast.
    rewrite take_app_length.
    replace (length prefix + length block - 1 + 1)%nat
      with (length prefix + length block)%nat
      by (destruct block; [done|cbn; lia]).
    rewrite app_assoc, <- length_app, drop_app_length.
    exists (prefix ++ if last_is_nonblank prefix then [""] else []),
           ((if first_is_nonblank suffix && last_is_nonblank gl
             then [""] else []) ++ suffix).
    split; [|split; [|split; [|split]]].
    + unfold unlines. f_equal.
      destruct suffix as [|s suffix].
      * cbn [first_is_nonblank head andb].
        destruct (last_is_nonblank prefix);
          by rewrite ?app_nil_r, <- ?app_assoc.
      * destruct (last_is_nonblank prefix);
          destruct (first_is_nonblank (s :: suffix) && _);
          by rewrite ?app_nil_r, <- ?app_assoc.
    + apply Forall_app. split; [done|apply Hsep].
    + apply Forall_app. split; [apply Hsep|done].
    + apply Forall_app. split; [done|apply Hsep1].
    + apply Forall_app. split; [apply Hsep1|done].
Qed.

Lemma apply_lines_merged base_text geometry_lines :
  geometry_lines ≠ [] →
  Forall (λ l, one_line l = true) geometry_lines →
  apply_lines parsed_empty
    (PyStr.splitlines
       (_merge_geometry_with_existing base_text geometry_lines))
  = apply_lines parsed_empty geometry_lines.
Proof.
  intros Hne Hone.
  destruct (merge_shape base_text geometry_lines Hne)
    as (before & after & -> & Hb & Ha & Hb1 & Ha1).
  rewrite apply_lines_joined by (rewrite !Forall_app; done).
  rewrite !apply_lines_app, (apply_lines_ignored _ before Hb).
  by rewrite (apply_lines_ignored _ after Ha).
Qed.

End MergeThenParse.

Section ParserProperties.
Context {float : Type} `{!FloatCodec float}.

(** X1. Whatever the text, the document [parse_vpg_text] returns is
    consistent: it has one id per vertex, no id twice, the dictionary
    maps every id to its position in the list of ids and nothing else,
    every face index is a position of the list of vertices, and every id
    is a token in lower case that starts with [n]. *)
Theorem parsed_document_is_consistent text :
  ∃ doc, parse_vpg_text text = Ok doc
    ∧ length (node_index_to_id doc) = length (vertices doc)
    ∧ NoDup (node_index_to_id doc)
    ∧ (∀ node_id i, node_id_to_index doc !! node_id = Some i
                    ↔ node_index_to_id doc !! i = Some node_id)
    ∧ Forall (λ tri, triangle_in_range (length (vertices doc)) tri = true)
             (indices doc)
    ∧ Forall id_ok (node_index_to_id doc).
Proof.
  eexists. split; [apply parse_vpg_text_apply|].
  pose proof (apply_lines_wf parsed_empty (PyStr.splitlines text)
                parsed_empty_wf) as [H1 H2 H3 H4].
  repeat split; try done; try apply H2.
  by apply apply_lines_ids_ok.
Qed.

(** X2. The ids and the positions of the document are those of the
    valid vertex lines of the text, in the order of the text, each id
    with the position of the first line that declares it: a later line
    with the same id adds nothing and does not move the vertex. *)
Theorem first_declaration_of_an_id_wins text :
  ∃ doc, parse_vpg_text text = Ok doc
    ∧ node_index_to_id doc
      = (first_declarations [] (PyStr.splitlines text)).*1
    ∧ vertices doc = (first_declarations [] (PyStr.splitlines text)).*2.
Proof.
  eexists. split; [apply parse_vpg_text_apply|].
  apply (apply_lines_first_declarations parsed_empty), parsed_empty_wf.
Qed.

(** X3. A valid vertex line whose id an earlier valid vertex line has
    declared is skipped: the lines parse to what they parse to without
    it. *)
Theorem repeated_id_line_is_skipped pre l post node_id :
  declared_id l = Some node_id →
  node_id ∈ declared_ids pre →
  parse_lines parsed_empty (pre ++ l :: post)
  = parse_lines parsed_empty (pre ++ post).
Proof.
  intros Hl Hin. rewrite !parse_lines_apply, !apply_lines_app.
  rewrite apply_lines_cons. do 2 f_equal.
  unfold declared_id in Hl.
  destruct (classify_line l) as [| |id xyz| |tri]; try done.
  injection Hl as ->. cbn. rewrite bool_decide_true; [done|].
  apply apply_lines_declared. by right.
Qed.

(** X4. The parser reads the geometry lines and nothing else: a line
    that the merge does not count as a geometry line (a blank line, a
    comment, a line whose first character is neither [n] nor [e] in
    either case) contributes nothing, so the text parses to what its
    geometry lines alone parse to. *)
Theorem parser_reads_geometry_lines_only text :
  parse_lines parsed_empty
    (List.filter is_geometry_line (PyStr.splitlines text))
  = parse_vpg_text text.
Proof.
  by rewrite parse_vpg_text_apply, parse_lines_apply, apply_lines_geometry_only.
Qed.

(** X5. After a merge the geometry of the text is the new geometry:
    the text made by merging a non-empty list of lines into any base
    text parses to what the new lines parse to. Neither the old
    geometry block nor the lines kept around it (and the empty lines
    put between) show in the result. *)
Theorem merged_text_parses_to_new_geometry base_text geometry_lines :
  geometry_lines ≠ [] →
  Forall (λ l, one_line l = true) geometry_lines →
  parse_vpg_text (_merge_geometry_with_existing base_text geometry_lines)
  = parse_lines parsed_empty geometry_lines.
Proof.
  intros Hne Hone. rewrite parse_vpg_text_apply, parse_lines_apply.
  by rewrite apply_lines_merged.
Qed.

End ParserProperties.

(** * More facts: the file variant and the older importer *)

Section FileLines.
Import PyStr PyStrFacts.

Lemma is_lf_eq c : is_lf c = true → c = "010"%char.
Proof. by_cases_on_char c. Qed.

Lemma lf_not_cr c : is_lf c = true → is_cr c = false.
Proof. by_cases_on_char c. Qed.

Lemma lf_linebreak c : is_lf c = true → is_linebreak c = true.
Proof. by_cases_on_char c. Qed.

(** A file whose only line boundaries are line feeds is read in the
    lines of [splitlines], each with or without its line feed. *)
Lemma file_lines_splitlines content :
  only_line_feeds content = true →
  Forall2 (λ raw l, raw = l ∨ raw = l +:+ String "010" "")
          (file_lines content) (splitlines content).
Proof.
  unfold only_line_feeds.
  induction content as [|c s IH]; intros Hall; [constructor|].
  cbn in Hall. apply andb_true_iff in Hall as [Hc Hs].
  specialize (IH Hs). cbn [file_lines splitlines].
  destruct (is_lf c) eqn:Hlf.
  - rewrite (lf_linebreak c Hlf), (lf_not_cr c Hlf). cbn [andb].
    rewrite (is_lf_eq c Hlf). constructor.
    + right. by rewrite append_nil.
    + destruct s; [constructor|done].
  - rewrite orb_false_r in Hc. apply negb_true_iff in Hc. rewrite Hc.
    destruct IH as [|raw l raws ls Hraw Hrest].
    + repeat constructor.
    + constructor; [|done]. destruct Hraw as [->| ->]; [by left|right].
      by rewrite append_cons.
Qed.

Lemma file_lines_strip content :
  only_line_feeds content = true →
  Forall2 (λ a b, strip a = strip b) (file_lines content) (splitlines content).
Proof.
  intros Hall. eapply Forall2_impl; [by apply file_lines_splitlines|].
  intros raw l [->| ->]; [done|]. by apply MoreStrFacts.strip_snoc.
Qed.

End FileLines.

Section FileParserFacts.
Context {float : Type} `{!FloatCodec float}.

Lemma parse_vpg_apply fs filepath content :
  fs filepath = Ok content →
  parse_vpg fs filepath = Ok (apply_lines parsed_empty (file_lines content)).
Proof. intros Hfs. unfold parse_vpg. rewrite Hfs. apply parse_lines_apply. Qed.

Lemma legacy_parse_line_classify st raw :
  legacy_parse_line st raw = Ok (legacy_apply_line st (classify_line raw)).
Proof.
  destruct st as [vs tris]. unfold legacy_parse_line, classify_line.
  destruct (_ || _); [done|].
  destruct (PyStr.split _) as [|part0 rest]; [done|].
  destruct (PyStr.startswith "n" _).
  - destruct rest as [|p1 [|p2 [|p3 rest]]]; try done.
    cbn [length Nat.ltb Nat.leb getitem lookup list_lookup].
    unfold py_float. cbn.
    destruct (float_of p1); cbn; [|done].
    destruct (float_of p2); cbn; [|done].
    by destruct (float_of p3).
  - destruct (PyStr.startswith "e" _); [|done].
    destruct rest as [|t1 [|t2 [|t3 rest]]]; try done.
    cbn [drop length Nat.ltb Nat.leb getitem lookup list_lookup].
    unfold py_int. cbn.
    destruct (PyStr.int_of (normalize_token t1)); cbn; [|done].
    destruct (PyStr.int_of (normalize_token t2)); cbn; [|done].
    destruct (PyStr.int_of (normalize_token t3)); cbn; [|done].
    by destruct (_ && _).
Qed.

Lemma legacy_parse_lines st lines :
  for_each legacy_parse_line st lines
  = Ok (foldl (λ st raw, legacy_apply_line st (classify_line raw)) st lines).
Proof.
  revert st. induction lines as [|l lines IH]; intros st; [done|].
  cbn. rewrite legacy_parse_line_classify. cbn. by rewrite IH.
Qed.

Lemma legacy_vertex_count st lines :
  length (foldl (λ st raw, legacy_apply_line st (classify_line raw))
            st lines).1
  = (length st.1 + count_lines is_valid_vertex_line lines)%nat.
Proof.
  unfold count_lines. revert st.
  induction lines as [|l lines IH]; intros st; cbn [foldl List.filter].
  { cbn. lia. }
  rewrite IH. unfold is_valid_vertex_line.
  destruct (classify_line l) as [| |node_id xyz| |tri]; cbn; try done.
  - rewrite length_app. cbn. lia.
  - by destruct (triangle_in_range _ _).
Qed.

Lemma legacy_agrees st lines :
  parsed_wf st →
  NoDup (node_index_to_id st ++ declared_ids lines) →
  foldl (λ st raw, legacy_apply_line st (classify_line raw))
    (vertices st, indices st) lines
  = (vertices (apply_lines st lines), indices (apply_lines st lines)).
Proof.
  revert st. induction lines as [|l lines IH]; intros st Hwf Hnd; [done|].
  rewrite apply_lines_cons, declared_ids_cons in *. cbn [foldl].
  pose proof (apply_line_wf st (classify_line l) Hwf) as Hwf'.
  destruct (classify_line l) as [| |node_id xyz| |tri] eqn:Hc;
    try (by apply IH).
  - cbn in Hwf' |- *. rewrite bool_decide_false in Hwf' |- *.
    + rewrite <- (IH _ Hwf'); [done|]. cbn. by rewrite <- app_assoc.
    + intros [i Hi]. apply (wf_dict _ Hwf) in Hi.
      apply NoDup_app in Hnd as (_ & Hdisj & _).
      apply (Hdisj node_id); [by eapply list_elem_of_lookup_2|].
      apply elem_of_cons. by left.
    + intros [i Hi]. apply (wf_dict _ Hwf) in Hi.
      apply NoDup_app in Hnd as (_ & Hdisj & _).
      apply (Hdisj node_id); [by eapply list_elem_of_lookup_2|].
      apply elem_of_cons. by left.
  - cbn in Hwf' |- *. destruct (triangle_in_range _ _); by rewrite <- IH.
Qed.

(** X6. The file variant of the parser reads a file whose only line
    boundaries are line feeds as [parse_vpg_text] reads its content. *)
Theorem parse_vpg_agrees_with_parse_vpg_text fs filepath content :
  fs filepath = Ok content →
  only_line_feeds content = true →
  parse_vpg fs filepath = parse_vpg_text content.
Proof.
  intros Hfs Hlf. rewrite (parse_vpg_apply _ _ _ Hfs), parse_vpg_text_apply.
  f_equal. by apply apply_lines_strip_eq, file_lines_strip.
Qed.

(** X7. [parse_vpg] fails exactly when the file cannot be opened or
    read, and then with the exception of [open] or of the read (nothing
    is caught, unlike in [read_file]); no line of a file that was read
    makes it fail, and the document it returns is consistent. *)
Theorem parse_vpg_fails_only_on_the_file fs filepath :
  match fs filepath with
  | Raise e => parse_vpg fs filepath = Raise e
  | Ok content =>
      ∃ doc, parse_vpg fs filepath = Ok doc
        ∧ length (node_index_to_id doc) = length (vertices doc)
        ∧ NoDup (node_index_to_id doc)
        ∧ Forall (λ tri, triangle_in_range (length (vertices doc)) tri = true)
                 (indices doc)
  end.
Proof.
  destruct (fs filepath) as [content|e] eqn:Hfs.
  - eexists. split; [by apply parse_vpg_apply|].
    by destruct (apply_lines_wf parsed_empty (file_lines content)
                   parsed_empty_wf).
  - unfold parse_vpg. by rewrite Hfs.
Qed.

(** X8. The older importer of [import.py] has no ids: it makes one
    vertex of every valid vertex line, also of a line that repeats an
    id. On a file whose valid vertex lines declare pairwise distinct ids
    it reads the same vertices and the same faces as [parse_vpg]. *)
Theorem legacy_parser_has_no_ids fs filepath content :
  fs filepath = Ok content →
  ∃ vs tris, legacy_parse_vpg fs filepath = Ok (vs, tris)
    ∧ length vs = count_lines is_valid_vertex_line (file_lines content)
    ∧ (NoDup (declared_ids (file_lines content)) →
       ∃ doc, parse_vpg fs filepath = Ok doc
              ∧ vs = vertices doc ∧ tris = indices doc).
Proof.
  intros Hfs. unfold legacy_parse_vpg. rewrite Hfs. cbn.
  rewrite legacy_parse_lines.
  pose proof (legacy_vertex_count ([], []) (file_lines content)) as Hn.
  pose proof (legacy_agrees parsed_empty (file_lines content)
                parsed_empty_wf) as Hsame.
  cbn [vertices indices node_index_to_id parsed_empty app] in Hsame.
  destruct (foldl _ _ _) as [vs tris]. exists vs, tris.
  split; [done|]. split; [done|]. intros Hnd.
  eexists. split; [by apply parse_vpg_apply|].
  specialize (Hsame Hnd). by injection Hsame as -> ->.
Qed.

End FileParserFacts.

(** * More facts: building and serializing a mesh *)

Section ImportFacts.
Context {float : Type} `{!FloatCodec float}.
Variable world_inv : position float → position float.

Lemma generate_faces_fail (vs : list (BMVert float)) tris :
  Forall (λ tri, triangle_in_range (length vs) tri = true) tris →
  ∀ fs0 e, for_each (generate_face vs) fs0 tris = Raise e → e = ValueError.
Proof.
  induction 1 as [|[[a b] c] tris Htri _ IH]; intros fs0 e; cbn; [done|].
  cbn in Htri. apply andb_true_iff in Htri as [[Ha Hb]%andb_true_iff Hc].
  rewrite !resolve_index_in_range by done. cbn.
  unfold faces_new. destruct (_ && _); cbn.
  - apply IH.
  - by intros [= <-].
Qed.

(** X9. Building the mesh of a parsed document: [generate_mesh] either
    returns a mesh with one vertex per vertex of the document, in order,
    stamped with the document's id in both id layers and placed at the
    transformed position, and one triangle per face of the document, in
    order, on the vertices the face names; or it fails with the
    [ValueError] of [bm.faces.new]. It never fails on an id or an
    index. *)
Theorem import_mirrors_the_document text doc :
  parse_vpg_text text = Ok doc →
  match generate_mesh world_inv (vertices doc) (indices doc)
          (node_index_to_id doc) with
  | Ok bm =>
      has_node_id_layer bm = true ∧ has_init_node_id_layer bm = true
      ∧ verts bm = zip_with (imported_vertex world_inv)
                     (node_index_to_id doc) (vertices doc)
      ∧ faces bm = map triangle_corners (indices doc)
  | Raise e => e = ValueError
  end.
Proof.
  rewrite parse_vpg_text_apply. intros [= <-].
  pose proof (apply_lines_wf parsed_empty (PyStr.splitlines text)
                parsed_empty_wf) as [Hlen _ Hnd Hrange].
  set (doc := apply_lines parsed_empty (PyStr.splitlines text)) in *.
  destruct (generate_mesh _ _ _ _) as [bm|e] eqn:Hgen.
  - destruct (generate_mesh_ok world_inv _ _ _ _ Hnd Hlen Hrange Hgen)
      as (? & ? & ?).
    repeat split; try done.
    unfold generate_mesh in Hgen.
    destruct (for_each (generate_vertex _ _) _ _) as [[vs tp]|]; [|done].
    cbn in Hgen. destruct (for_each (generate_face _) _ _); [|done].
    by injection Hgen as <-.
  - unfold generate_mesh in Hgen.
    destruct (generate_vertices_ok world_inv _ Hnd (vertices doc) 0 [] ∅)
      as (tp' & Hvs).
    { intros node_id. rewrite lookup_empty. by intros [? ?]. }
    { lia. }
    cbn [Nat.add] in Hvs. rewrite drop_0 in Hvs. rewrite Hvs in Hgen.
    cbn in Hgen.
    destruct (for_each (generate_face _) _ _) as [fs|e'] eqn:Hfs; [done|].
    injection Hgen as <-. eapply generate_faces_fail; [|done].
    by rewrite length_zip_with, Hlen, Nat.min_id.
Qed.

End ImportFacts.

Section MoreSerializerFacts.
Context {float : Type}.
Implicit Types (bm : BMesh float) (v : BMVert float) (st : id_scan float).

Lemma fan_lookup a rest j :
  fan a rest !! j
  = (b ← rest !! j; c ← rest !! S j; Some (a, b, c)).
Proof.
  revert j. induction rest as [|b [|c rest] IH]; intros j; [done| |].
  - cbn. by destruct j.
  - cbn [fan]. destruct j as [|j]; [done|]. cbn [lookup list_lookup].
    by rewrite IH.
Qed.

Lemma fan_length a rest : length (fan a rest) = (length rest - 1)%nat.
Proof.
  induction rest as [|b [|c rest] IH]; [done..|].
  cbn [fan length] in *. rewrite IH. lia.
Qed.

(** The two forms the entries of the first two loops can have. *)
Lemma final_entries_cases bm :
  final_entries bm
  = imap (λ i v, (v, assigned_id (has_node_id_layer bm) i v)) (verts bm)
  ∨ final_entries bm
    = imap (λ i v, (stamp (has_node_id_layer bm) (has_init_node_id_layer bm)
                      (expected_id i) v, expected_id i)) (verts bm).
Proof.
  unfold final_entries. rewrite scanned_entries.
  destruct (_ && _); [right|by left].
  unfold renumber. apply list_eq. intros i.
  rewrite !list_lookup_imap. by destruct (verts bm !! i).
Qed.

Lemma stamp_idem hl hil node_id v :
  stamp hl hil node_id (stamp hl hil node_id v) = stamp hl hil node_id v.
Proof. unfold stamp. cbn. by destruct hl, hil. Qed.

Lemma read_node_id_stamp hl hil idx v :
  read_node_id hl (stamp hl hil (expected_id idx) v)
  = if hl then Some (expected_id idx) else None.
Proof.
  unfold read_node_id, stamp. destruct hl; [|done].
  cbn -[expected_id String.eqb].
  rewrite PyStrFacts.strip_token by apply expected_id_token. done.
Qed.

Lemma assigned_id_stamp hl hil idx v :
  assigned_id hl idx (stamp hl hil (expected_id idx) v) = expected_id idx.
Proof.
  unfold assigned_id. rewrite read_node_id_stamp. destruct hl; [|done].
  pose proof (expected_id_numeric idx) as Hnum.
  unfold expected_id in *. by rewrite Hnum.
Qed.

Lemma restamped_verts_cases bm :
  restamped bm = bm
  ∨ verts (restamped bm)
    = imap (λ i v, stamp (has_node_id_layer bm) (has_init_node_id_layer bm)
                     (expected_id i) v) (verts bm)
    ∧ final_entries bm
      = imap (λ i v, (stamp (has_node_id_layer bm)
                        (has_init_node_id_layer bm) (expected_id i) v,
                      expected_id i)) (verts bm).
Proof.
  unfold restamped. destruct (final_entries_cases bm) as [Heq|Heq].
  - left. rewrite Heq.
    assert (map fst (imap (λ i v, (v, assigned_id (has_node_id_layer bm) i v))
                       (verts bm)) = verts bm) as ->; [|by destruct bm].
    apply list_eq. intros i. rewrite list_lookup_fmap, list_lookup_imap.
    by destruct (verts bm !! i).
  - right. split; [|done]. cbn. rewrite Heq.
    apply list_eq. intros i. rewrite list_lookup_fmap, !list_lookup_imap.
    by destruct (verts bm !! i).
Qed.

(** A second pass settles on the entries of the first. *)
Lemma final_entries_restamped bm :
  final_entries (restamped bm) = final_entries bm.
Proof.
  destruct (restamped_verts_cases bm) as [->|[Hverts Hentries]]; [done|].
  rewrite Hentries.
  destruct (final_entries_cases (restamped bm)) as [-> | ->];
    rewrite Hverts; cbn [restamped has_node_id_layer has_init_node_id_layer];
    apply list_eq; intros i; rewrite !list_lookup_imap;
    destruct (verts bm !! i) as [v|]; cbn -[expected_id]; try done.
  - by rewrite assigned_id_stamp.
  - by rewrite stamp_idem.
Qed.

Ltac settle_flags :=
  cbn -[String.eqb expected_id];
  repeat match goal with
    | |- context [negb ?b] => destruct b; cbn -[String.eqb expected_id]
    | |- context [bool_decide ?P] => destruct (bool_decide P)
    end;
  try done.

Lemma scan_vertex_needs_renumber_read hl st idx v :
  read_node_id hl v ≠ Some (expected_id idx) →
  needs_renumber (scan_vertex hl st idx v) = true.
Proof.
  unfold scan_vertex.
  destruct (read_node_id hl v) as [[|c s]|]; [settle_flags| |settle_flags].
  intros Hne.
  destruct (is_numeric_id (String c s)); cbn -[String.eqb expected_id].
  - destruct (String.eqb_spec (String c s) (String "n" s)) as [Heq|_];
      cbn -[String.eqb expected_id]; [|settle_flags].
    destruct (String.eqb_spec (String c s) (expected_id idx)) as [Heq'|_];
      [by rewrite Heq' in Hne|]. settle_flags.
  - destruct (String.eqb_spec (String c s) (expected_id idx)) as [Heq'|_];
      [by rewrite Heq' in Hne|]. settle_flags.
Qed.

Lemma scan_vertices_needs_renumber_read hl vs :
  ∀ st idx i v,
    vs !! i = Some v →
    read_node_id hl v ≠ Some (expected_id (idx + i)) →
    needs_renumber (scan_vertices hl st idx vs) = true.
Proof.
  assert (∀ ws st idx, needs_renumber st = true →
            needs_renumber (scan_vertices hl st idx ws) = true) as Hmono.
  { induction ws as [|w ws IH]; intros st idx Hn; [done|].
    cbn. by apply IH, scan_vertex_needs_renumber_mono. }
  induction vs as [|w vs IH]; intros st idx i v Hv Hne; [done|]. cbn.
  destruct i as [|i]; cbn in Hv.
  - injection Hv as ->. rewrite Nat.add_0_r in Hne.
    by apply Hmono, scan_vertex_needs_renumber_read.
  - apply (IH _ (S idx) i v Hv).
    by replace (S idx + i)%nat with (idx + S i)%nat by lia.
Qed.

(** Without a stamp that fails the pattern, either the entries are
    renumbered or every vertex reads as the id of its position. *)
Lemma numeric_entries bm :
  Forall (λ v, stamped_invalid (has_node_id_layer bm) v = false) (verts bm) →
  final_entries bm
  = imap (λ i v, (stamp (has_node_id_layer bm) (has_init_node_id_layer bm)
                    (expected_id i) v, expected_id i)) (verts bm)
  ∨ (final_entries bm = imap (λ i v, (v, expected_id i)) (verts bm)
     ∧ ∀ i v, verts bm !! i = Some v →
              read_node_id (has_node_id_layer bm) v = Some (expected_id i)).
Proof.
  intros Hvalid.
  assert (forallb (λ v, negb (stamped_invalid (has_node_id_layer bm) v))
            (verts bm) = true) as Hnum.
  { apply forallb_forall. intros v Hin%list_elem_of_In.
    eapply Forall_forall in Hvalid; [|done]. by rewrite Hvalid. }
  unfold final_entries. rewrite scan_vertices_numeric, Hnum, scanned_entries.
  cbn [numeric_pattern id_scan_init andb].
  destruct (needs_renumber _) eqn:Hn.
  - left. unfold renumber. apply list_eq. intros i.
    rewrite !list_lookup_imap. by destruct (verts bm !! i).
  - right.
    assert (∀ i v, verts bm !! i = Some v →
              read_node_id (has_node_id_layer bm) v = Some (expected_id i))
      as Hread.
    { intros i v Hv.
      destruct (decide (read_node_id (has_node_id_layer bm) v
                        = Some (expected_id i))) as [|Hne]; [done|].
      rewrite (scan_vertices_needs_renumber_read _ _ _ 0%nat i v Hv Hne) in Hn.
      done. }
    split; [|done]. apply list_eq. intros i. rewrite !list_lookup_imap.
    destruct (verts bm !! i) as [v|] eqn:Hv; [|done]. cbn -[expected_id].
    do 2 f_equal. unfold assigned_id. rewrite (Hread i v Hv).
    pose proof (expected_id_numeric i) as Hnumeric.
    unfold expected_id in *. by rewrite Hnumeric.
Qed.

End MoreSerializerFacts.

Section SerializerProperties.
Context {float : Type} `{!FloatCodec float}.
Implicit Types (bm : BMesh float) (v : BMVert float).

Lemma mesh_lines_restamped bm : mesh_lines (restamped bm) = mesh_lines bm.
Proof. unfold mesh_lines. by rewrite final_entries_restamped. Qed.

Lemma restamped_idem bm : restamped (restamped bm) = restamped bm.
Proof. unfold restamped at 1 3. by rewrite final_entries_restamped. Qed.

Lemma final_entries_coordinates bm :
  map (λ e, vert_co e.1) (final_entries bm) = map vert_co (verts bm).
Proof.
  destruct (final_entries_cases bm) as [-> | ->]; apply list_eq; intros i;
    rewrite !list_lookup_fmap, list_lookup_imap;
    by destruct (verts bm !! i).
Qed.

Lemma mesh_lines_nonempty bm : verts bm ≠ [] → mesh_lines bm ≠ [].
Proof.
  intros Hne Hnil. destruct (mesh_lines_vertex_prefix bm) as (fl & Heq).
  rewrite Hnil in Heq. symmetry in Heq.
  apply app_eq_nil in Heq as [Heq _]. apply (f_equal length) in Heq.
  rewrite length_map, final_entries_length in Heq.
  by destruct (verts bm).
Qed.

(** X10. A face with three corners is written as one triangle and a face
    with more as a fan around its first corner: a face with [n] corners
    gives [n - 2] triangles, the triangle number [j] on the first
    corner and the corners [j + 1] and [j + 2]; a face with fewer than
    three corners gives none. *)
Theorem face_is_written_as_a_fan corners :
  length (face_triangles corners) = (length corners - 2)%nat
  ∧ ∀ j, face_triangles corners !! j
         = (a ← head corners; b ← corners !! S j; c ← corners !! S (S j);
            Some (a, b, c)).
Proof.
  destruct corners as [|a [|b [|c [|d rest]]]]; try by (split; [|intros []]).
  - split; [done|]. by intros [|[|j]].
  - unfold face_triangles.
    replace (3 <? length (a :: b :: c :: d :: rest))%nat with true
      by (symmetry; apply Nat.ltb_lt; cbn; lia).
    split.
    + rewrite fan_length. cbn. lia.
    + intros j. by rewrite fan_lookup.
Qed.


(** X12. Unless some vertex carries a non-empty stamp that fails the
    [n<number>] pattern, the ids written are [n1 .. nK] in vertex order,
    whatever the stamps were: sparse, repeated, in upper case, missing
    or out of order. *)
Theorem numeric_stamps_are_written_densely bm :
  Forall (λ v, stamped_invalid (has_node_id_layer bm) v = false) (verts bm) →
  emitted_ids bm = imap (λ idx _, expected_id idx) (verts bm).
Proof.
  intros Hvalid. unfold emitted_ids.
  destruct (numeric_entries bm Hvalid) as [-> | [-> _]];
    apply list_eq; intros i; rewrite list_lookup_fmap, !list_lookup_imap;
    by destruct (verts bm !! i).
Qed.

(** X13. After an edit-mode pass over a mesh with the id layer in which
    no vertex carries a non-empty stamp that fails the pattern, the
    stamps in the mesh are the ids of the text: every vertex reads as
    [n<position+1>]. *)
Theorem edit_mode_pass_leaves_dense_stamps bm base_text :
  has_node_id_layer bm = true →
  Forall (λ v, stamped_invalid true v = false) (verts bm) →
  ∀ idx v', verts (mesh_to_vpg_text bm true base_text).2 !! idx = Some v' →
            read_node_id true v' = Some (expected_id idx).
Proof.
  intros Hl Hvalid idx v'. unfold mesh_to_vpg_text. cbn [snd verts].
  rewrite <- Hl in Hvalid.
  destruct (numeric_entries bm Hvalid) as [-> | [-> Hread]];
    rewrite list_lookup_fmap, list_lookup_imap;
    destruct (verts bm !! idx) as [v|] eqn:Hv;
    cbn -[expected_id read_node_id stamp]; try done; intros [= <-].
  - by rewrite Hl, read_node_id_stamp.
  - specialize (Hread idx v Hv). by rewrite Hl in Hread.
Qed.

(** X14. Serializing is idempotent on the mesh: the mesh an edit-mode
    pass leaves behind is serialized to the same text, with the same
    base text, in either mode, and a second edit-mode pass leaves it as
    it is. *)
Theorem second_pass_changes_nothing bm base_text using_edit_bmesh :
  mesh_to_vpg_text (mesh_to_vpg_text bm true base_text).2
    using_edit_bmesh base_text
  = mesh_to_vpg_text bm true base_text.
Proof.
  unfold mesh_to_vpg_text. cbn [snd].
  change {| has_node_id_layer := has_node_id_layer bm;
            has_init_node_id_layer := has_init_node_id_layer bm;
            verts := map fst (final_entries bm);
            faces := faces bm |} with (restamped bm).
  rewrite mesh_lines_restamped. f_equal.
  destruct using_edit_bmesh; [|done].
  change (has_node_id_layer (restamped bm)) with (has_node_id_layer bm).
  change (has_init_node_id_layer (restamped bm))
    with (has_init_node_id_layer bm).
  change (faces (restamped bm)) with (faces bm).
  by rewrite final_entries_restamped.
Qed.

(** X15. Serializing never changes the geometry: the mesh afterwards has
    the same faces, the same layers and, vertex for vertex, the same
    coordinates; only id stamps can differ, and in object mode (a copy
    is read) the mesh is exactly what it was. *)
Theorem serializer_keeps_the_geometry bm using_edit_bmesh base_text :
  let bm' := (mesh_to_vpg_text bm using_edit_bmesh base_text).2 in
  faces bm' = faces bm
  ∧ map vert_co (verts bm') = map vert_co (verts bm)
  ∧ has_node_id_layer bm' = has_node_id_layer bm
  ∧ has_init_node_id_layer bm' = has_init_node_id_layer bm
  ∧ (using_edit_bmesh = false → bm' = bm).
Proof.
  unfold mesh_to_vpg_text. cbn [snd].
  destruct using_edit_bmesh; cbn; [|done].
  repeat split; try done.
  rewrite <- final_entries_coordinates. by rewrite map_map.
Qed.

(** X16. A base text does not change what the serialized text is read
    as: for a mesh with at least one vertex whose lines have no line
    break inside, the text merged into any base text parses to the same
    document as the text written without a base text. *)
Theorem base_text_does_not_change_the_geometry
    bm using_edit_bmesh base_text :
  verts bm ≠ [] →
  Forall (λ l, one_line l = true) (mesh_lines bm) →
  parse_vpg_text (mesh_to_vpg_text bm using_edit_bmesh (Some base_text)).1
  = parse_vpg_text (mesh_to_vpg_text bm using_edit_bmesh None).1.
Proof.
  intros Hne Hone. unfold mesh_to_vpg_text. cbn [fst].
  destruct (String.eqb base_text ""); [done|].
  rewrite !parse_vpg_text_apply. f_equal.
  rewrite apply_lines_merged by (by try apply mesh_lines_nonempty).
  symmetry. by apply apply_lines_joined.
Qed.

End SerializerProperties.

(** * More facts: the internal texts *)

Section MoreEditorFacts.
Context {float : Type} `{!FloatCodec float}.
Implicit Types (σ : Blender float).

Lemma remove_int_file_other σ filename short_name :
  to_short_filename filename ≠ short_name →
  document (remove_int_file filename σ) short_name = document σ short_name.
Proof.
  intros Hne. unfold document, remove_int_file, tracked_path, prev_text.
  destruct σ as [objs ms ts [[prev mapping]|] area hs hi]; cbn;
    rewrite lookup_delete_ne by done; [|done].
  destruct mapping, prev; cbn; by rewrite ?lookup_delete_ne.
Qed.

Lemma remove_int_file_tracked σ filename short_name full_path :
  tracked_path (remove_int_file filename σ) short_name = Some full_path →
  tracked_path σ short_name = Some full_path.
Proof.
  unfold remove_int_file, tracked_path.
  destruct σ as [objs ms ts [[prev [mapping|]]|] area hs hi]; cbn; try done.
  by intros [_ ?]%lookup_delete_Some.
Qed.

Lemma remove_int_file_frame σ filename :
  objects (remove_int_file filename σ) = objects σ
  ∧ meshes (remove_int_file filename σ) = meshes σ
  ∧ text_area (remove_int_file filename σ) = text_area σ.
Proof. unfold remove_int_file. by destruct σ as [? ? ? [?|] ? ? ?]. Qed.

Lemma active_paths_frame σ σ' :
  objects σ' = objects σ → meshes σ' = meshes σ →
  _collect_active_vpg_paths σ' = _collect_active_vpg_paths σ.
Proof.
  intros Ho Hm. unfold _collect_active_vpg_paths, obj_mesh.
  by rewrite Ho, Hm.
Qed.

Lemma remove_int_file_wf σ filename :
  mapping_wf σ → mapping_wf (remove_int_file filename σ).
Proof.
  intros Hwf k p Hk. by apply Hwf, (remove_int_file_tracked _ filename).
Qed.

Lemma fresh_text_name_nonempty (ts : gmap string string) :
  fresh_text_name ts ≠ "".
Proof.
  unfold fresh_text_name.
  destruct (List.find _ _) as [name|] eqn:Hfind; [|done]. cbn.
  apply find_some in Hfind as [[<-|Hin] _]; [done|].
  apply in_map_iff in Hin as (n & <- & _).
  unfold numbered_text_name. by rewrite PyStrFacts.append_cons.
Qed.

Lemma writable_name_spec name :
  writable_name name = true ↔ name ≠ "" ∧ idprop_name_ok name = true.
Proof.
  unfold writable_name. rewrite andb_true_iff, negb_true_iff.
  by rewrite String.eqb_neq.
Qed.

(** The three ways [write_int_file] ends. *)
Lemma write_int_file_cases σ filename text :
  (scene σ = None
   ∧ write_int_file filename text σ = (σ, Some (Exn TypeError)))
  ∨ (∃ sc, scene σ = Some sc
       ∧ writable_name (to_short_filename filename) = false
       ∧ ∃ ts mapping,
           write_int_file filename text σ
           = (with_scene (Some {| prev_texts := prev_texts sc;
                                  short_to_full_filename := Some mapping |})
                (with_texts ts σ), Some KeyError)
           ∧ ts !! to_short_filename filename
             = texts σ !! to_short_filename filename
           ∧ (∀ k p, mapping !! k = Some p →
                     default ∅ (short_to_full_filename sc) !! k = Some p
                     ∨ (to_short_filename filename = k ∧ p = filename)))
  ∨ (∃ sc, scene σ = Some sc
       ∧ writable_name (to_short_filename filename) = true
       ∧ write_int_file filename text σ
         = (with_scene
              (Some {| prev_texts :=
                         Some (let prev := default ∅ (prev_texts sc) in
                               match prev !! to_short_filename filename with
                               | Some _ => prev
                               | None =>
                                   <[to_short_filename filename := None]> prev
                               end);
                       short_to_full_filename :=
                         Some (<[to_short_filename filename := filename]>
                                 (default ∅ (short_to_full_filename sc))) |})
              (with_texts (<[to_short_filename filename := text]> (texts σ)) σ),
            None)).
Proof.
  unfold write_int_file, writable_name.
  destruct (scene σ) as [sc|]; [|by left]. right.
  destruct (idprop_name_ok (to_short_filename filename)) eqn:Hok; cbn.
  - destruct (String.eqb_spec (to_short_filename filename) "") as [Heq|Hne];
      cbn.
    + left. exists sc. split; [done|]. split; [done|].
      eexists _, _. split; [done|]. split.
      * rewrite Heq, lookup_insert_ne; [done|].
        apply fresh_text_name_nonempty.
      * intros k p. destruct (decide (to_short_filename filename = k)) as [<-|].
        -- rewrite lookup_insert_eq. intros [= <-]. by right.
        -- rewrite lookup_insert_ne by done. by left.
    + right. by exists sc.
  - left. exists sc. split; [done|]. split; [by rewrite andb_false_r|].
    eexists (texts σ), _. split.
    + by destruct σ.
    + split; [done|]. intros k p ?. by left.
Qed.

Lemma write_int_file_tracked σ filename text short_name full_path :
  tracked_path (write_int_file filename text σ).1 short_name = Some full_path →
  tracked_path σ short_name = Some full_path
  ∨ (to_short_filename filename = short_name ∧ full_path = filename).
Proof.
  destruct (write_int_file_cases σ filename text)
    as [[Hsc ->]|[(sc & Hsc & _ & ts & mapping & -> & _ & Hm)
                 |(sc & Hsc & _ & ->)]]; cbn [fst].
  - by left.
  - unfold tracked_path. rewrite Hsc. cbn. intros [?|?]%Hm; [left|by right].
    by destruct (short_to_full_filename sc).
  - unfold tracked_path. rewrite Hsc. cbn.
    destruct (decide (to_short_filename filename = short_name)) as [<-|Hne].
    + rewrite lookup_insert_eq. intros [= <-]. by right.
    + rewrite lookup_insert_ne by done. left.
      by destruct (short_to_full_filename sc).
Qed.

Lemma write_int_file_wf σ filename text :
  mapping_wf σ → mapping_wf (write_int_file filename text σ).1.
Proof.
  intros Hwf k p [Hold|[<- ->]]%write_int_file_tracked; [by apply Hwf|done].
Qed.

Lemma cleanup_steps_wf active_paths items σ :
  mapping_wf σ → mapping_wf (foldl (cleanup_step active_paths) σ items).
Proof.
  revert σ. induction items as [|[s f] items IH]; intros σ Hwf; [done|].
  cbn. apply IH. case_bool_decide; [|done]. by apply remove_int_file_wf.
Qed.

Lemma cleanup_steps_frame active_paths items σ :
  objects (foldl (cleanup_step active_paths) σ items) = objects σ
  ∧ meshes (foldl (cleanup_step active_paths) σ items) = meshes σ
  ∧ text_area (foldl (cleanup_step active_paths) σ items) = text_area σ.
Proof.
  revert σ. induction items as [|[s f] items IH]; intros σ; [done|].
  cbn. destruct (IH (if bool_decide (f ∉ active_paths)
                     then remove_int_file f σ else σ)) as (-> & -> & ->).
  case_bool_decide; [apply remove_int_file_frame|done].
Qed.

Lemma cleanup_steps_tracked active_paths items σ short_name full_path :
  tracked_path (foldl (cleanup_step active_paths) σ items) short_name
  = Some full_path →
  tracked_path σ short_name = Some full_path.
Proof.
  revert σ. induction items as [|[s f] items IH]; intros σ; [done|].
  cbn. intros Ht%IH. case_bool_decide; [|done].
  by apply remove_int_file_tracked in Ht.
Qed.

Lemma cleanup_steps_other active_paths items σ short_name :
  (∀ s f, (s, f) ∈ items → f ∉ active_paths →
          to_short_filename f ≠ short_name) →
  document (foldl (cleanup_step active_paths) σ items) short_name
  = document σ short_name.
Proof.
  revert σ. induction items as [|[s f] items IH]; intros σ Hitems; [done|].
  cbn. rewrite IH.
  - case_bool_decide as Hf; [|done]. apply remove_int_file_other.
    apply (Hitems s f); [|done]. apply elem_of_cons. by left.
  - intros s' f' Hin. apply (Hitems s'). apply elem_of_cons. by right.
Qed.

Lemma cleanup_steps_live active_paths items σ :
  (∀ s f, (s, f) ∈ items → f ∈ active_paths) →
  foldl (cleanup_step active_paths) σ items = σ.
Proof.
  revert σ. induction items as [|[s f] items IH]; intros σ Hitems; [done|].
  cbn. rewrite bool_decide_false.
  - apply IH. intros s' f' Hin. apply (Hitems s'). apply elem_of_cons. by right.
  - intros Hn. apply Hn, (Hitems s). apply elem_of_cons. by left.
Qed.

Lemma cleanup_wf σ : mapping_wf σ → mapping_wf (_cleanup_orphan_internal_texts σ).
Proof.
  intros Hwf. destruct (scene σ) as [sc|] eqn:Hsc.
  - destruct (short_to_full_filename sc) as [mapping|] eqn:Hm.
    + rewrite (cleanup_unfold _ _ _ Hsc Hm). by apply cleanup_steps_wf.
    + unfold _cleanup_orphan_internal_texts. by rewrite Hsc, Hm.
  - unfold _cleanup_orphan_internal_texts. by rewrite Hsc.
Qed.

Lemma cleanup_frame σ :
  objects (_cleanup_orphan_internal_texts σ) = objects σ
  ∧ meshes (_cleanup_orphan_internal_texts σ) = meshes σ
  ∧ text_area (_cleanup_orphan_internal_texts σ) = text_area σ.
Proof.
  destruct (scene σ) as [sc|] eqn:Hsc.
  - destruct (short_to_full_filename sc) as [mapping|] eqn:Hm.
    + rewrite (cleanup_unfold _ _ _ Hsc Hm). apply cleanup_steps_frame.
    + unfold _cleanup_orphan_internal_texts. by rewrite Hsc, Hm.
  - unfold _cleanup_orphan_internal_texts. by rewrite Hsc.
Qed.

(** After a cleanup pass every tracked path is the path of a live mesh
    object. *)
Lemma cleanup_tracked_live σ short_name full_path :
  mapping_wf σ →
  tracked_path (_cleanup_orphan_internal_texts σ) short_name = Some full_path →
  tracked_path σ short_name = Some full_path
  ∧ full_path ∈ _collect_active_vpg_paths σ.
Proof.
  intros Hwf Ht.
  destruct (scene σ) as [sc|] eqn:Hsc;
    [|by unfold tracked_path, _cleanup_orphan_internal_texts in Ht;
         rewrite Hsc in Ht; cbn in Ht; rewrite Hsc in Ht].
  destruct (short_to_full_filename sc) as [mapping|] eqn:Hm;
    [|by unfold tracked_path, _cleanup_orphan_internal_texts in Ht;
         rewrite Hsc, Hm in Ht; cbn in Ht; rewrite Hsc in Ht; cbn in Ht;
         rewrite Hm in Ht].
  rewrite (cleanup_unfold _ _ _ Hsc Hm) in Ht.
  pose proof (cleanup_steps_tracked _ _ _ _ _ Ht) as Ht0.
  split; [done|].
  destruct (decide (full_path ∈ _collect_active_vpg_paths σ)) as [|Hn]; [done|].
  assert ((short_name, full_path) ∈ map_to_list mapping) as Hin.
  { apply elem_of_map_to_list. unfold tracked_path in Ht0.
    by rewrite Hsc in Ht0; cbn in Ht0; rewrite Hm in Ht0. }
  pose proof (cleanup_steps_forget _ _ σ _ _ Hin Hn) as (_ & Hgone & _).
  rewrite (Hwf _ _ Ht0) in Hgone. congruence.
Qed.

End MoreEditorFacts.

Section EditorProperties.
Context {float : Type} `{!FloatCodec float}.
Implicit Types (σ : Blender float).

Lemma show_int_file_frame σ filename :
  texts (show_int_file filename σ) = texts σ
  ∧ scene (show_int_file filename σ) = scene σ
  ∧ meshes (show_int_file filename σ) = meshes σ
  ∧ objects (show_int_file filename σ) = objects σ
  ∧ history_stack (show_int_file filename σ) = history_stack σ
  ∧ history_stack_idx (show_int_file filename σ) = history_stack_idx σ.
Proof.
  unfold show_int_file. destruct (texts σ !! _); [|done].
  by destruct (text_area σ).
Qed.

Lemma sync_tracked obj σ short_name full_path :
  tracked_path (_sync_object_text obj σ).2 short_name = Some full_path →
  tracked_path σ short_name = Some full_path
  ∨ to_short_filename full_path = short_name.
Proof.
  unfold _sync_object_text.
  destruct (obj_data obj) as [mesh_name|]; [|by left].
  destruct (meshes σ !! mesh_name) as [mesh|]; [|by left].
  destruct (truthy (vpg_file_path mesh)) as [vpg_path|]; [|by left].
  destruct (mesh_to_vpg_text _ _ _) as [new_text bm].
  case_bool_decide; [by left|]. cbn [snd].
  match goal with
  | |- context [write_int_file _ _ ?s] =>
      assert (∀ k, tracked_path s k = tracked_path σ k) as Hsame by done;
      generalize dependent s; intros σ1 Hsame
  end.
  pose proof (write_int_file_tracked σ1 vpg_path new_text short_name full_path)
    as Ht.
  destruct (write_int_file _ _ σ1) as [σ' [e|]]; cbn [fst] in Ht.
  - intros [Hold|[<- ->]]%Ht; [left|by right]. by rewrite <- Hsame.
  - assert (tracked_path (show_int_file vpg_path
              (set_prev_text (to_short_filename vpg_path) new_text σ'))
              short_name = tracked_path σ' short_name) as ->.
    { unfold tracked_path.
      destruct (show_int_file_frame (set_prev_text (to_short_filename vpg_path)
                                       new_text σ') vpg_path) as (_ & -> & _).
      unfold set_prev_text.
      destruct (scene σ') as [sc|] eqn:Hsc; cbn; by rewrite ?Hsc. }
    intros [Hold|[<- ->]]%Ht; [left|by right]. by rewrite <- Hsame.
Qed.

(** X17. Writing an internal text files it under the short name of the
    path. The write goes through exactly when there is a scene and the
    short name is not empty and shorter than 64 bytes: afterwards the
    text is read back under the path, and under every other path with
    the same short name (such paths share one internal text); the short
    name is mapped to the path written last; the previous text of the
    document, which the change detection compares with, stays what it
    was, and only a document without one is given the entry [None]; the
    internal texts of other short names, their paths and their previous
    texts are what they were. Without a scene [TypeError] is raised and
    nothing is changed; with a scene and an empty or too long short name
    [KeyError] is raised, and neither the internal text of the path nor
    any previous text is written. *)
Theorem written_text_is_read_back σ filename text :
  match write_int_file filename text σ with
  | (σ', None) =>
      is_Some (scene σ)
      ∧ writable_name (to_short_filename filename) = true
      ∧ tracked_path σ' (to_short_filename filename) = Some filename
      ∧ (∀ other, to_short_filename other = to_short_filename filename →
                  read_int_file other σ' = Some text)
      ∧ prev_text σ' (to_short_filename filename)
        = Some (default None (prev_text σ (to_short_filename filename)))
      ∧ (∀ short_name, short_name ≠ to_short_filename filename →
                       document σ' short_name = document σ short_name)
  | (σ', Some e) =>
      (scene σ = None ∧ e = Exn TypeError ∧ σ' = σ)
      ∨ (is_Some (scene σ)
         ∧ writable_name (to_short_filename filename) = false
         ∧ e = KeyError
         ∧ read_int_file filename σ' = read_int_file filename σ
         ∧ ∀ short_name, prev_text σ' short_name = prev_text σ short_name)
  end.
Proof.
  destruct (write_int_file_cases σ filename text)
    as [[Hsc ->]|[(sc & Hsc & Hbad & ts & mapping & -> & Hts & _)
                 |(sc & Hsc & Hgood & ->)]].
  - by left.
  - right. split; [by eexists|]. split; [done|]. split; [done|].
    split; [done|]. intros k. unfold prev_text. by rewrite Hsc.
  - split; [by eexists|]. split; [done|].
    unfold tracked_path, read_int_file, prev_text, document.
    unfold tracked_path, prev_text. rewrite Hsc. cbn.
    split; [by rewrite lookup_insert_eq|].
    split; [intros other ->; by rewrite lookup_insert_eq|]. split.
    + destruct (prev_texts sc) as [prev|]; cbn.
      * destruct (prev !! to_short_filename filename) as [p|] eqn:Hp; cbn;
          [by rewrite Hp|by rewrite lookup_insert_eq].
      * rewrite lookup_empty. by rewrite lookup_insert_eq.
    + intros short_name Hne. rewrite !lookup_insert_ne by done.
      f_equal; [f_equal|].
      * by destruct (short_to_full_filename sc).
      * destruct (prev_texts sc) as [prev|]; cbn.
        -- destruct (prev !! to_short_filename filename); [done|].
           by rewrite lookup_insert_ne.
        -- rewrite lookup_empty. by rewrite lookup_insert_ne, lookup_empty.
Qed.

(** X18. Every function that changes the path mapping keeps it filed by
    short name: if every entry is filed under the short name of its
    path, the same holds after [write_int_file] (whether it returns or
    raises), [remove_int_file], a cleanup pass and
    [_sync_object_text]. *)
Theorem path_mapping_stays_filed_by_short_name σ :
  mapping_wf σ →
  (∀ filename text, mapping_wf (write_int_file filename text σ).1)
  ∧ (∀ filename, mapping_wf (remove_int_file filename σ))
  ∧ mapping_wf (_cleanup_orphan_internal_texts σ)
  ∧ (∀ obj, mapping_wf (_sync_object_text obj σ).2).
Proof.
  intros Hwf. split; [|split; [|split]].
  - intros filename text. by apply write_int_file_wf.
  - intros filename. by apply remove_int_file_wf.
  - by apply cleanup_wf.
  - intros obj k p [Hold|Hnew]%sync_tracked; [by apply Hwf|done].
Qed.

(** X19. The paths in use are exactly the non-empty VPG paths of the
    meshes of mesh objects: an object that is not a mesh, an object
    without mesh data and a mesh without a path or with an empty path
    keep no document alive. *)
Theorem active_paths_are_the_paths_of_mesh_objects σ vpg_path :
  vpg_path ∈ _collect_active_vpg_paths σ ↔
  ∃ obj mesh, obj ∈ objects σ ∧ obj_is_mesh obj = true
              ∧ obj_mesh σ obj = Some mesh
              ∧ vpg_file_path mesh = Some vpg_path ∧ vpg_path ≠ "".
Proof.
  assert (∀ v, truthy v = Some vpg_path ↔ v = Some vpg_path ∧ vpg_path ≠ "")
    as Htruthy.
  { intros [[|c p]|]; cbn; split; try done.
    - by intros [[= <-] ?].
    - by intros [= <-].
    - by intros [[= <-] _].
    - by intros [? _]. }
  rewrite collect_active_vpg_paths_spec.
  split; intros (obj & mesh & Hin & Hm & Hmesh & Hp);
    exists obj, mesh; (split; [done|]); (split; [done|]); (split; [done|]);
    by apply Htruthy.
Qed.

(** X20. A cleanup pass keeps the documents in use: the internal text of
    a tracked path that a live mesh object names keeps its content, its
    path and its previous text. *)
Theorem cleanup_keeps_live_documents σ short_name full_path :
  mapping_wf σ →
  tracked_path σ short_name = Some full_path →
  full_path ∈ _collect_active_vpg_paths σ →
  document (_cleanup_orphan_internal_texts σ) short_name
  = document σ short_name.
Proof.
  intros Hwf Ht Hlive. unfold tracked_path in Ht.
  destruct (scene σ) as [sc|] eqn:Hsc; [|done]. cbn in Ht.
  destruct (short_to_full_filename sc) as [mapping|] eqn:Hm; [|done].
  cbn in Ht. rewrite (cleanup_unfold _ _ _ Hsc Hm).
  apply cleanup_steps_other. intros s f Hin%elem_of_map_to_list Hf Heq.
  assert (tracked_path σ s = Some f) as Hs.
  { unfold tracked_path. rewrite Hsc. cbn. by rewrite Hm. }
  rewrite (Hwf _ _ Hs) in Heq. subst s.
  rewrite Ht in Hin. injection Hin as ->. done.
Qed.

(** X21. After a cleanup pass every tracked document belongs to a live
    mesh object: the path of every entry left in the mapping is named by
    a mesh object. Nothing is left to do for a second pass, which
    changes nothing. *)
Theorem cleanup_leaves_only_live_documents σ :
  mapping_wf σ →
  (∀ short_name full_path,
     tracked_path (_cleanup_orphan_internal_texts σ) short_name
     = Some full_path →
     full_path ∈ _collect_active_vpg_paths (_cleanup_orphan_internal_texts σ))
  ∧ _cleanup_orphan_internal_texts (_cleanup_orphan_internal_texts σ)
    = _cleanup_orphan_internal_texts σ.
Proof.
  intros Hwf.
  assert (_collect_active_vpg_paths (_cleanup_orphan_internal_texts σ)
          = _collect_active_vpg_paths σ) as Hactive.
  { destruct (cleanup_frame σ) as (Ho & Hm & _). by apply active_paths_frame. }
  assert (∀ short_name full_path,
            tracked_path (_cleanup_orphan_internal_texts σ) short_name
            = Some full_path →
            full_path ∈ _collect_active_vpg_paths
                          (_cleanup_orphan_internal_texts σ)) as Hlive.
  { intros k p Hk. rewrite Hactive.
    by destruct (cleanup_tracked_live σ k p Hwf Hk). }
  split; [done|].
  set (σ' := _cleanup_orphan_internal_texts σ) in *.
  destruct (scene σ') as [sc|] eqn:Hsc;
    [|by unfold _cleanup_orphan_internal_texts at 1; rewrite Hsc].
  destruct (short_to_full_filename sc) as [mapping|] eqn:Hm;
    [|by unfold _cleanup_orphan_internal_texts at 1; rewrite Hsc, Hm].
  rewrite (cleanup_unfold σ' _ _ Hsc Hm). apply cleanup_steps_live.
  intros s f Hin%elem_of_map_to_list. apply (Hlive s).
  unfold tracked_path. rewrite Hsc. cbn. by rewrite Hm.
Qed.

End EditorProperties.

Section SyncProperties.
Context {float : Type} `{!FloatCodec float}.
Implicit Types (σ : Blender float).

(** What a sync that found a change leaves behind. *)
Lemma sync_change_post σ obj mesh_name mesh vpg_path new_text :
  obj_data obj = Some mesh_name →
  meshes σ !! mesh_name = Some mesh →
  truthy (vpg_file_path mesh) = Some vpg_path →
  (mesh_to_vpg_text (geometry mesh) (obj_mode_edit obj)
     (reference_text σ mesh vpg_path)).1 = new_text →
  Some new_text ≠ reference_text σ mesh vpg_path →
  ∃ σ', _sync_object_text obj σ = (true, σ')
    ∧ mesh_data <$> meshes σ' !! mesh_name = Some (Some new_text)
    ∧ history_stack σ' = history_stack σ
    ∧ history_stack_idx σ' = history_stack_idx σ
    ∧ (is_Some (scene σ) →
       writable_name (to_short_filename vpg_path) = true →
         read_int_file vpg_path σ' = Some new_text
         ∧ tracked_path σ' (to_short_filename vpg_path) = Some vpg_path
         ∧ prev_text σ' (to_short_filename vpg_path) = Some (Some new_text)
         ∧ (is_Some (text_area σ) →
              text_area σ' = Some (Some (to_short_filename vpg_path)))
         ∧ (text_area σ = None → text_area σ' = None))
    ∧ (scene σ = None ∨ writable_name (to_short_filename vpg_path) = false →
         read_int_file vpg_path σ' = read_int_file vpg_path σ
         ∧ (∀ short_name, prev_text σ' short_name = prev_text σ short_name)
         ∧ text_area σ' = text_area σ)
    ∧ (scene σ = None → texts σ' = texts σ ∧ scene σ' = None).
Proof.
  intros Hobj Hmesh Hpath Htext Hdiff.
  unfold _sync_object_text. rewrite Hobj, Hmesh, Hpath.
  unfold reference_text in Htext, Hdiff.
  destruct (mesh_to_vpg_text _ _ _) as [text bm] eqn:Hser.
  cbn in Htext. subst text.
  rewrite bool_decide_false by (by destruct (mesh_data mesh)).
  match goal with
  | |- context [write_int_file _ _ ?s] => set (σ1 := s)
  end.
  assert (scene σ1 = scene σ ∧ texts σ1 = texts σ
          ∧ text_area σ1 = text_area σ
          ∧ history_stack σ1 = history_stack σ
          ∧ history_stack_idx σ1 = history_stack_idx σ
          ∧ mesh_data <$> meshes σ1 !! mesh_name = Some (Some new_text))
    as (Hs1 & Ht1 & Ha1 & Hh1 & Hi1 & Hm1).
  { unfold σ1. cbn. by rewrite lookup_insert_eq. }
  clearbody σ1.
  destruct (write_int_file_cases σ1 vpg_path new_text)
    as [[Hsc ->]|[(sc & Hsc & Hbad & ts & mapping & -> & Hts & _)
                 |(sc & Hsc & Hgood & ->)]].
  - exists σ1. split; [done|]. rewrite Hs1 in Hsc.
    split; [done|]. split; [done|]. split; [done|].
    split; [rewrite Hsc; by intros [? ?]|]. split.
    + intros _. unfold read_int_file, prev_text. by rewrite Ht1, Hs1.
    + by rewrite Ht1, Hs1.
  - eexists. split; [done|]. cbn. rewrite Hs1 in Hsc.
    split; [done|]. split; [done|]. split; [done|].
    split; [intros _ Hgood; congruence|]. split.
    + intros _. unfold read_int_file, prev_text. cbn.
      rewrite Hts, Ht1, Hsc. done.
    + by rewrite Hsc.
  - unfold show_int_file, set_prev_text. cbn. rewrite lookup_insert_eq.
    rewrite Hs1 in Hsc.
    destruct (text_area σ1) as [a|] eqn:Ha; eexists; (split; [done|]); cbn;
      (split; [done|]); (split; [done|]); (split; [done|]);
      (split; [|split; [intros [?|?]; congruence|by rewrite Hsc]]);
      intros _ _; unfold read_int_file, tracked_path, prev_text; cbn;
      rewrite !lookup_insert_eq, <- Ha1; repeat split; try done;
      by intros [? ?].
Qed.

(** When a sync reports a change, it found one. *)
Lemma sync_change_inv σ obj σ' :
  _sync_object_text obj σ = (true, σ') →
  ∃ mesh_name mesh vpg_path,
    obj_data obj = Some mesh_name
    ∧ meshes σ !! mesh_name = Some mesh
    ∧ truthy (vpg_file_path mesh) = Some vpg_path
    ∧ Some (mesh_to_vpg_text (geometry mesh) (obj_mode_edit obj)
              (reference_text σ mesh vpg_path)).1
      ≠ reference_text σ mesh vpg_path.
Proof.
  unfold _sync_object_text.
  destruct (obj_data obj) as [mesh_name|] eqn:Hobj; [|done].
  destruct (meshes σ !! mesh_name) as [mesh|] eqn:Hmesh; [|done].
  destruct (truthy (vpg_file_path mesh)) as [vpg_path|] eqn:Hpath; [|done].
  fold (reference_text σ mesh vpg_path).
  destruct (mesh_to_vpg_text _ _ _) as [new_text bm] eqn:Hser.
  case_bool_decide as Hsame; [done|]. intros _.
  exists mesh_name, mesh, vpg_path. repeat split; try done.
  rewrite Hser. cbn. intros Heq. apply Hsame. rewrite Heq.
  unfold reference_text. by destruct (mesh_data mesh).
Qed.

(** X22. When the text serialized from the geometry differs from the
    reference text, [_sync_object_text] returns [True], caches the new
    text on the mesh and leaves the undo history alone. With a scene
    and a path whose short name is not empty and shorter than 64 bytes
    it also writes the new text to the internal text of the path, maps
    the short name to the path, records the new text as the previous
    text and shows the text in the text editor area, if there is one.
    Without a scene, and for a path whose short name is empty or too
    long (the [KeyError] of [write_int_file] is caught), the internal
    text of the path, the previous texts and the text editor area are
    left as they were: only the cache has the new text. *)
Theorem sync_with_change_updates_cache_and_text
    σ obj mesh_name mesh vpg_path new_text :
  obj_data obj = Some mesh_name →
  meshes σ !! mesh_name = Some mesh →
  truthy (vpg_file_path mesh) = Some vpg_path →
  (mesh_to_vpg_text (geometry mesh) (obj_mode_edit obj)
     (reference_text σ mesh vpg_path)).1 = new_text →
  Some new_text ≠ reference_text σ mesh vpg_path →
  ∃ σ', _sync_object_text obj σ = (true, σ')
    ∧ mesh_data <$> meshes σ' !! mesh_name = Some (Some new_text)
    ∧ history_stack σ' = history_stack σ
    ∧ history_stack_idx σ' = history_stack_idx σ
    ∧ (is_Some (scene σ) →
       writable_name (to_short_filename vpg_path) = true →
         read_int_file vpg_path σ' = Some new_text
         ∧ tracked_path σ' (to_short_filename vpg_path) = Some vpg_path
         ∧ prev_text σ' (to_short_filename vpg_path) = Some (Some new_text)
         ∧ (is_Some (text_area σ) →
              text_area σ' = Some (Some (to_short_filename vpg_path))))
    ∧ (scene σ = None ∨ writable_name (to_short_filename vpg_path) = false →
         read_int_file vpg_path σ' = read_int_file vpg_path σ
         ∧ (∀ short_name, prev_text σ' short_name = prev_text σ short_name)
         ∧ text_area σ' = text_area σ)
    ∧ (scene σ = None → texts σ' = texts σ ∧ scene σ' = None).
Proof.
  intros Hobj Hmesh Hpath Htext Hdiff.
  destruct (sync_change_post σ obj mesh_name mesh vpg_path new_text)
    as (σ' & Hs & Hd & Hh & Hi & Hsc & Hbad & Hno); try done.
  exists σ'. split; [done|]. split; [done|]. split; [done|]. split; [done|].
  split; [|done]. intros Hscene Hname.
  destruct (Hsc Hscene Hname) as (? & ? & ? & ? & _). done.
Qed.

(** X23. Loading a file into the editor, with a scene. When the file
    can be read and the short name of the path is not empty and shorter
    than 64 bytes, the content is returned and is the content of the
    internal text of the path, which is mapped to the path; when the
    file can be read and the short name is empty or too long, [KeyError]
    is raised and the internal text of the path is what it was; when
    opening or reading raises [OSError], [None] is returned and nothing
    is changed; any other exception of the read reaches the caller. *)
Theorem external_file_is_loaded fs filepath σ :
  is_Some (scene σ) →
  match fs filepath with
  | Ok content =>
      if writable_name (to_short_filename filepath) then
        ∃ σ', write_from_ext_to_int_file fs filepath σ
              = (σ', Returns (Some content))
          ∧ read_int_file filepath σ' = Some content
          ∧ tracked_path σ' (to_short_filename filepath) = Some filepath
      else
        ∃ σ', write_from_ext_to_int_file fs filepath σ
              = (σ', Raises KeyError)
          ∧ read_int_file filepath σ' = read_int_file filepath σ
  | Raise OSError =>
      write_from_ext_to_int_file fs filepath σ = (σ, Returns None)
  | Raise e =>
      write_from_ext_to_int_file fs filepath σ = (σ, Raises (Exn e))
  end.
Proof.
  intros [sc0 Hsc0]. unfold write_from_ext_to_int_file, read_file.
  destruct (fs filepath) as [content|[]]; try done.
  destruct (write_int_file_cases σ filepath content)
    as [[Hsc ->]|[(sc & Hsc & Hbad & ts & mapping & -> & Hts & _)
                 |(sc & Hsc & Hgood & ->)]].
  - congruence.
  - rewrite Hbad. eexists. split; [done|]. done.
  - rewrite Hgood. eexists. split; [done|].
    unfold read_int_file, tracked_path. cbn. by rewrite !lookup_insert_eq.
Qed.

End SyncProperties.

(** * More facts: the undo history and the watcher's tick *)

Section HistoryFacts.
Context {float : Type}.
Implicit Types (σ : Blender float).

Lemma py_insert_then_slice {A} (xs : list A) (i : Z) (x : A) :
  0 ≤ i →
  py_slice_to (py_insert xs i x) (i + 1) = take (Z.to_nat i) xs ++ [x].
Proof.
  intros Hi. unfold py_slice_to, py_insert.
  replace (i <? 0) with false by (symmetry; apply Z.ltb_ge; lia).
  replace (i + 1 <? 0) with false by (symmetry; apply Z.ltb_ge; lia).
  rewrite length_app, length_take. cbn [length]. rewrite length_drop.
  destruct (decide (i ≤ Z.of_nat (length xs))) as [Hle|Hgt].
  - rewrite (Z.min_l i) by lia.
    replace (Z.to_nat (Z.min (i + 1) _)) with (S (Z.to_nat i)) by lia.
    rewrite take_app_ge by (rewrite length_take; lia).
    rewrite length_take.
    replace (S (Z.to_nat i) - Z.to_nat i `min` length xs)%nat with 1%nat by lia.
    cbn. by rewrite take_0.
  - rewrite (Z.min_r i) by lia. rewrite Nat2Z.id.
    rewrite firstn_all, drop_all.
    replace (Z.to_nat (Z.min (i + 1) _)) with (S (length xs)) by lia.
    rewrite take_ge by (rewrite length_app; cbn; lia).
    by rewrite take_ge by lia.
Qed.

(** The stack after a push: the entries up to the cursor, the new
    entry, and the oldest entry dropped when that makes more than
    [HISTORY_STACK_SIZE]. *)
Lemma history_push_stack σ k t :
  -1 ≤ history_stack_idx σ →
  history_stack (history_push k t σ)
  = let stack := take (Z.to_nat (history_stack_idx σ + 1)) (history_stack σ)
                 ++ [{[ k := t ]}] in
    if (HISTORY_STACK_SIZE <? length stack)%nat then drop 1 stack else stack.
Proof.
  intros Hidx. unfold history_push. cbn [history_stack with_history].
  by rewrite py_insert_then_slice by lia.
Qed.

End HistoryFacts.

Section HistoryProperties.
Context {float : Type}.
Variable on_file_change : string → Blender float → outcome (Blender float).
Implicit Types (σ : Blender float).

Lemma set_prev_text_frame σ k t :
  texts (set_prev_text k t σ) = texts σ
  ∧ text_area (set_prev_text k t σ) = text_area σ
  ∧ history_stack (set_prev_text k t σ) = history_stack σ
  ∧ history_stack_idx (set_prev_text k t σ) = history_stack_idx σ.
Proof. unfold set_prev_text. by destruct (scene σ). Qed.

(** What a check leaves behind, when the scene has both dictionaries. *)
Lemma check_open_cases undoing_redoing σ :
  rebuilds_meshes_only on_file_change →
  scene_ready σ →
  match check_open_int_file_for_changes on_file_change undoing_redoing σ with
  | Returns (changed, σ') =>
      texts σ' = texts σ ∧ text_area σ' = text_area σ
      ∧ (undoing_redoing = true ∨ changed = false →
         history_stack σ' = history_stack σ
         ∧ history_stack_idx σ' = history_stack_idx σ)
      ∧ (changed = false → σ' = σ)
  | Raises e => ∃ path s, on_file_change path s = Raises e
  end.
Proof.
  intros Hframe (sc & Hsc & [prev Hprev] & [mapping Hmap]).
  unfold check_open_int_file_for_changes. rewrite Hsc, Hprev.
  destruct (shown_text σ) as [[short curr]|]; [|done].
  destruct (prev !! short) as [last_text|]; [|done].
  rewrite Hmap. destruct (mapping !! short) as [filename|]; [|done].
  case_bool_decide; [done|].
  destruct (on_file_change filename _) as [σ1|e] eqn:Hcall; [|by eauto].
  destruct (Hframe _ _ _ Hcall) as (Ht & _ & Ha & Hh & Hi).
  destruct (set_prev_text_frame σ short curr) as (Ht' & Ha' & Hh' & Hi').
  destruct undoing_redoing; cbn.
  - split; [congruence|]. split; [congruence|]. split; [|done].
    intros _. split; congruence.
  - split; [congruence|]. split; [congruence|]. split; [|done].
    by intros [|].
Qed.

(** An undo or redo step that lands on an entry for an existing
    internal text. *)
Lemma undo_redo_entry (undoing : bool) σ k t :
  rebuilds_meshes_only on_file_change →
  scene_ready σ →
  history_stack_idx σ ≠ -1 →
  history_stack σ
    !! Z.to_nat (clamp (if undoing then history_stack_idx σ - 1
                        else history_stack_idx σ + 1)
                   0 (Z.of_nat (length (history_stack σ)) - 1))
  = Some {[ k := t ]} →
  is_Some (texts σ !! k) →
  match on_undo_redo on_file_change undoing σ with
  | Returns σ' =>
      texts σ' = <[k := t]> (texts σ)
      ∧ history_stack σ' = history_stack σ
      ∧ history_stack_idx σ'
        = clamp (if undoing then history_stack_idx σ - 1
                 else history_stack_idx σ + 1)
            0 (Z.of_nat (length (history_stack σ)) - 1)
  | Raises e => ∃ path s, on_file_change path s = Raises e
  end.
Proof.
  intros Hframe Hready Hidx Hentry [old Hold].
  pose proof Hready as (sc & Hsc & [prev Hprev] & [mapping Hmap]).
  unfold on_undo_redo. rewrite Hsc, Hmap, Hprev.
  replace (history_stack_idx σ =? -1) with false
    by (symmetry; by apply Z.eqb_neq).
  set (idx := clamp _ 0 _) in *. cbn [history_stack with_history texts].
  assert (0 ≤ idx) as H0 by (unfold idx, clamp; lia).
  pose proof (lookup_lt_Some _ _ _ Hentry) as Hlt.
  unfold resolve_index.
  replace (0 <=? idx) with true by (symmetry; apply Z.leb_le; lia).
  replace (idx <? Z.of_nat (length (history_stack σ))) with true
    by (symmetry; apply Z.ltb_lt; lia).
  cbn. unfold getitem. rewrite Hentry, map_to_list_singleton.
  cbn [restore_texts]. rewrite Hold.
  set (σ1 := with_texts _ _).
  assert (scene_ready σ1) as Hready1 by done.
  pose proof (check_open_cases true σ1 Hframe Hready1) as Hcheck.
  destruct (check_open_int_file_for_changes _ true σ1) as [[changed σ2]|e];
    [|done].
  destruct Hcheck as (Ht & _ & Hh & _).
  destruct Hh as [Hh Hi]; [by left|]. by rewrite Ht, Hh, Hi.
Qed.

(** X24. A push onto the history records the edit as the newest entry,
    discards the entries after the cursor (the redo tail) and drops the
    oldest entry when the stack would grow beyond
    [HISTORY_STACK_SIZE = 250]: afterwards the stack is the entries up
    to the old cursor and the new entry, less at most one entry at the
    front, and it has at most 250 entries. The cursor is moved up by
    one, also when the oldest entry is dropped. *)
Theorem push_records_the_edit σ k t :
  -1 ≤ history_stack_idx σ →
  (length (history_stack σ) ≤ HISTORY_STACK_SIZE)%nat →
  last (history_stack (history_push k t σ)) = Some {[ k := t ]}
  ∧ (length (history_stack (history_push k t σ)) ≤ HISTORY_STACK_SIZE)%nat
  ∧ history_stack_idx (history_push k t σ) = history_stack_idx σ + 1
  ∧ ∃ dropped,
      (length dropped ≤ 1)%nat
      ∧ dropped ++ history_stack (history_push k t σ)
        = take (Z.to_nat (history_stack_idx σ + 1)) (history_stack σ)
          ++ [{[ k := t ]}].
Proof.
  intros Hidx Hlen. rewrite (history_push_stack σ k t Hidx). cbn zeta.
  set (kept := take (Z.to_nat (history_stack_idx σ + 1)) (history_stack σ)).
  assert (length kept ≤ HISTORY_STACK_SIZE)%nat as Hkept.
  { unfold kept. rewrite length_take. lia. }
  destruct (HISTORY_STACK_SIZE <? length (kept ++ [{[k := t]}]))%nat eqn:Hfull.
  - apply Nat.ltb_lt in Hfull. rewrite length_app in Hfull. cbn in Hfull.
    destruct kept as [|e kept']; [cbn in Hfull; unfold HISTORY_STACK_SIZE in *; lia|].
    cbn [app drop]. rewrite drop_0. repeat split.
    + by rewrite last_snoc.
    + rewrite length_app. cbn in *. lia.
    + exists [e]. by split.
  - apply Nat.ltb_ge in Hfull. repeat split.
    + by rewrite last_snoc.
    + done.
    + exists []. by split; [cbn; lia|].
Qed.

(** X25. Undo and redo move the cursor by one inside the history, never
    past its ends, and put the text of the entry they land on back into
    its internal text; the stack itself is not changed. The step fails
    only when rebuilding the meshes fails. *)
Theorem undo_redo_restores_the_entry_under_the_cursor
    (undoing : bool) σ idx k t :
  rebuilds_meshes_only on_file_change →
  scene_ready σ →
  history_stack_idx σ ≠ -1 →
  idx = clamp (if undoing then history_stack_idx σ - 1
               else history_stack_idx σ + 1)
          0 (Z.of_nat (length (history_stack σ)) - 1) →
  history_stack σ !! Z.to_nat idx = Some {[ k := t ]} →
  is_Some (texts σ !! k) →
  0 ≤ idx < Z.of_nat (length (history_stack σ))
  ∧ match on_undo_redo on_file_change undoing σ with
    | Returns σ' =>
        history_stack_idx σ' = idx
        ∧ history_stack σ' = history_stack σ
        ∧ texts σ' = <[k := t]> (texts σ)
    | Raises e => ∃ path s, on_file_change path s = Raises e
    end.
Proof.
  intros Hframe Hready Hidx -> Hentry Hk. split.
  - pose proof (lookup_lt_Some _ _ _ Hentry). unfold clamp in *. lia.
  - pose proof (undo_redo_entry undoing σ k t Hframe Hready Hidx Hentry Hk)
      as Hstep.
    destruct (on_undo_redo _ _ _) as [σ'|e]; [|done].
    by destruct Hstep as (? & ? & ?).
Qed.

(** X26. Undo after an edit goes back to the state before the edit when
    the history is not full: after a push onto a history of fewer than
    250 entries whose cursor is on the newest entry, an undo step puts
    the text of the entry that was the newest before the push back into
    its internal text and moves the cursor back to it. *)
Theorem undo_after_a_push_restores_the_previous_entry σ k t k0 t0 :
  rebuilds_meshes_only on_file_change →
  scene_ready σ →
  (length (history_stack σ) < HISTORY_STACK_SIZE)%nat →
  history_stack_idx σ = Z.of_nat (length (history_stack σ)) - 1 →
  last (history_stack σ) = Some {[ k0 := t0 ]} →
  is_Some (texts σ !! k0) →
  match on_undo_redo on_file_change true (history_push k t σ) with
  | Returns σ' =>
      texts σ' = <[k0 := t0]> (texts σ)
      ∧ history_stack_idx σ' = history_stack_idx σ
  | Raises e => ∃ path s, on_file_change path s = Raises e
  end.
Proof.
  intros Hframe Hready Hlen Hidx Hlast Hk0.
  assert (history_stack σ ≠ []) as Hne by (by destruct (history_stack σ)).
  assert (0 < length (history_stack σ))%nat as Hpos
    by (destruct (history_stack σ); [done|cbn; lia]).
  assert (history_stack (history_push k t σ)
          = history_stack σ ++ [{[ k := t ]}]) as Hstack.
  { rewrite history_push_stack by lia. cbn zeta.
    rewrite take_ge by lia.
    replace (HISTORY_STACK_SIZE <? _)%nat with false; [done|].
    symmetry. apply Nat.ltb_ge. rewrite length_app. cbn. lia. }
  assert (history_stack_idx (history_push k t σ) = history_stack_idx σ + 1)
    as Hidx' by done.
  pose proof (undo_redo_entry true (history_push k t σ) k0 t0 Hframe) as Hstep.
  rewrite Hstack, Hidx', length_app in Hstep. cbn [length] in Hstep.
  replace (clamp (history_stack_idx σ + 1 - 1) 0
             (Z.of_nat (length (history_stack σ) + 1) - 1))
    with (history_stack_idx σ) in Hstep by (unfold clamp; lia).
  assert ((history_stack σ ++ [{[k := t]}]) !! Z.to_nat (history_stack_idx σ)
          = Some {[k0 := t0]}) as Hentry.
  { rewrite lookup_app_l by lia. rewrite last_lookup in Hlast.
    rewrite <- Hlast. f_equal. lia. }
  specialize (Hstep Hready ltac:(lia) Hentry Hk0).
  destruct (on_undo_redo _ _ _) as [σ'|e]; [|done].
  by destruct Hstep as (? & _ & ?).
Qed.

(** X27. On a full history the cursor is lost: a push onto a history of
    250 entries with the cursor on the newest entry drops the oldest
    entry and still moves the cursor up, to one past the end of the
    stack. The undo step that follows lands on the entry just pushed
    and puts back the text of the edit itself, not the text before
    it. *)
Theorem undo_after_a_push_on_a_full_history_restores_the_edit σ k t :
  rebuilds_meshes_only on_file_change →
  scene_ready σ →
  length (history_stack σ) = HISTORY_STACK_SIZE →
  history_stack_idx σ = Z.of_nat HISTORY_STACK_SIZE - 1 →
  is_Some (texts σ !! k) →
  history_stack (history_push k t σ)
  = drop 1 (history_stack σ) ++ [{[ k := t ]}]
  ∧ history_stack_idx (history_push k t σ)
    = Z.of_nat (length (history_stack (history_push k t σ)))
  ∧ match on_undo_redo on_file_change true (history_push k t σ) with
    | Returns σ' =>
        texts σ' = <[k := t]> (texts σ)
        ∧ history_stack_idx σ' = history_stack_idx σ
    | Raises e => ∃ path s, on_file_change path s = Raises e
    end.
Proof.
  intros Hframe Hready Hlen Hidx Hk.
  assert (history_stack (history_push k t σ)
          = drop 1 (history_stack σ) ++ [{[ k := t ]}]) as Hstack.
  { rewrite history_push_stack by (unfold HISTORY_STACK_SIZE in *; lia).
    cbn zeta. rewrite take_ge by lia.
    replace (HISTORY_STACK_SIZE <? _)%nat with true
      by (symmetry; apply Nat.ltb_lt; rewrite length_app; cbn; lia).
    destruct (history_stack σ); [done|]. done. }
  assert (length (history_stack (history_push k t σ)) = HISTORY_STACK_SIZE)
    as Hlen'.
  { rewrite Hstack, length_app, length_drop. cbn.
    unfold HISTORY_STACK_SIZE in *. lia. }
  assert (history_stack_idx (history_push k t σ) = history_stack_idx σ + 1)
    as Hidx' by done.
  split; [done|]. split; [rewrite Hlen', Hidx', Hidx; lia|].
  pose proof (undo_redo_entry true (history_push k t σ) k t Hframe) as Hstep.
  rewrite Hidx', Hlen' in Hstep.
  replace (clamp (history_stack_idx σ + 1 - 1) 0
             (Z.of_nat HISTORY_STACK_SIZE - 1))
    with (history_stack_idx σ) in Hstep
    by (unfold clamp, HISTORY_STACK_SIZE in *; lia).
  assert (history_stack (history_push k t σ) !! Z.to_nat (history_stack_idx σ)
          = Some {[k := t]}) as Hentry.
  { rewrite Hstack, lookup_app_r by (rewrite length_drop; lia).
    rewrite length_drop. by replace (_ - _)%nat with 0%nat by lia. }
  assert (history_stack_idx σ + 1 ≠ -1) as Hidx1
    by (unfold HISTORY_STACK_SIZE in *; lia).
  specialize (Hstep Hready Hidx1 Hentry Hk).
  destruct (on_undo_redo _ _ _) as [σ'|e]; [|done].
  by destruct Hstep as (? & _ & ?).
Qed.

(** X28. A change is detected once: when a check finds the shown text
    changed and [on_file_change] leaves the texts, the scene's
    properties and the text area alone, the check that follows finds no
    change, returns [False] and does nothing. *)
Theorem change_is_detected_once undoing_redoing σ σ' :
  rebuilds_meshes_only on_file_change →
  check_open_int_file_for_changes on_file_change undoing_redoing σ
  = Returns (true, σ') →
  ∀ again, check_open_int_file_for_changes on_file_change again σ'
           = Returns (false, σ').
Proof.
  intros Hframe. unfold check_open_int_file_for_changes at 1.
  destruct (scene σ) as [sc|] eqn:Hsc; [|done].
  destruct (prev_texts sc) as [prev|] eqn:Hprev; [|done].
  destruct (shown_text σ) as [[short curr]|] eqn:Hshown; [|done].
  destruct (prev !! short) as [last_text|]; [|done].
  destruct (short_to_full_filename sc) as [mapping|] eqn:Hmap; [|done].
  destruct (mapping !! short) as [filename|] eqn:Hfile; [|done].
  case_bool_decide; [done|].
  destruct (on_file_change filename _) as [σ1|e] eqn:Hcall; [|done].
  destruct (Hframe _ _ _ Hcall) as (Ht & Hs & Ha & _).
  destruct (set_prev_text_frame σ short curr) as (Ht' & Ha' & _).
  intros [= <-] again.
  assert (∀ s : Blender float,
    texts s = texts σ1 → scene s = scene σ1 → text_area s = text_area σ1 →
    check_open_int_file_for_changes on_file_change again s
    = Returns (false, s)) as Hquiet.
  { intros s Hst Hss Hsa. unfold check_open_int_file_for_changes.
    rewrite Hss, Hs. unfold set_prev_text. rewrite Hsc. cbn.
    assert (shown_text s = Some (short, curr)) as ->.
    { unfold shown_text in *. rewrite Hsa, Ha, Ha', Hst, Ht, Ht'. done. }
    rewrite Hprev. cbn. rewrite lookup_insert_eq, Hmap, Hfile.
    by rewrite bool_decide_true. }
  destruct undoing_redoing; by apply Hquiet.
Qed.

End HistoryProperties.

Section WatcherProperties.
Context {float : Type} `{!FloatCodec float}.
Implicit Types (σ : Blender float).

Lemma sync_wf obj σ : mapping_wf σ → mapping_wf (_sync_object_text obj σ).2.
Proof.
  intros Hwf k p [Hold|Hnew]%sync_tracked; [by apply Hwf|done].
Qed.

Lemma export_object_wf σ name : mapping_wf σ → mapping_wf (export_object σ name).
Proof.
  intros Hwf. unfold export_object.
  destruct (objects_get σ name) as [obj|]; [|done].
  destruct (negb (obj_is_mesh obj)); [done|]. by apply sync_wf.
Qed.

Lemma export_objects_wf names σ :
  mapping_wf σ → mapping_wf (foldl export_object σ names).
Proof.
  revert σ. induction names as [|name names IH]; intros σ Hwf; [done|].
  cbn. by apply IH, export_object_wf.
Qed.

(** X29. The watcher's write is not taken for an edit: after
    [_sync_object_text] has found a change and written the new text
    (there is a scene, and the short name of the path is one
    [write_int_file] can write under), the editor's check of the open
    text finds no change, returns [False] and does nothing, so the mesh
    is not rebuilt from the text the watcher has just written from
    it. *)
Theorem sync_write_is_not_taken_for_an_edit
    (on_file_change : string → Blender float → outcome (Blender float))
    obj σ σ' undoing_redoing :
  _sync_object_text obj σ = (true, σ') →
  is_Some (scene σ) →
  (∀ mesh_name mesh vpg_path,
     obj_data obj = Some mesh_name →
     meshes σ !! mesh_name = Some mesh →
     truthy (vpg_file_path mesh) = Some vpg_path →
     writable_name (to_short_filename vpg_path) = true) →
  check_open_int_file_for_changes on_file_change undoing_redoing σ'
  = Returns (false, σ').
Proof.
  intros Hsync Hscene Hname.
  destruct (sync_change_inv σ obj σ' Hsync)
    as (mesh_name & mesh & vpg_path & Hobj & Hmesh & Hpath & Hdiff).
  destruct (sync_change_post σ obj mesh_name mesh vpg_path _
              Hobj Hmesh Hpath eq_refl Hdiff)
    as (σ'' & Hsync' & _ & _ & _ & Hpost & _).
  rewrite Hsync in Hsync'. injection Hsync' as <-.
  destruct (Hpost Hscene (Hname _ _ _ Hobj Hmesh Hpath))
    as (Hread & Htracked & Hprev & Hshown & Hnone).
  unfold check_open_int_file_for_changes.
  unfold read_int_file, tracked_path, prev_text in *.
  destruct (scene σ') as [sc|]; [|done]. cbn in *.
  destruct (prev_texts sc) as [prev|]; [|done]. cbn in *.
  destruct (short_to_full_filename sc) as [mapping|]; [|done]. cbn in *.
  unfold shown_text. destruct (text_area σ) as [a|].
  - rewrite Hshown by done. cbn. rewrite Hread. cbn.
    rewrite Hprev, Htracked. by rewrite bool_decide_true.
  - by rewrite Hnone.
Qed.

(** X30. After a tick of the watcher every tracked document belongs to a
    live mesh object, whatever was pending and whichever object is
    active: a mapping filed by short name is still filed so, the path of
    every entry left in it is named by a mesh object, both export flags
    are down, and the set of pending objects is empty when a flag was
    up. *)
Theorem tick_leaves_only_live_documents active_object to_process w σ :
  mapping_wf σ →
  mapping_wf (poll_active_operators active_object to_process w σ).2
  ∧ (∀ short_name full_path,
       tracked_path (poll_active_operators active_object to_process w σ).2
         short_name = Some full_path →
       full_path ∈ _collect_active_vpg_paths
                     (poll_active_operators active_object to_process w σ).2)
  ∧ _do_export (poll_active_operators active_object to_process w σ).1 = false
  ∧ _force_do_export (poll_active_operators active_object to_process w σ).1
    = false
  ∧ (_force_do_export w || _do_export w = true →
     _modified_objects (poll_active_operators active_object to_process w σ).1
     = ∅).
Proof.
  intros Hwf. unfold poll_active_operators.
  set (first := if _force_do_export w || _do_export w then _ else _).
  assert (mapping_wf first.2
          ∧ _do_export first.1 = false ∧ _force_do_export first.1 = false
          ∧ (_force_do_export w || _do_export w = true →
             _modified_objects first.1 = ∅)) as (Hwf1 & Hd & Hf & Hm).
  { unfold first. destruct (_force_do_export w) eqn:Hforce;
      destruct (_do_export w) eqn:Hdo; cbn;
      repeat split; try done; by apply export_objects_wf. }
  destruct first as [w1 σ1]. cbn [fst snd] in *.
  set (σ2 := match active_object with Some _ => _ | None => _ end).
  assert (mapping_wf σ2) as Hwf2.
  { unfold σ2. destruct active_object as [active_obj|]; [|done].
    destruct (_ && _); [|done].
    destruct (obj_mesh σ1 active_obj) as [mesh|]; [|done].
    destruct (truthy _); [|done]. by apply sync_wf. }
  cbn [fst snd]. split; [by apply cleanup_wf|]. split; [|done].
  intros k p Hk.
  destruct (cleanup_tracked_live σ2 k p Hwf2 Hk) as [_ Hlive].
  destruct (cleanup_frame σ2) as (Ho & Hms & _).
  by rewrite (active_paths_frame _ _ Ho Hms).
Qed.

End WatcherProperties.

(** ** More statements on sample inputs *)

Section MoreSampleRuns.
Import Samples MoreSamples.
#[local] Existing Instance IntegralFloat.codec.

(** A second line for [n1] between the lines of [n1] and [n2]. *)
Lemma repeated_id_line_witness :
  parse_lines parsed_empty (["n1 0 0 0"] ++ "n1 1 1 1" :: ["n2 2 2 2"])
  = parse_lines parsed_empty (["n1 0 0 0"] ++ ["n2 2 2 2"]).
Proof.
  apply (repeated_id_line_is_skipped ["n1 0 0 0"] "n1 1 1 1" ["n2 2 2 2"] "n1").
  - vm_compute. reflexivity.
  - apply (bool_decide_unpack _). vm_compute. exact I.
Defined.

(** A vertex merged into the text with a header, a vertex and a
    face. *)
Lemma merged_text_witness :
  parse_vpg_text (_merge_geometry_with_existing header_text ["n1 1 1 1"])
  = parse_lines parsed_empty ["n1 1 1 1"].
Proof.
  apply (merged_text_parses_to_new_geometry header_text ["n1 1 1 1"]).
  - discriminate.
  - apply (bool_decide_unpack _). vm_compute. exact I.
Defined.

(** The triangle file is read as its content. *)
Lemma parse_vpg_witness :
  parse_vpg triangle_file_system "/models/tri.vpg"
  = parse_vpg_text
      (unlines ["n1 0 0 0"; "n2 1 0 0"; "n3 0 1 0"; "e1 1 2 3"; ""]).
Proof.
  apply (parse_vpg_agrees_with_parse_vpg_text triangle_file_system
           "/models/tri.vpg").
  - vm_compute. reflexivity.
  - vm_compute. reflexivity.
Defined.

(** The older importer on the triangle file. *)
Lemma legacy_parser_witness :
  ∃ vs tris,
    legacy_parse_vpg triangle_file_system "/models/tri.vpg" = Ok (vs, tris)
    ∧ length vs
      = count_lines is_valid_vertex_line
          (file_lines
             (unlines ["n1 0 0 0"; "n2 1 0 0"; "n3 0 1 0"; "e1 1 2 3"; ""]))
    ∧ (NoDup (declared_ids
                (file_lines
                   (unlines ["n1 0 0 0"; "n2 1 0 0"; "n3 0 1 0";
                             "e1 1 2 3"; ""]))) →
       ∃ doc, parse_vpg triangle_file_system "/models/tri.vpg" = Ok doc
              ∧ vs = vertices doc ∧ tris = indices doc).
Proof.
  apply (legacy_parser_has_no_ids triangle_file_system "/models/tri.vpg").
  vm_compute. reflexivity.
Defined.

(** The mesh of the triangle. *)
Lemma import_witness :
  match generate_mesh id (vertices triangle_doc) (indices triangle_doc)
          (node_index_to_id triangle_doc) with
  | Ok bm =>
      has_node_id_layer bm = true ∧ has_init_node_id_layer bm = true
      ∧ verts bm = zip_with (imported_vertex id)
                     (node_index_to_id triangle_doc) (vertices triangle_doc)
      ∧ faces bm = map triangle_corners (indices triangle_doc)
  | Raise e => e = ValueError
  end.
Proof.
  apply (import_mirrors_the_document id triangle_text triangle_doc).
  vm_compute. reflexivity.
Defined.

(** The stamps [n1], [N7], none, [n2], [n2] are written as
    [n1 .. n5]. *)
Lemma numeric_stamps_witness :
  emitted_ids quad_mesh
  = imap (λ idx _, expected_id idx) (verts quad_mesh).
Proof.
  apply (numeric_stamps_are_written_densely quad_mesh).
  apply (bool_decide_unpack _). vm_compute. exact I.
Defined.

(** After an edit-mode pass the second vertex of the mesh, which was
    stamped [N7], reads as [n2]. *)
Lemma edit_mode_pass_witness :
  verts (mesh_to_vpg_text quad_mesh true None).2 !! 1%nat
  = Some (stamped "n2" (1, 0, 0))
  ∧ read_node_id true (stamped "n2" (1, 0, 0)) = Some (expected_id 1).
Proof.
  split; [vm_compute; reflexivity|].
  apply (edit_mode_pass_leaves_dense_stamps quad_mesh None).
  - reflexivity.
  - apply (bool_decide_unpack _). vm_compute. exact I.
  - vm_compute. reflexivity.
Defined.

(** The two stamped vertices, merged into the text with a header. *)
Lemma base_text_witness :
  parse_vpg_text (mesh_to_vpg_text dense_mesh false (Some header_text)).1
  = parse_vpg_text (mesh_to_vpg_text dense_mesh false None).1.
Proof.
  apply (base_text_does_not_change_the_geometry dense_mesh false header_text).
  - discriminate.
  - apply (bool_decide_unpack _). vm_compute. exact I.
Defined.

Lemma singleton_mapping_wf (σ : Blender Z) sc short_name full_path :
  scene σ = Some sc →
  short_to_full_filename sc = Some {[ short_name := full_path ]} →
  to_short_filename full_path = short_name →
  mapping_wf σ.
Proof.
  intros Hsc Hm Hshort k p. unfold tracked_path. rewrite Hsc. cbn.
  rewrite Hm. cbn. intros [<- <-]%lookup_singleton_Some. done.
Qed.

Lemma synced_state_wf : mapping_wf synced_state.
Proof. by eapply singleton_mapping_wf. Qed.

Lemma stale_state_wf : mapping_wf stale_state.
Proof. by eapply singleton_mapping_wf. Qed.

Lemma quiet_rebuild_frame : rebuilds_meshes_only quiet_rebuild.
Proof. intros path σ σ' [= <-]. done. Qed.

Lemma edited_state_ready : scene_ready edited_state.
Proof. eexists. split; [done|]. by split; eexists. Qed.

Lemma full_history_state_ready : scene_ready full_history_state.
Proof. eexists. split; [done|]. by split; eexists. Qed.

(** The mapping of the synced state stays filed by short name. *)
Lemma path_mapping_witness :
  (∀ filename text,
     mapping_wf (write_int_file filename text synced_state).1)
  ∧ (∀ filename, mapping_wf (remove_int_file filename synced_state))
  ∧ mapping_wf (_cleanup_orphan_internal_texts synced_state)
  ∧ (∀ obj, mapping_wf (_sync_object_text obj synced_state).2).
Proof.
  apply (path_mapping_stays_filed_by_short_name synced_state).
  exact synced_state_wf.
Defined.

(** The document of the synced object survives a cleanup pass. *)
Lemma cleanup_keeps_witness :
  document (_cleanup_orphan_internal_texts synced_state) "b.vpg"
  = document synced_state "b.vpg".
Proof.
  apply (cleanup_keeps_live_documents synced_state "b.vpg" "/models/b.vpg").
  - exact synced_state_wf.
  - vm_compute. reflexivity.
  - apply (bool_decide_unpack _). vm_compute. exact I.
Defined.

(** A second cleanup pass over the synced state changes nothing. *)
Lemma cleanup_twice_witness :
  (∀ short_name full_path,
     tracked_path (_cleanup_orphan_internal_texts synced_state) short_name
     = Some full_path →
     full_path ∈ _collect_active_vpg_paths
                   (_cleanup_orphan_internal_texts synced_state))
  ∧ _cleanup_orphan_internal_texts
      (_cleanup_orphan_internal_texts synced_state)
    = _cleanup_orphan_internal_texts synced_state.
Proof.
  apply (cleanup_leaves_only_live_documents synced_state).
  exact synced_state_wf.
Defined.

(** The moved vertex is written to the cache and to the internal
    text. *)
Lemma sync_with_change_witness :
  ∃ σ', _sync_object_text synced_object stale_state = (true, σ')
    ∧ mesh_data <$> meshes σ' !! "b_mesh" = Some (Some "n1 1.0 0.0 0.0")
    ∧ history_stack σ' = history_stack stale_state
    ∧ history_stack_idx σ' = history_stack_idx stale_state
    ∧ (is_Some (scene stale_state) →
       writable_name (to_short_filename "/models/b.vpg") = true →
         read_int_file "/models/b.vpg" σ' = Some "n1 1.0 0.0 0.0"
         ∧ tracked_path σ' (to_short_filename "/models/b.vpg")
           = Some "/models/b.vpg"
         ∧ prev_text σ' (to_short_filename "/models/b.vpg")
           = Some (Some "n1 1.0 0.0 0.0")
         ∧ (is_Some (text_area stale_state) →
              text_area σ'
              = Some (Some (to_short_filename "/models/b.vpg"))))
    ∧ (scene stale_state = None
       ∨ writable_name (to_short_filename "/models/b.vpg") = false →
         read_int_file "/models/b.vpg" σ'
         = read_int_file "/models/b.vpg" stale_state
         ∧ (∀ short_name,
              prev_text σ' short_name = prev_text stale_state short_name)
         ∧ text_area σ' = text_area stale_state)
    ∧ (scene stale_state = None →
       texts σ' = texts stale_state ∧ scene σ' = None).
Proof.
  apply (sync_with_change_updates_cache_and_text stale_state synced_object
           "b_mesh" stale_mesh "/models/b.vpg" "n1 1.0 0.0 0.0").
  - reflexivity.
  - vm_compute. reflexivity.
  - reflexivity.
  - vm_compute. reflexivity.
  - vm_compute. discriminate.
Defined.

(** The triangle file is loaded into the editor of the synced state. *)
Lemma external_file_witness :
  match triangle_file_system "/models/tri.vpg" with
  | Ok content =>
      if writable_name (to_short_filename "/models/tri.vpg") then
        ∃ σ', write_from_ext_to_int_file triangle_file_system
                "/models/tri.vpg" synced_state
              = (σ', Returns (Some content))
          ∧ read_int_file "/models/tri.vpg" σ' = Some content
          ∧ tracked_path σ' (to_short_filename "/models/tri.vpg")
            = Some "/models/tri.vpg"
      else
        ∃ σ', write_from_ext_to_int_file triangle_file_system
                "/models/tri.vpg" synced_state
              = (σ', Raises KeyError)
          ∧ read_int_file "/models/tri.vpg" σ'
            = read_int_file "/models/tri.vpg" synced_state
  | Raise OSError =>
      write_from_ext_to_int_file triangle_file_system "/models/tri.vpg"
        synced_state = (synced_state, Returns None)
  | Raise e =>
      write_from_ext_to_int_file triangle_file_system "/models/tri.vpg"
        synced_state = (synced_state, Raises (Exn e))
  end.
Proof.
  apply (external_file_is_loaded triangle_file_system "/models/tri.vpg"
           synced_state).
  vm_compute. eexists. reflexivity.
Defined.

(** A short name of 64 characters and an empty short name are refused
    with [KeyError], and a short name of 63 characters is taken. *)
Lemma names_write_int_file_refuses :
  (write_int_file long_path "n1 0 0 0" synced_state).2 = Some KeyError
  ∧ read_int_file long_path
      (write_int_file long_path "n1 0 0 0" synced_state).1 = None
  ∧ (write_int_file directory_path "n1 0 0 0" synced_state).2 = Some KeyError
  ∧ texts (write_int_file directory_path "n1 0 0 0" synced_state).1
    = <["Text" := ""]> (texts synced_state)
  ∧ (write_int_file
       "/models/aaaaaaaaaaaaaaaaaaaaaaaaaaaaaaaaaaaaaaaaaaaaaaaaaaaaaaaaaaa.vpg"
       "n1 0 0 0" synced_state).2 = None.
Proof. repeat split; vm_compute; reflexivity. Qed.

(** When the text cannot be written, the sync caches it all the same
    and leaves the open text as it was; an edit of the open text is
    still found by the check that follows. *)
Lemma unwritten_sync_leaves_the_edit_pending :
  ∃ σ', _sync_object_text synced_object long_path_state = (true, σ')
    ∧ mesh_data <$> meshes σ' !! "b_mesh" = Some (Some "n1 1.0 0.0 0.0")
    ∧ texts σ' = texts long_path_state
    ∧ ∃ σ'', check_open_int_file_for_changes quiet_rebuild false σ'
             = Returns (true, σ'').
Proof.
  eexists. split; [vm_compute; reflexivity|].
  split; [vm_compute; reflexivity|]. split; [vm_compute; reflexivity|].
  eexists. vm_compute. reflexivity.
Qed.

(** An edit of [a.vpg] pushed onto the history of one entry. *)
Lemma push_witness :
  last (history_stack (history_push "a.vpg" "n1 1 1 1" edited_state))
  = Some {[ "a.vpg" := "n1 1 1 1" ]}
  ∧ (length (history_stack (history_push "a.vpg" "n1 1 1 1" edited_state))
     ≤ HISTORY_STACK_SIZE)%nat
  ∧ history_stack_idx (history_push "a.vpg" "n1 1 1 1" edited_state)
    = history_stack_idx edited_state + 1
  ∧ ∃ dropped,
      (length dropped ≤ 1)%nat
      ∧ dropped ++ history_stack (history_push "a.vpg" "n1 1 1 1" edited_state)
        = take (Z.to_nat (history_stack_idx edited_state + 1))
            (history_stack edited_state)
          ++ [{[ "a.vpg" := "n1 1 1 1" ]}].
Proof.
  apply (push_records_the_edit edited_state "a.vpg" "n1 1 1 1").
  - vm_compute. discriminate.
  - vm_compute. lia.
Defined.

(** An undo step on the history of one entry stays on that entry. *)
Lemma undo_redo_witness :
  0 ≤ 0 < Z.of_nat (length (history_stack edited_state))
  ∧ match on_undo_redo quiet_rebuild true edited_state with
    | Returns σ' =>
        history_stack_idx σ' = 0
        ∧ history_stack σ' = history_stack edited_state
        ∧ texts σ' = <["a.vpg" := "n1 0 0 0"]> (texts edited_state)
    | Raises e => ∃ path s, quiet_rebuild path s = Raises e
    end.
Proof.
  apply (undo_redo_restores_the_entry_under_the_cursor quiet_rebuild true
           edited_state 0 "a.vpg" "n1 0 0 0").
  - exact quiet_rebuild_frame.
  - exact edited_state_ready.
  - vm_compute. discriminate.
  - vm_compute. reflexivity.
  - vm_compute. reflexivity.
  - vm_compute. eexists. reflexivity.
Defined.

(** Undo after the edit of [a.vpg] goes back to the text before. *)
Lemma undo_after_a_push_witness :
  match on_undo_redo quiet_rebuild true
          (history_push "a.vpg" "n1 1 1 1" edited_state) with
  | Returns σ' =>
      texts σ' = <["a.vpg" := "n1 0 0 0"]> (texts edited_state)
      ∧ history_stack_idx σ' = history_stack_idx edited_state
  | Raises e => ∃ path s, quiet_rebuild path s = Raises e
  end.
Proof.
  apply (undo_after_a_push_restores_the_previous_entry quiet_rebuild
           edited_state "a.vpg" "n1 1 1 1" "a.vpg" "n1 0 0 0").
  - exact quiet_rebuild_frame.
  - exact edited_state_ready.
  - vm_compute. lia.
  - vm_compute. reflexivity.
  - vm_compute. reflexivity.
  - vm_compute. eexists. reflexivity.
Defined.

(** Undo after the same edit on a full history keeps the edit. *)
Lemma undo_on_a_full_history_witness :
  history_stack (history_push "a.vpg" "n1 1 1 1" full_history_state)
  = drop 1 (history_stack full_history_state)
    ++ [{[ "a.vpg" := "n1 1 1 1" ]}]
  ∧ history_stack_idx (history_push "a.vpg" "n1 1 1 1" full_history_state)
    = Z.of_nat (length (history_stack
                          (history_push "a.vpg" "n1 1 1 1"
                             full_history_state)))
  ∧ match on_undo_redo quiet_rebuild true
            (history_push "a.vpg" "n1 1 1 1" full_history_state) with
    | Returns σ' =>
        texts σ' = <["a.vpg" := "n1 1 1 1"]> (texts full_history_state)
        ∧ history_stack_idx σ' = history_stack_idx full_history_state
    | Raises e => ∃ path s, quiet_rebuild path s = Raises e
    end.
Proof.
  apply (undo_after_a_push_on_a_full_history_restores_the_edit
           quiet_rebuild full_history_state "a.vpg" "n1 1 1 1").
  - exact quiet_rebuild_frame.
  - exact full_history_state_ready.
  - vm_compute. reflexivity.
  - vm_compute. reflexivity.
  - vm_compute. eexists. reflexivity.
Defined.

(** The edit of [a.vpg] is found by one check and not by the next. *)
Lemma change_detected_once_witness :
  check_open_int_file_for_changes quiet_rebuild false edited_state
  = Returns (true,
             history_push "a.vpg" "n1 1 1 1"
               (set_prev_text "a.vpg" "n1 1 1 1" edited_state))
  ∧ check_open_int_file_for_changes quiet_rebuild false
      (history_push "a.vpg" "n1 1 1 1"
         (set_prev_text "a.vpg" "n1 1 1 1" edited_state))
    = Returns (false,
               history_push "a.vpg" "n1 1 1 1"
                 (set_prev_text "a.vpg" "n1 1 1 1" edited_state)).
Proof.
  split; [vm_compute; reflexivity|].
  apply (change_is_detected_once quiet_rebuild false edited_state).
  - exact quiet_rebuild_frame.
  - vm_compute. reflexivity.
Defined.

(** The text written for the moved vertex is not taken for an edit. *)
Lemma sync_then_check_witness :
  check_open_int_file_for_changes quiet_rebuild false
    (_sync_object_text synced_object stale_state).2
  = Returns (false, (_sync_object_text synced_object stale_state).2).
Proof.
  apply (sync_write_is_not_taken_for_an_edit quiet_rebuild synced_object
           stale_state).
  - vm_compute. reflexivity.
  - vm_compute. eexists. reflexivity.
  - intros mesh_name mesh vpg_path [= <-].
    change (meshes stale_state) with
      ({[ "b_mesh" := stale_mesh ]} : gmap string (Mesh Z)).
    rewrite lookup_singleton_eq. intros [= <-] [= <-].
    vm_compute. reflexivity.
Defined.

(** A tick with the stale object pending. *)
Lemma tick_witness :
  mapping_wf (poll_active_operators None ["b"] pending_watcher stale_state).2
  ∧ (∀ short_name full_path,
       tracked_path
         (poll_active_operators None ["b"] pending_watcher stale_state).2
         short_name = Some full_path →
       full_path ∈ _collect_active_vpg_paths
                     (poll_active_operators None ["b"] pending_watcher
                        stale_state).2)
  ∧ _do_export
      (poll_active_operators None ["b"] pending_watcher stale_state).1
    = false
  ∧ _force_do_export
      (poll_active_operators None ["b"] pending_watcher stale_state).1
    = false
  ∧ (_force_do_export pending_watcher || _do_export pending_watcher = true →
     _modified_objects
       (poll_active_operators None ["b"] pending_watcher stale_state).1
     = ∅).
Proof.
  apply (tick_leaves_only_live_documents None ["b"] pending_watcher
           stale_state).
  exact stale_state_wf.
Defined.

End MoreSampleRuns.
